(** * On-demand electric aircraft models (aircraft_models.py)

    A shallow embedding of the model tree that [aircraft_models.py] builds:
    every [setup] method becomes a computation in a small build monad that
    threads the naming state and the exceptions of the modelling engine. The
    engine itself (variable declaration, instance naming, lookup, flattening,
    substitution) is not part of the source file; its operations are modelled
    from the specification and say so in their documentation. *)

From Stdlib Require Import QArith Lqa Permutation.
From stdpp Require Import base option list strings gmap.

Open Scope Q_scope.
Open Scope string_scope.
Open Scope list_scope.

(** ** Data model *)

(** An instance path: type tags with instance numbers, outermost first. *)
Definition Path : Type := list (string * nat).

(** A qualified name: owner path and local symbol. *)
Definition VarKey : Type := (Path * string)%type.

(** Values a variable can be fixed at. Python floats are kept as the
    rationals their literals denote; the two float computations of the source
    that leave the rationals stay symbolic. *)
Inductive value : Type :=
| Num (q : Q)                                 (* a plain number *)
| Qty (q : Q) (u : string)                    (* q*ureg.u *)
| Pow10 (e : Q)                               (* 10**e *)
| Stdatmo (k : string) (h : value) (u : string). (* stdatmo(h)[k].to(u) *)

Record Var : Type := mkVar {
  key : VarKey;
  val : option value;
  unit : string;
  descr : string
}.

Definition sym (x : Var) : string := snd (key x).
Definition owner (x : Var) : Path := fst (key x).

(** Monomial and posynomial expressions, as the arithmetic operators of the
    source build them. *)
Inductive expr : Type :=
| EVar (k : VarKey)
| ENum (q : Q)
| EPi
| EAdd (a b : expr)
| EMul (a b : expr)
| EDiv (a b : expr)
| EPow (a : expr) (e : Q).

Inductive constraint : Type :=
| CEq (l r : expr)
| CGe (l r : expr)
| CLe (l r : expr).

(** A model is the list its [setup] returned: constraints, sub-models and
    nested lists of those, in the order the list was put together. *)
#[warnings="-register-all"] Inductive Model : Type :=
| MkModel (name : string) (naming : Path) (vars : list Var) (items : list Item)
with Item : Type :=
| ICon (c : constraint)
| ISub (m : Model)
| IList (l : list Item).

Definition m_name (m : Model) : string := let 'MkModel n _ _ _ := m in n.
Definition m_naming (m : Model) : Path := let 'MkModel _ p _ _ := m in p.
Definition m_vars (m : Model) : list Var := let 'MkModel _ _ v _ := m in v.
Definition m_items (m : Model) : list Item := let 'MkModel _ _ _ i := m in i.

(** A variable stands in an expression by its qualified name, the identity
    that the specification gives it (owner path and local symbol). Two
    variables declared under one name in one model, which only a build
    without the duplicate-symbol check can hold, are therefore one term:
    [RotorsAero.setup] has such a pair ("CP" for the power coefficient at
    line 78 and for the profile power coefficient at line 80), and the terms
    of its lines 113-114 do not tell the two apart. No conclusion below is
    drawn from those two constraints. *)
Definition var_expr (x : Var) : expr := EVar (key x).
Coercion var_expr : Var >-> expr.
Coercion ICon : constraint >-> Item.
Coercion ISub : Model >-> Item.

Declare Scope gp_scope.
Delimit Scope gp_scope with gp.
Bind Scope gp_scope with expr.
Notation "a + b" := (EAdd a b) : gp_scope.
Notation "a * b" := (EMul a b) : gp_scope.
Notation "a / b" := (EDiv a b) : gp_scope.
Notation "a ** e" := (EPow a e) (at level 30, right associativity) : gp_scope.
Notation "a == b" := (CEq a b) : gp_scope.
Notation "a >= b" := (CGe a b) : gp_scope.
Notation "a <= b" := (CLe a b) : gp_scope.

(** Python's builtin [sum]: starts from the integer 0 and adds from the left. *)
Definition py_sum (l : list expr) : expr := fold_left EAdd l (ENum 0).

(** A chain [e1 + e2 + ... + en] as Python parses it (from the left). *)
Definition chain_sum (e : expr) (l : list expr) : expr := fold_left EAdd l e.

(** ** The build monad *)

Inductive error : Type :=
| DuplicateSymbolError
| UnresolvedVariableError
| AmbiguousVariableError
| SubstitutionTargetError
| ZeroDivisionError.

(** The model under construction: its tag, its instance number and the
    variables declared in it so far. *)
Record Frame : Type := mkFrame {
  f_tag : string;
  f_num : nat;
  f_vars : list Var
}.

(** The engine's naming state. [checked] says whether declarations are
    checked for repeated symbols; [MODELNUM_LOOKUP] counts the instances made
    of every model type; [MODELS] is the stack of models under construction,
    innermost first; [issued] logs every instance path handed out. *)
Record BuildState : Type := mkState {
  checked : bool;
  MODELNUM_LOOKUP : gmap string nat;
  MODELS : list Frame;
  issued : list Path
}.

Definition Build (A : Type) : Type := BuildState -> error + A * BuildState.

Definition ret {A} (a : A) : Build A := fun s => inr (a, s).

Definition bind {A B} (m : Build A) (k : A -> Build B) : Build B :=
  fun s => match m s with
           | inl e => inl e
           | inr (a, s') => k a s'
           end.

Declare Scope build_scope.
Delimit Scope build_scope with build.
Bind Scope build_scope with Build.
Notation "x ← y ; z" := (bind y (fun x => z))
  (at level 20, y at level 100, z at level 200, only parsing) : build_scope.
Notation "' x ← y ; z" := (bind y (fun x => z))
  (at level 20, x pattern, y at level 100, z at level 200, only parsing) : build_scope.
Open Scope build_scope.

(** A Python exception: the build stops. *)
Definition raise {A} (e : error) : Build A := fun _ => inl e.

Fixpoint mapM {A B} (f : A -> Build B) (l : list A) : Build (list B) :=
  match l with
  | [] => ret []
  | a :: l' => b ← f a; bs ← mapM f l'; ret (b :: bs)
  end.

Definition init (chk : bool) : BuildState :=
  {| checked := chk; MODELNUM_LOOKUP := ∅; MODELS := []; issued := [] |}.

Definition frame_id (f : Frame) : string * nat := (f_tag f, f_num f).

(** The path of the model under construction. *)
Definition current_path (s : BuildState) : Path := rev (map frame_id (MODELS s)).

(** ** Engine operations *)

(** Modelled from the spec: the variable constructor of the engine is not in
    src. Section 4.1: [declare(owner_path, symbol, unit, description,
    value=None)] fails with [DuplicateSymbolError] if [symbol] already exists
    under [owner_path]. [declared] holds the variables declared under
    [owner_path] so far. *)
Definition declare (declared : list Var) (owner_path : Path)
    (symbol unit description : string) (value : option value) : error + Var :=
  if existsb (fun x => (sym x =? symbol)%string) declared
  then inl DuplicateSymbolError
  else inr (mkVar (owner_path, symbol) value unit description).

(** Modelled from the spec: the source's [Variable(name, [value,] unit,
    description)] is the declaration of section 4.1 made for the model under
    construction, which becomes the owner and records the variable. With
    [checked] set this is [declare]. Without it a repeated symbol is recorded
    again: the source itself repeats one (lines 78 and 80), so what its
    missions build can only be stated for an engine that lets that pass. *)
Definition gpVariable (name : string) (value : option value)
    (unit description : string) : Build Var :=
  fun s =>
    let p := current_path s in
    match MODELS s with
    | [] => inr (mkVar (p, name) value unit description, s)
    | f :: fs =>
        let r := if checked s
                 then declare (f_vars f) p name unit description value
                 else inr (mkVar (p, name) value unit description) in
        match r with
        | inl e => inl e
        | inr x =>
            inr (x, mkState (checked s) (MODELNUM_LOOKUP s)
                      (mkFrame (f_tag f) (f_num f) (f_vars f ++ [x]) :: fs)
                      (issued s))
        end
    end.

(** Modelled from the spec: the naming of instances is not in src. Section 3
    gives a model a type tag plus an instance path reflecting where it was
    instantiated; here a new instance takes the path of the model under
    construction, extended by its tag and the number of instances of that tag
    made before it. *)
Definition begin_model (tag : string) : Build Path :=
  fun s =>
    let n := default 0%nat (MODELNUM_LOOKUP s !! tag) in
    let p := current_path s ++ [(tag, n)] in
    inr (p, mkState (checked s) (<[tag := S n]> (MODELNUM_LOOKUP s))
              (mkFrame tag n [] :: MODELS s) (p :: issued s)).

(** Modelled from the spec: section 4.2, a build step yields the variables
    it declared. Leaving a model returns them. *)
Definition end_model : Build (list Var) :=
  fun s =>
    match MODELS s with
    | [] => inr ([], s)
    | f :: fs =>
        inr (f_vars f, mkState (checked s) (MODELNUM_LOOKUP s) fs (issued s))
    end.

(** Modelled from the spec: section 4.2, [build(args...) -> (Variables
    declared, Constraints, child Models)]. Instantiating a model class runs
    its [setup] inside a fresh naming context; the body returns the list that
    [setup] returns and whatever attributes the class stores on [self]. *)
Definition instantiate {A} (tag : string) (body : Build (list Item * A))
    : Build (Model * A) :=
  p ← begin_model tag;
  '(items, attrs) ← body;
  vars ← end_model;
  ret (MkModel tag p vars items, attrs).

(** ** Variable lookup *)

(** The variables of [l] called [symbol]. *)
Definition named (symbol : string) (l : list Var) : list Var :=
  filter (fun x => sym x = symbol) l.

(** One representative per qualified name, first occurrences first: a
    variable reached along two routes is one candidate. *)
Fixpoint distinct (l : list Var) : list Var :=
  match l with
  | [] => []
  | x :: l' => x :: filter (fun y => key y <> key x) (distinct l')
  end.

(** Modelled from the spec: the lookup of the engine is not in src. Section
    4.3: (a) the model's own declared variables are checked first, (b) then
    the declared variables of the objects it holds a reference to; an owner
    path given by the caller restricts the candidates to that owner. *)
Definition candidates (own : list Var) (refs : list (list Var))
    (owner_path : option Path) (symbol : string) : list Var :=
  match owner_path with
  | Some p => distinct (filter (fun x => key x = (p, symbol)) (own ++ concat refs))
  | None =>
      match named symbol own with
      | [] => distinct (named symbol (concat refs))
      | x :: l => distinct (x :: l)
      end
  end.

(** Modelled from the spec: section 4.3 (c), [resolve] fails with
    [UnresolvedVariableError] if there is no match and with
    [AmbiguousVariableError] if more than one candidate matches and the
    caller gave no owner path. *)
Definition resolve (own : list Var) (refs : list (list Var))
    (owner_path : option Path) (symbol : string) : error + Var :=
  match candidates own refs owner_path symbol with
  | [] => inl UnresolvedVariableError
  | [x] => inr x
  | _ :: _ :: _ =>
      match owner_path with
      | None => inl AmbiguousVariableError
      | Some _ => inl UnresolvedVariableError
      end
  end.

Definition lift {A} (r : error + A) : Build A :=
  fun s => match r with inl e => inl e | inr a => inr (a, s) end.

(** The variables declared so far in the model under construction. *)
Definition own_vars (s : BuildState) : list Var :=
  match MODELS s with [] => [] | f :: _ => f_vars f end.

(** Modelled from the spec: the source's [obj.topvar(symbol)] is the lookup
    of section 4.3 made from the model under construction, with [obj] as the
    object referred to and its path as the disambiguating owner. *)
Definition topvar (obj : Model) (symbol : string) : Build Var :=
  fun s => lift (resolve (own_vars s) [m_vars obj] (Some (m_naming obj)) symbol) s.

(** The sub-models of a model, the model itself first. *)
Fixpoint nodes (m : Model) : list Model :=
  match m with
  | MkModel _ _ _ its =>
      m :: (fix go (l : list Item) : list Model :=
              match l with
              | [] => []
              | i :: l' => nodes_item i ++ go l'
              end) its
  end
with nodes_item (i : Item) : list Model :=
  match i with
  | ICon _ => []
  | ISub m => nodes m
  | IList l =>
      (fix go (l : list Item) : list Model :=
         match l with
         | [] => []
         | i :: l' => nodes_item i ++ go l'
         end) l
  end.

(** Modelled from the spec: the source's [model[symbol]] is the lookup of
    section 4.3 by symbol alone, in the model and then in the models below
    it. *)
Definition getitem (m : Model) (symbol : string) : Build Var :=
  lift (resolve (m_vars m) (map m_vars (tl (nodes m))) None symbol).

(** ** The model classes *)

(** Python's ["\rho"]: the escape [\r] is a carriage return. ["\eta"] and
    ["\omega"] keep their backslash. *)
Definition rho_sym : string := String (Ascii.ascii_of_nat 13) "ho".

(** Flight segments store their energy variable on [self]. *)
Record Segment : Type := mkSegment {
  seg_model : Model;
  E : Var
}.

Module SimpleOnDemandStructure.
(** [aircraft] is the aircraft under construction, of which only
    [aircraft.MTOW] is read. *)
Definition setup (aircraft_MTOW : Var) (weight_fraction : value) : Build Model :=
  '(m, _) ← instantiate "SimpleOnDemandStructure" (
    W ← gpVariable "W" None "lbf" "Structural weight";
    weight_fraction ← gpVariable "weight_fraction" (Some weight_fraction) "-"
      "Structural weight fraction";
    ret ([ICon (W == weight_fraction * aircraft_MTOW)%gp], tt));
  ret m.
End SimpleOnDemandStructure.

Module Rotors.
Definition setup (N s : option value) : Build Model :=
  '(m, _) ← instantiate "Rotors" (
    let N := default (Num 1) N in
    let s := default (Num 0.1) s in
    R ← gpVariable "R" None "ft" "Propeller radius";
    D ← gpVariable "D" None "ft" "Propeller diameter";
    A ← gpVariable "A" None "ft^2" "Area of 1 rotor disk";
    A_total ← gpVariable "A_{total}" None "ft^2" "Combined area of all rotor disks";
    N ← gpVariable "N" (Some N) "-" "Number of rotors";
    s ← gpVariable "s" (Some s) "-" "Propeller solidity";
    W ← gpVariable "W" (Some (Num 0)) "lbf" "Rotor weight";
    let constraints : list Item :=
      [ICon (A == EPi * R ** 2)%gp; ICon (D == ENum 2 * R)%gp; ICon (N == N)%gp;
       ICon (s == s)%gp; ICon (A_total == N * A)%gp] in
    ret (constraints, tt));
  ret m.
End Rotors.

Module FlightState.
Definition setup (h : value) : Build Model :=
  '(m, _) ← instantiate "FlightState" (
    let rho := Stdatmo rho_sym h "kg/m**3" in
    let a := Stdatmo "a" h "ft/s" in
    rho ← gpVariable rho_sym (Some rho) "kg/m^3" "Air density";
    a ← gpVariable "a" (Some a) "ft/s" "Speed of sound";
    let constraints : list Item := [] in
    let constraints := constraints ++ [ICon (a == a)%gp; ICon (rho == rho)%gp] in
    ret (constraints, tt));
  ret m.
End FlightState.

Module RotorsAero.
Definition setup (rotors flightState : Model) (MT_max CL_mean_max : option value)
    (SPL_req : option Q) : Build Model :=
  '(m, _) ← instantiate "RotorsAero" (
    let MT_max := default (Num 0.9) MT_max in
    let CL_mean_max := default (Num 1.0) CL_mean_max in
    let SPL_req := default 150 SPL_req in
    T ← gpVariable "T" None "lbf" "Total thrust";
    T_perRotor ← gpVariable "T_perRotor" None "lbf" "Thrust per rotor";
    T_A ← gpVariable "T/A" None "lbf/ft**2" "Disk loading";
    P ← gpVariable "P" None "kW" "Total power";
    P_perRotor ← gpVariable "P_perRotor" None "kW" "Power per rotor";
    VT ← gpVariable "VT" None "ft/s" "Propeller tip speed";
    omega ← gpVariable "\omega" None "rpm" "Propeller angular velocity";
    MT ← gpVariable "MT" None "-" "Propeller tip Mach number";
    MT_max ← gpVariable "MT_max" (Some MT_max) "-" "Maximum allowed tip Mach number";

    CT ← gpVariable "CT" None "-" "Thrust coefficient";
    CP ← gpVariable "CP" None "-" "Power coefficient";
    CPi ← gpVariable "CPi" None "-" "Induced (ideal) power coefficient";
    CPp ← gpVariable "CP" None "-" "Profile power coefficient";
    CL_mean ← gpVariable "CL_mean" None "-" "Mean lift coefficient";
    CL_mean_max ← gpVariable "CL_mean_max" (Some CL_mean_max) "-"
      "Maximum allowed mean lift coefficient";
    FOM ← gpVariable "FOM" None "-" "Figure of merit";

    ki ← gpVariable "ki" (Some (Num 1.1)) "-" "Induced power factor";
    Cd0 ← gpVariable "Cd0" (Some (Num 0.01)) "-"
      "Blade two-dimensional zero-lift drag coefficient";

    p_ratio ← gpVariable "p_{ratio}" None "-" "Sound pressure ratio (p/p_{ref})";
    p_ratio_max ← gpVariable "p_{ratio_max}" (Some (Pow10 (SPL_req / 20))) "-"
      "Max allowed sound pressure ratio";
    x ← gpVariable "x" (Some (Num 500)) "ft"
      "Distance from source at which to calculate sound";
    k3 ← gpVariable "k3" (Some (Num 6.804e-3)) "s**3/ft**3" "Sound-pressure constant";

    R ← topvar rotors "R";
    A ← topvar rotors "A";
    A_total ← topvar rotors "A_{total}";
    N ← topvar rotors "N";
    s ← topvar rotors "s";

    rho ← topvar flightState rho_sym;
    a ← topvar flightState "a";

    let constraints : list Item := [ISub flightState] in
    (* Top-level constraints *)
    let constraints := constraints ++
      [ICon (T == N * T_perRotor)%gp;
       ICon (P == N * P_perRotor)%gp] in
    let constraints := constraints ++
      [ICon (T_perRotor == ENum 0.5 * rho * (VT ** 2) * A * CT)%gp;
       ICon (P_perRotor == ENum 0.5 * rho * (VT ** 3) * A * CP)%gp] in
    let constraints := constraints ++ [ICon (T_A == T / A_total)%gp] in
    (* Performance model *)
    let constraints := constraints ++
      [ICon (CPi == ENum 0.5 * CT ** 1.5)%gp;
       ICon (CPp == ENum 0.25 * s * Cd0)%gp;
       ICon (CP >= ki * CPi + CPp)%gp;
       ICon (FOM == CPi / CP)%gp] in
    (* Tip-speed constraints (upper limit on VT) *)
    let constraints := constraints ++
      [ICon (VT == R * omega)%gp;
       ICon (VT == MT * a)%gp;
       ICon (MT <= MT_max)%gp] in
    (* Mean lift coefficient constraints (lower limit on VT) *)
    let constraints := constraints ++
      [ICon (CL_mean == ENum 3 * CT / s)%gp;
       ICon (CL_mean <= CL_mean_max)%gp] in
    (* Noise model *)
    let constraints := constraints ++
      [ICon (p_ratio == k3 * ((T * omega) / (rho * x)) * (N * s) ** (-0.5))%gp;
       ICon (p_ratio <= p_ratio_max)%gp] in
    ret (constraints, tt));
  ret m.
End RotorsAero.

(** [Rotors.performance] *)
Definition Rotors_performance (self flightState : Model)
    (MT_max CL_mean_max : option value) (SPL_req : option Q) : Build Model :=
  RotorsAero.setup self flightState
    (Some (default (Num 0.9) MT_max)) (Some (default (Num 1.0) CL_mean_max))
    (Some (default 100 SPL_req)).

Module Battery.
(** [self.P_max] and [self.n], the battery discharge parameter (a float). *)
Record obj : Type := mk {
  model : Model;
  P_max : Var;
  n : Q
}.

Definition setup (C_m usable_energy_fraction P_m : option value) (n : option Q)
    : Build obj :=
  '(m, (P_max, n)) ← instantiate "Battery" (
    let C_m := default (Qty 350 "Wh/kg") C_m in
    let usable_energy_fraction := default (Num 0.8) usable_energy_fraction in
    let P_m := default (Qty 3000 "W/kg") P_m in
    let n := default 1 n in
    g ← gpVariable "g" None "m/s**2" "Gravitational acceleration";

    C ← gpVariable "C" None "kWh" "Battery capacity";
    C_eff ← gpVariable "C_{eff}" None "kWh" "Effective battery capacity";
    usable_energy_fraction ← gpVariable "usable_energy_fraction"
      (Some usable_energy_fraction) "-"
      "Percentage of the battery energy that can be used (without damaging battery)";

    W ← gpVariable "W" None "lbf" "Battery weight";
    m ← gpVariable "m" None "kg" "Battery mass";
    C_m ← gpVariable "C_m" (Some C_m) "Wh/kg" "Battery energy density";
    P_m ← gpVariable "P_m" (Some P_m) "W/kg" "Battery power density";
    P_max ← gpVariable "P_{max}" None "kW" "Battery maximum power";

    ret ([ICon (C == m * C_m)%gp; ICon (W == m * g)%gp;
          ICon (C_eff == usable_energy_fraction * C)%gp;
          ICon (P_max == P_m * m)%gp], (P_max, n)));
  ret (mk m P_max n).
End Battery.

Module BatteryPerformance.
Record obj : Type := mk {
  model : Model;
  t : Var
}.

Definition setup (battery : Battery.obj) : Build obj :=
  '(m, t) ← instantiate "BatteryPerformance" (
    E ← gpVariable "E" None "kWh" "Electrical energy used during segment";
    P ← gpVariable "P" None "kW" "Power draw during segment";
    t ← gpVariable "t" None "s" "Time over which battery is providing power";
    Rt ← gpVariable "Rt" (Some (Num 1)) "hr" "Battery hour rating";

    (* 1/battery.n *)
    e ← (if Qeq_bool (Battery.n battery) 0 then raise ZeroDivisionError
         else ret (1 / Battery.n battery));
    let constraints : list Item :=
      [ICon (E == P * Rt * ((t / Rt) ** e))%gp;
       ICon (P <= Battery.P_max battery)%gp] in
    ret (constraints, t));
  ret (mk m t).
End BatteryPerformance.

(** [Battery.performance] *)
Definition Battery_performance (self : Battery.obj) : Build BatteryPerformance.obj :=
  BatteryPerformance.setup self.

Module Crew.
Definition setup (W_oneCrew N_crew : option value) : Build Model :=
  '(m, _) ← instantiate "Crew" (
    let W_oneCrew := default (Qty 190 "lbf") W_oneCrew in
    let N_crew := default (Num 1) N_crew in
    W_oneCrew ← gpVariable "W_{oneCrew}" (Some W_oneCrew) "lbf" "Weight of 1 crew member";
    N_crew ← gpVariable "N_{crew}" (Some N_crew) "-" "Number of crew members";
    W ← gpVariable "W" None "lbf" "Total weight";

    ret ([ICon (W == N_crew * W_oneCrew)%gp], tt));
  ret m.
End Crew.

Module Passengers.
Definition setup (W_onePassenger N_passengers : option value) : Build Model :=
  '(m, _) ← instantiate "Passengers" (
    let W_onePassenger := default (Qty 200 "lbf") W_onePassenger in
    let N_passengers := default (Num 1) N_passengers in
    W_onePassenger ← gpVariable "W_{onePassenger}" (Some W_onePassenger) "lbf"
      "Weight of 1 passenger";
    N_passengers ← gpVariable "N_{passengers}" (Some N_passengers) "-"
      "Number of passengers";
    W ← gpVariable "W" None "lbf" "Total weight";

    ret ([ICon (W == N_passengers * W_onePassenger)%gp], tt));
  ret m.
End Passengers.

Module PowerSystem.
Record obj : Type := mk {
  model : Model;
  eta : Var
}.

Definition setup (eta : option value) : Build obj :=
  '(m, eta) ← instantiate "PowerSystem" (
    let eta := default (Num 0.9) eta in
    W ← gpVariable "W" (Some (Num 0)) "lbf" "Electrical power system weight";
    eta ← gpVariable "eta" (Some eta) "-" "Electrical power system efficiency";

    let constraints : list Item := [] in
    let constraints := constraints ++ [ICon (W == W)%gp; ICon (eta == eta)%gp] in
    ret (constraints, eta));
  ret (mk m eta).
End PowerSystem.

Module PowerSystemPerformance.
Definition setup (powerSystem : PowerSystem.obj) : Build Model :=
  '(m, _) ← instantiate "PowerSystemPerformance" (
    P_in ← gpVariable "P_{in}" None "kW" "Input power (from the battery)";
    P_out ← gpVariable "P_{out}" None "kW" "Output power (to the motor or motors)";

    let constraints : list Item := [] in
    let constraints := constraints ++
      [ICon (P_out == PowerSystem.eta powerSystem * P_in)%gp] in
    ret (constraints, tt));
  ret m.
End PowerSystemPerformance.

(** [PowerSystem.performance] *)
Definition PowerSystem_performance (self : PowerSystem.obj) : Build Model :=
  PowerSystemPerformance.setup self.

Module SimpleOnDemandAircraft.
Record obj : Type := mk {
  model : Model;
  MTOW : Var;
  C_eff : Var;
  g : Var;
  L_D : Var;
  eta_cruise : Var;
  rotors : Model;
  battery : Battery.obj;
  crew : Model;
  structure : Model;
  powerSystem : PowerSystem.obj
}.

Definition components (self : obj) : list Model :=
  [rotors self; Battery.model (battery self); crew self; structure self;
   PowerSystem.model (powerSystem self)].

Definition setup (N L_D eta_cruise weight_fraction C_m : value)
    (N_crew : option value) (n : option Q) (eta_electric : option value)
    : Build obj :=
  '(m, self) ← instantiate "SimpleOnDemandAircraft" (
    let N_crew := default (Num 1) N_crew in
    let n := default 1 n in
    let eta_electric := default (Num 0.9) eta_electric in

    MTOW ← gpVariable "MTOW" None "lbf" "Takeoff weight";
    W_noPassengers ← gpVariable "W_{noPassengers}" None "lbf" "Weight without passengers";
    C_eff ← gpVariable "C_{eff}" None "kWh" "Effective battery capacity";
    g ← gpVariable "g" (Some (Num 9.807)) "m/s**2" "Gravitational acceleration";
    L_D ← gpVariable "L_D" (Some L_D) "-" "Cruise L/D ratio";
    eta_cruise ← gpVariable "\eta" (Some eta_cruise) "-" "Cruise propulsive efficiency";

    rotors ← Rotors.setup (Some N) None;
    battery ← Battery.setup (Some C_m) None None (Some n);
    crew ← Crew.setup None (Some N_crew);
    structure ← SimpleOnDemandStructure.setup MTOW weight_fraction;
    powerSystem ← PowerSystem.setup (Some eta_electric);
    let components :=
      [rotors; Battery.model battery; crew; structure; PowerSystem.model powerSystem] in

    let constraints : list Item := [] in
    g_b ← topvar (Battery.model battery) "g";
    let constraints := constraints ++ [ICon (g == g_b)%gp] in
    (* all constraints implemented at component level *)
    let constraints := constraints ++ [IList (map ISub components)] in
    (* battery-capacity constraint *)
    C_eff_b ← topvar (Battery.model battery) "C_{eff}";
    let constraints := constraints ++ [ICon (C_eff == C_eff_b)%gp] in
    (* weight constraint *)
    Ws ← mapM (fun c => topvar c "W") components;
    let constraints := constraints ++
      [ICon (W_noPassengers >= py_sum (map var_expr Ws))%gp] in
    ret (constraints, fun m => mk m MTOW C_eff g L_D eta_cruise rotors battery crew
                                  structure powerSystem));
  ret (self m).
End SimpleOnDemandAircraft.

Module Hover.
(** [mission] is the mission under construction, of which only [mission.W]
    is read. *)
Definition setup (mission_W : Var) (aircraft : SimpleOnDemandAircraft.obj)
    (state : Model) (t : option value) : Build Segment :=
  '(m, E) ← instantiate "Hover" (
    let t := default (Qty 120 "s") t in
    E ← gpVariable "E" None "kWh" "Electrical energy used during hover segment";
    P_battery ← gpVariable "P_{battery}" None "kW"
      "Power drawn (from batteries) during hover segment";
    P_rotors ← gpVariable "P_{rotors}" None "kW"
      "Power used (by rotors) during hover segment";
    T ← gpVariable "T" None "lbf" "Total thrust (from rotors) during hover segment";
    T_A ← gpVariable "T/A" None "lbf/ft**2" "Disk loading during hover segment";
    t ← gpVariable "t" (Some t) "s" "Time in hover segment";
    let W := mission_W in

    rotorPerf ← Rotors_performance (SimpleOnDemandAircraft.rotors aircraft) state
                  None None None;
    batteryPerf ← Battery_performance (SimpleOnDemandAircraft.battery aircraft);
    powerSystemPerf ← PowerSystem_performance
                        (SimpleOnDemandAircraft.powerSystem aircraft);
    let batteryPerf := BatteryPerformance.model batteryPerf in

    let constraints : list Item :=
      [ISub rotorPerf; ISub batteryPerf; ISub powerSystemPerf] in
    r_P ← topvar rotorPerf "P";
    r_T ← topvar rotorPerf "T";
    r_T_A ← topvar rotorPerf "T/A";
    let constraints := constraints ++
      [ICon (P_rotors == r_P)%gp; ICon (T == r_T)%gp; ICon (T_A == r_T_A)%gp] in
    p_in ← topvar powerSystemPerf "P_{in}";
    p_out ← topvar powerSystemPerf "P_{out}";
    let constraints := constraints ++
      [ICon (P_battery == p_in)%gp; ICon (P_rotors == p_out)%gp] in
    b_E ← topvar batteryPerf "E";
    b_P ← topvar batteryPerf "P";
    b_t ← topvar batteryPerf "t";
    let constraints := constraints ++
      [ICon (E == b_E)%gp; ICon (P_battery == b_P)%gp; ICon (t == b_t)%gp] in
    let constraints := constraints ++ [ICon (T == W)%gp] in
    ret (constraints, E));
  ret (mkSegment m E).
End Hover.

Module LevelFlight.
Definition setup (mission_W : Var) (aircraft : SimpleOnDemandAircraft.obj)
    (V : option value) : Build Segment :=
  '(m, E) ← instantiate "LevelFlight" (
    let V := default (Qty 150 "mph") V in
    E ← gpVariable "E" None "kWh" "Electrical energy used during level-flight segment";
    P_battery ← gpVariable "P_{battery}" None "kW"
      "Power drawn (from batteries) during segment";
    P_cruise ← gpVariable "P_{cruise}" None "kW"
      "Power used (by propulsion system) during cruise segment";
    T ← gpVariable "T" None "lbf" "Thrust during level-flight  segment";
    D ← gpVariable "D" None "lbf" "Drag during level-flight segment";
    t ← gpVariable "t" None "s" "Time in level-flight segment";
    segment_range ← gpVariable "segment_range" None "nautical_mile"
      "Distance travelled during segment";
    V ← gpVariable "V" (Some V) "mph" "Velocity during segment";

    let W := mission_W in
    let L_D := SimpleOnDemandAircraft.L_D aircraft in
    let eta_cruise := SimpleOnDemandAircraft.eta_cruise aircraft in

    batteryPerf ← Battery_performance (SimpleOnDemandAircraft.battery aircraft);
    powerSystemPerf ← PowerSystem_performance
                        (SimpleOnDemandAircraft.powerSystem aircraft);
    let batteryPerf := BatteryPerformance.model batteryPerf in

    let constraints : list Item := [] in
    b_E ← topvar batteryPerf "E";
    b_P ← topvar batteryPerf "P";
    b_t ← topvar batteryPerf "t";
    let constraints := constraints ++
      [ICon (E == b_E)%gp; ICon (P_battery == b_P)%gp; ICon (t == b_t)%gp] in
    p_in ← topvar powerSystemPerf "P_{in}";
    p_out ← topvar powerSystemPerf "P_{out}";
    let constraints := constraints ++
      [ICon (P_battery == p_in)%gp; ICon (P_cruise == p_out)%gp] in
    let constraints := constraints ++
      [ICon (segment_range == V * t)%gp; ICon (eta_cruise * P_cruise == T * V)%gp;
       ICon (T == D)%gp; ICon (W == L_D * D)%gp] in

    let constraints := constraints ++ [ISub batteryPerf; ISub powerSystemPerf] in

    ret (constraints, E));
  ret (mkSegment m E).
End LevelFlight.

Module OnDemandSizingMission.
Record obj : Type := mk {
  model : Model;
  aircraft : SimpleOnDemandAircraft.obj;
  W : Var;
  passengers : Model;
  fs0 : Segment;
  fs1 : Segment;
  fs2 : Segment;
  fs3 : Segment;
  fs4 : Segment;
  fs5 : Segment
}.

Definition segments (self : obj) : list Segment :=
  [fs0 self; fs1 self; fs2 self; fs3 self; fs4 self; fs5 self].

(** The two [if] statements on [reserve_type] (lines 309-314). *)
Definition reserve_constraints (reserve_type : string) (fs4 : Segment)
    : Build (list Item) :=
  c_FAA ← (if (reserve_type =? "FAA")%string then
             (* 45-minute loiter time, as per night VFR rules *)
             t_loiter ← gpVariable "t_{loiter}" (Some (Num 45)) "minutes" "Loiter time";
             fs4_t ← topvar (seg_model fs4) "t";
             ret [ICon (t_loiter == fs4_t)%gp]
           else ret []);
  c_Uber ← (if (reserve_type =? "Uber")%string then
              (* 2-nautical-mile diversion distance; used by McDonald & German *)
              R_divert ← gpVariable "R_{divert}" (Some (Num 2)) "nautical_mile"
                "Diversion distance";
              fs4_range ← topvar (seg_model fs4) "segment_range";
              ret [ICon (R_divert == fs4_range)%gp]
            else ret []);
  ret (c_FAA ++ c_Uber).

(** Mission the aircraft must be able to fly. No economic analysis. *)
Definition setup (aircraft : SimpleOnDemandAircraft.obj)
    (mission_range V_cruise V_loiter N_passengers time_in_hover : option value)
    (reserve_type : option string) : Build obj :=
  '(m, self) ← instantiate "OnDemandSizingMission" (
    let mission_range := default (Qty 100 "nautical_mile") mission_range in
    let V_cruise := default (Qty 150 "mph") V_cruise in
    let V_loiter := default (Qty 100 "mph") V_loiter in
    let N_passengers := default (Num 1) N_passengers in
    let time_in_hover := default (Qty 120 "s") time_in_hover in
    let reserve_type := default "Uber" reserve_type in

    W ← gpVariable "W_{mission}" None "lbf" "Weight of the aircraft during the mission";
    mission_range ← gpVariable "mission_range" (Some mission_range) "nautical_mile"
      "Mission range";
    p_ratio ← gpVariable "p_{ratio}" None "-" "Sound pressure ratio in hover";
    let C_eff := SimpleOnDemandAircraft.C_eff aircraft in

    passengers ← Passengers.setup None (Some N_passengers);

    hoverState ← FlightState.setup (Qty 0 "ft");

    fs0 ← Hover.setup W aircraft hoverState (Some time_in_hover);    (* takeoff *)
    fs1 ← LevelFlight.setup W aircraft (Some V_cruise);     (* fly to destination *)
    fs2 ← Hover.setup W aircraft hoverState (Some time_in_hover);    (* landing *)
    fs3 ← Hover.setup W aircraft hoverState (Some time_in_hover); (* take off again *)
    fs4 ← LevelFlight.setup W aircraft (Some V_loiter);        (* loiter (reserve) *)
    fs5 ← Hover.setup W aircraft hoverState (Some time_in_hover); (* landing again *)

    let constraints : list Item := [] in

    a_W ← topvar (SimpleOnDemandAircraft.model aircraft) "W_{noPassengers}";
    p_W ← topvar passengers "W";
    let constraints := constraints ++ [ICon (W >= a_W + p_W)%gp] in
    a_MTOW ← topvar (SimpleOnDemandAircraft.model aircraft) "MTOW";
    let constraints := constraints ++ [ICon (a_MTOW >= W)%gp] in
    let constraints := constraints ++ [ISub passengers] in

    reserve ← reserve_constraints reserve_type fs4;
    let constraints := constraints ++ reserve in

    fs1_range ← topvar (seg_model fs1) "segment_range";
    let constraints := constraints ++ [ICon (mission_range == fs1_range)%gp] in
    let constraints := constraints ++
      [ICon (C_eff >= E fs0 + E fs1 + E fs2 + E fs3 + E fs4 + E fs5)%gp] in
    let constraints := constraints ++
      [ISub (seg_model fs0); ISub (seg_model fs1); ISub (seg_model fs2);
       ISub (seg_model fs3); ISub (seg_model fs4); ISub (seg_model fs5)] in
    fs0_p_ratio ← getitem (seg_model fs0) "p_{ratio}";
    let constraints := constraints ++ [ICon (p_ratio == fs0_p_ratio)%gp] in
    (* [constraints += hoverState] extends the list by the elements of
       [hoverState] *)
    let constraints := constraints ++ m_items hoverState in
    ret (constraints,
         fun m => mk m aircraft W passengers fs0 fs1 fs2 fs3 fs4 fs5));
  ret (self m).
End OnDemandSizingMission.

Module OnDemandTypicalMission.
Record obj : Type := mk {
  model : Model;
  aircraft : SimpleOnDemandAircraft.obj;
  W : Var;
  passengers : Model;
  fs0 : Segment;
  fs1 : Segment;
  fs2 : Segment
}.

Definition segments (self : obj) : list Segment :=
  [fs0 self; fs1 self; fs2 self].

(** Typical mission. Economic analysis included. *)
Definition setup (aircraft : SimpleOnDemandAircraft.obj)
    (mission_range V_cruise N_passengers time_in_hover cost_per_weight
     pilot_salary mechanic_salary : option value) : Build obj :=
  '(m, self) ← instantiate "OnDemandTypicalMission" (
    let mission_range := default (Qty 100 "nautical_mile") mission_range in
    let V_cruise := default (Qty 150 "mph") V_cruise in
    let N_passengers := default (Num 1) N_passengers in
    let time_in_hover := default (Qty 60 "s") time_in_hover in
    let cost_per_weight := default (Qty 112 "lbf**-1") cost_per_weight in
    let pilot_salary := default (Qty 40 "hr**-1") pilot_salary in
    let mechanic_salary := default (Qty 30 "hr**-1") mechanic_salary in

    W ← gpVariable "W_{mission}" None "lbf" "Weight of the aircraft during the mission";
    mission_range ← gpVariable "mission_range" (Some mission_range) "nautical_mile"
      "Mission range (not including reserves)";
    p_ratio ← gpVariable "p_{ratio}" None "-" "Sound pressure ratio in hover";
    let C_eff := SimpleOnDemandAircraft.C_eff aircraft in (* effective battery capacity *)

    cpt ← gpVariable "cost_per_trip" None "-" "Cost (in dollars) for one trip";
    cptpp ← gpVariable "cost_per_trip_per_passenger" None "-"
      "Cost (in dollars) for one trip, per passenger";

    c_vehicle ← gpVariable "c_{vehicle}" None "-" "Vehicle amortized cost (per mission)";
    t_mission ← gpVariable "t_{mission}" None "minutes" "Time to complete mission";
    vehicle_life ← gpVariable "vehicle_life" (Some (Num 10)) "years" "Vehicle lifetime";
    cost_per_weight ← gpVariable "cost_per_weight" (Some cost_per_weight) "lbf**-1"
      "Cost per unit weight of the aircraft";
    purchase_price ← gpVariable "purchase_price" None "-" "Purchase price of the aircraft";

    c_energy ← gpVariable "c_{energy}" None "-" "Energy cost (per mission)";
    cost_per_energy ← gpVariable "cost_per_energy" (Some (Num 0.12)) "kWh**-1"
      "Price of electricity (dollars per kWh)";
    E_mission ← gpVariable "E_{mission}" None "kWh" "Electrical energy used during mission";

    c_pilot ← gpVariable "c_{pilot}" None "-" "Pilot cost (per mission)";
    pilot_salary ← gpVariable "pilot_salary" (Some pilot_salary) "hr**-1" "Pilot salary";

    c_maintenance ← gpVariable "c_{maintenance}" None "-" "Maintenance cost per mission";
    overhaul_cost ← gpVariable "overhaul_cost" None "-" "Cost of 1 overhaul";
    overhaul_time ← gpVariable "overhaul_time" (Some (Num 2)) "hours"
      "Time to complete 1 overhaul";
    N_mechanics ← gpVariable "N_{mechanics}" (Some (Num 2)) "-"
      "Number of mechanics required for an overhaul";
    time_between_overhauls ← gpVariable "time_between_overhauls" (Some (Num 50)) "hours"
      "Time between overhauls";
    mechanic_salary ← gpVariable "mechanic_salary" (Some mechanic_salary) "hr**-1"
      "Mechanic salary";

    passengers ← Passengers.setup None (Some N_passengers);

    hoverState ← FlightState.setup (Qty 0 "ft");

    fs0 ← Hover.setup W aircraft hoverState (Some time_in_hover);   (* takeoff *)
    fs1 ← LevelFlight.setup W aircraft (Some V_cruise);    (* fly to destination *)
    fs2 ← Hover.setup W aircraft hoverState (Some time_in_hover);   (* landing *)

    let constraints : list Item := [] in

    a_W ← topvar (SimpleOnDemandAircraft.model aircraft) "W_{noPassengers}";
    p_W ← topvar passengers "W";
    let constraints := constraints ++ [ICon (W >= a_W + p_W)%gp] in
    a_MTOW ← topvar (SimpleOnDemandAircraft.model aircraft) "MTOW";
    let constraints := constraints ++ [ICon (a_MTOW >= W)%gp] in
    let constraints := constraints ++ [ISub passengers] in

    fs1_range ← topvar (seg_model fs1) "segment_range";
    let constraints := constraints ++ [ICon (mission_range == fs1_range)%gp] in
    let constraints := constraints ++ [ICon (C_eff >= E fs0 + E fs1 + E fs2)%gp] in
    let constraints := constraints ++
      [ISub (seg_model fs0); ISub (seg_model fs1); ISub (seg_model fs2)] in
    fs0_p_ratio ← getitem (seg_model fs0) "p_{ratio}";
    let constraints := constraints ++ [ICon (p_ratio == fs0_p_ratio)%gp] in
    let constraints := constraints ++ m_items hoverState in

    p_N ← topvar passengers "N_{passengers}";
    let constraints := constraints ++ [ICon (cpt == cptpp * p_N)%gp] in
    let constraints := constraints ++
      [ICon (cpt >= c_vehicle + c_energy + c_pilot + c_maintenance)%gp] in

    let constraints := constraints ++
      [ICon (c_vehicle == purchase_price * t_mission / vehicle_life)%gp] in
    fs0_t ← topvar (seg_model fs0) "t";
    fs1_t ← topvar (seg_model fs1) "t";
    fs2_t ← topvar (seg_model fs2) "t";
    let constraints := constraints ++ [ICon (t_mission >= fs0_t + fs1_t + fs2_t)%gp] in
    let constraints := constraints ++
      [ICon (purchase_price == cost_per_weight * SimpleOnDemandAircraft.MTOW aircraft)%gp] in

    let constraints := constraints ++ [ICon (c_energy == E_mission * cost_per_energy)%gp] in
    let constraints := constraints ++ [ICon (E_mission >= E fs0 + E fs1 + E fs2)%gp] in

    let constraints := constraints ++ [ICon (c_pilot == pilot_salary * t_mission)%gp] in

    let constraints := constraints ++
      [ICon (c_maintenance == overhaul_cost * t_mission / time_between_overhauls)%gp] in
    let constraints := constraints ++
      [ICon (overhaul_cost == N_mechanics * overhaul_time * mechanic_salary)%gp] in

    ret (constraints, fun m => mk m aircraft W passengers fs0 fs1 fs2));
  ret (self m).
End OnDemandTypicalMission.

(** ** The script *)

(** The study parameters that the script sets before building (lines
    408-433). *)
Module Config.
Record t : Type := mk {
  N : value;                     (* number of propellers *)
  T_A : value;
  L_D : value;                   (* estimated L/D in cruise *)
  eta_cruise : value;            (* propulsive efficiency in cruise *)
  eta_electric : value;          (* electrical system efficiency *)
  weight_fraction : value;       (* structural mass fraction *)
  C_m : value;                   (* battery energy density *)
  N_crew : value;
  n : Q;                         (* battery discharge parameter *)
  reserve_type : string;
  V_cruise : value;
  V_loiter : value;
  sizing_mission_range : value;
  typical_mission_range : value;
  sizing_time_in_hover : value;
  typical_time_in_hover : value;
  sizing_N_passengers : value;
  typical_N_passengers : value;
  cost_per_weight : value;
  pilot_salary : value;
  mechanic_salary : value
}.
End Config.

(** Joby S2 representative analysis (applies to tilt-rotors in general) *)
Definition joby : Config.t :=
  {| Config.N := Num 12;
     Config.T_A := Qty 16.3 "lbf/ft**2";
     Config.L_D := Num 14;
     Config.eta_cruise := Num 0.85;
     Config.eta_electric := Num 0.95;
     Config.weight_fraction := Num 0.3444;
     Config.C_m := Qty 400 "Wh/kg";
     Config.N_crew := Num 1;
     Config.n := 1.0;
     Config.reserve_type := "FAA";
     Config.V_cruise := Qty 200 "mph";
     Config.V_loiter := Qty 100 "mph";
     Config.sizing_mission_range := Qty 200 "nautical_mile";
     Config.typical_mission_range := Qty 100 "nautical_mile";
     Config.sizing_time_in_hover := Qty 120 "s";
     Config.typical_time_in_hover := Qty 30 "s";
     Config.sizing_N_passengers := Num 1;
     Config.typical_N_passengers := Num 1;
     Config.cost_per_weight := Qty 112 "lbf**-1";
     Config.pilot_salary := Qty 40 "hr**-1";
     Config.mechanic_salary := Qty 30 "hr**-1" |}.

(** What the script has built when it calls the solver. *)
Record Study : Type := mkStudy {
  testAircraft : SimpleOnDemandAircraft.obj;
  testSizingMission : OnDemandSizingMission.obj;
  substitutions : gmap VarKey value;   (* the update of lines 441-443 *)
  testTypicalMission : OnDemandTypicalMission.obj;
  cost : Var;
  problem : Model
}.

Definition main (c : Config.t) : Build Study :=
  testAircraft ← SimpleOnDemandAircraft.setup (Config.N c) (Config.L_D c)
    (Config.eta_cruise c) (Config.weight_fraction c) (Config.C_m c)
    (Some (Config.N_crew c)) (Some (Config.n c)) (Some (Config.eta_electric c));

  testSizingMission ← OnDemandSizingMission.setup testAircraft
    (Some (Config.sizing_mission_range c)) (Some (Config.V_cruise c))
    (Some (Config.V_loiter c)) (Some (Config.sizing_N_passengers c))
    (Some (Config.sizing_time_in_hover c)) (Some (Config.reserve_type c));
  k0 ← topvar (seg_model (OnDemandSizingMission.fs0 testSizingMission)) "T/A";
  k2 ← topvar (seg_model (OnDemandSizingMission.fs2 testSizingMission)) "T/A";
  k3 ← topvar (seg_model (OnDemandSizingMission.fs3 testSizingMission)) "T/A";
  k5 ← topvar (seg_model (OnDemandSizingMission.fs5 testSizingMission)) "T/A";
  let T_A := Config.T_A c in
  let substitutions : gmap VarKey value :=
    <[key k5 := T_A]> (<[key k3 := T_A]> (<[key k2 := T_A]> (<[key k0 := T_A]> ∅))) in

  testTypicalMission ← OnDemandTypicalMission.setup testAircraft
    (Some (Config.typical_mission_range c)) (Some (Config.V_cruise c))
    (Some (Config.typical_N_passengers c)) (Some (Config.typical_time_in_hover c))
    (Some (Config.cost_per_weight c)) (Some (Config.pilot_salary c))
    (Some (Config.mechanic_salary c));

  cost ← getitem (OnDemandTypicalMission.model testTypicalMission) "cost_per_trip";
  let problem := MkModel "" [] []
    [ISub (SimpleOnDemandAircraft.model testAircraft);
     ISub (OnDemandSizingMission.model testSizingMission);
     ISub (OnDemandTypicalMission.model testTypicalMission)] in
  ret (mkStudy testAircraft testSizingMission substitutions testTypicalMission
         cost problem).

(** Running a build from the empty naming state. *)
Definition run {A} (chk : bool) (m : Build A) : error + A :=
  match m (init chk) with
  | inl e => inl e
  | inr (a, _) => inr a
  end.

(** ** Flattening *)

(** The constraints a model states itself: those of its list and of the plain
    lists nested in it, not those of its sub-models. *)
Fixpoint own_item (i : Item) : list constraint :=
  match i with
  | ICon c => [c]
  | ISub _ => []
  | IList l =>
      (fix go (l : list Item) : list constraint :=
         match l with
         | [] => []
         | i :: l' => own_item i ++ go l'
         end) l
  end.

Definition own_constraints (m : Model) : list constraint :=
  flat_map own_item (m_items m).

(** The child models, in the order they stand in the list. *)
Fixpoint children_item (i : Item) : list Model :=
  match i with
  | ICon _ => []
  | ISub m => [m]
  | IList l =>
      (fix go (l : list Item) : list Model :=
         match l with
         | [] => []
         | i :: l' => children_item i ++ go l'
         end) l
  end.

Definition children (m : Model) : list Model :=
  flat_map children_item (m_items m).

(** Modelled from the spec: the composer is not in src. Section 4.2: a
    parent's constraint list is the concatenation of its own constraints with
    the flattened constraint lists of every child, in child-declaration
    order. [flatten_unfold] below states the equation in these words. *)
Fixpoint flatten (m : Model) : list constraint :=
  match m with
  | MkModel _ _ _ its =>
      flat_map own_item its ++
      (fix kids (l : list Item) : list constraint :=
         match l with
         | [] => []
         | i :: l' => flatten_kids i ++ kids l'
         end) its
  end
with flatten_kids (i : Item) : list constraint :=
  match i with
  | ICon _ => []
  | ISub m => flatten m
  | IList l =>
      (fix kids (l : list Item) : list constraint :=
         match l with
         | [] => []
         | i :: l' => flatten_kids i ++ kids l'
         end) l
  end.

(** The constraints in the order in which the nested lists of the source hold
    them: a walk through the list a [setup] returned. *)
Fixpoint walk (m : Model) : list constraint :=
  match m with
  | MkModel _ _ _ its =>
      (fix go (l : list Item) : list constraint :=
         match l with
         | [] => []
         | i :: l' => walk_item i ++ go l'
         end) its
  end
with walk_item (i : Item) : list constraint :=
  match i with
  | ICon c => [c]
  | ISub m => walk m
  | IList l =>
      (fix go (l : list Item) : list constraint :=
         match l with
         | [] => []
         | i :: l' => walk_item i ++ go l'
         end) l
  end.

(** [Model(cost, [a, b, ...])]: a model without [setup] that holds the given
    models (line 449). *)
Definition compose_models (ms : list Model) : Model := MkModel "" [] [] (map ISub ms).

(** The flattened set: every variable and every constraint of the tree. *)
Record Flat : Type := mkFlat {
  fl_vars : list Var;
  fl_constraints : list constraint
}.

Definition flat_of (m : Model) : Flat :=
  {| fl_vars := flat_map m_vars (nodes m); fl_constraints := flatten m |}.

(** The qualified names of all variables owned in the tree. *)
Definition qualified_names (m : Model) : list VarKey :=
  map key (flat_map m_vars (nodes m)).

(** ** Substitution *)

Definition lookup_var (k : VarKey) (cs : Flat) : option Var :=
  find (fun x => bool_decide (key x = k)) (fl_vars cs).

(** A substitution target must be in the flattened set and free. *)
Definition valid_target (cs : Flat) (k : VarKey) : bool :=
  match lookup_var k cs with
  | Some x => match val x with None => true | Some _ => false end
  | None => false
  end.

Definition pin (k : VarKey) (v : value) (cs : Flat) : Flat :=
  {| fl_vars := map (fun x => if bool_decide (key x = k)
                              then mkVar (key x) (Some v) (unit x) (descr x)
                              else x) (fl_vars cs);
     fl_constraints := fl_constraints cs |}.

(** The adapter works on the constraint set that its caller holds. A step
    gives its result and the set as the step leaves it: a step that fails
    leaves a set behind like one that succeeds. *)
Definition Adapter (A : Type) : Type := Flat -> (error + A) * Flat.

(** The assertion on one entry: its target is in the set and free. *)
Definition check_target (entry : VarKey * value) : Adapter Datatypes.unit :=
  fun cs =>
    if valid_target cs (fst entry) then (inr tt, cs)
    else (inl SubstitutionTargetError, cs).

Definition pin_target (entry : VarKey * value) : Adapter Datatypes.unit :=
  fun cs => (inr tt, pin (fst entry) (snd entry) cs).

Definition and_then (a b : Adapter Datatypes.unit) : Adapter Datatypes.unit :=
  fun cs =>
    match a cs with
    | (inr _, cs') => b cs'
    | (inl e, cs') => (inl e, cs')
    end.

Fixpoint for_each (step : VarKey * value -> Adapter Datatypes.unit)
    (entries : list (VarKey * value)) : Adapter Datatypes.unit :=
  match entries with
  | [] => fun cs => (inr tt, cs)
  | e :: es => and_then (step e) (for_each step es)
  end.

(** Modelled from the spec: the solver adapter is not in src. Section 4.5:
    for each entry of the table the adapter asserts that the target exists in
    the flattened set and is free as built, and fails with
    [SubstitutionTargetError] otherwise; the entries of a table that passed
    are then pinned, one after the other. *)
Definition apply_substitutions (cs : Flat) (table : gmap VarKey value)
    : (error + Datatypes.unit) * Flat :=
  and_then (for_each check_target (map_to_list table))
           (for_each pin_target (map_to_list table)) cs.

(** The set after the entries were pinned in turn. *)
Definition pin_all (entries : list (VarKey * value)) (cs : Flat) : Flat :=
  fold_left (fun c e => pin (fst e) (snd e) c) entries cs.

(** ** Meaning of constraints *)

Definition valuation : Type := VarKey -> Q.

Section Semantics.
(** Powers with fractional exponents and [math.pi] have no rational value:
    their interpretation is left open. *)
Variable fpow : Q -> Q -> Q.
Variable pi : Q.

Fixpoint eval (rho : valuation) (e : expr) : Q :=
  match e with
  | EVar k => rho k
  | ENum q => q
  | EPi => pi
  | EAdd a b => eval rho a + eval rho b
  | EMul a b => eval rho a * eval rho b
  | EDiv a b => eval rho a / eval rho b
  | EPow a x => fpow (eval rho a) x
  end.

Definition holds (rho : valuation) (c : constraint) : Prop :=
  match c with
  | CEq l r => eval rho l == eval rho r
  | CGe l r => eval rho r <= eval rho l
  | CLe l r => eval rho l <= eval rho r
  end.

Definition holdsb (rho : valuation) (c : constraint) : bool :=
  match c with
  | CEq l r => Qeq_bool (eval rho l) (eval rho r)
  | CGe l r => Qle_bool (eval rho r) (eval rho l)
  | CLe l r => Qle_bool (eval rho l) (eval rho r)
  end.

(** A valuation is feasible for a list of constraints when all hold. *)
Definition feasible (rho : valuation) (cs : list constraint) : Prop :=
  Forall (holds rho) cs.
End Semantics.

(** ** Decidable equality *)

#[global] Instance Q_eq_dec : EqDecision Q.
Proof. solve_decision. Defined.

#[global] Instance value_eq_dec : EqDecision value.
Proof. solve_decision. Defined.

#[global] Instance Var_eq_dec : EqDecision Var.
Proof. solve_decision. Defined.

#[global] Instance expr_eq_dec : EqDecision expr.
Proof. solve_decision. Defined.

#[global] Instance constraint_eq_dec : EqDecision constraint.
Proof. solve_decision. Defined.

#[global] Instance error_eq_dec : EqDecision error.
Proof. solve_decision. Defined.

#[global] Instance Flat_eq_dec : EqDecision Flat.
Proof. solve_decision. Defined.

(** ** Reading a built model *)

(** The build succeeded and its result satisfies [P]. *)
Inductive built {A} : error + A -> (A -> Prop) -> Prop :=
| built_ok (a : A) (P : A -> Prop) : P a -> built (inr a) P.

(** The qualified names an expression or a constraint mentions. *)
Fixpoint expr_keys (e : expr) : list VarKey :=
  match e with
  | EVar k => [k]
  | ENum _ | EPi => []
  | EAdd a b | EMul a b | EDiv a b => expr_keys a ++ expr_keys b
  | EPow a _ => expr_keys a
  end.

Definition constraint_keys (c : constraint) : list VarKey :=
  match c with
  | CEq l r | CGe l r | CLe l r => expr_keys l ++ expr_keys r
  end.

(** A reserve requirement is a constraint on one of the two variables the
    reserve policy declares, the loiter time or the diversion distance. *)
Definition is_reserve (c : constraint) : bool :=
  existsb (fun k => (snd k =? "t_{loiter}")%string || (snd k =? "R_{divert}")%string)
          (constraint_keys c).

Definition reserve_requirements (m : Model) : list constraint :=
  List.filter is_reserve (flatten m).

(** The variable of a model with a given symbol, if it declares one. *)
Definition var_of (m : Model) (symbol : string) : option Var :=
  find (fun x => (sym x =? symbol)%string) (m_vars m).

Definition set_reserve_type (c : Config.t) (r : string) : Config.t :=
  Config.mk (Config.N c) (Config.T_A c) (Config.L_D c) (Config.eta_cruise c)
    (Config.eta_electric c) (Config.weight_fraction c) (Config.C_m c)
    (Config.N_crew c) (Config.n c) r (Config.V_cruise c) (Config.V_loiter c)
    (Config.sizing_mission_range c) (Config.typical_mission_range c)
    (Config.sizing_time_in_hover c) (Config.typical_time_in_hover c)
    (Config.sizing_N_passengers c) (Config.typical_N_passengers c)
    (Config.cost_per_weight c) (Config.pilot_salary c) (Config.mechanic_salary c).

(** The variable of a model with a given symbol; a free variable of that name
    stands in when the model declares none. *)
Definition get (m : Model) (symbol : string) : Var :=
  default (mkVar (m_naming m, symbol) None "" "") (var_of m symbol).

(** The sum [s0.E + s1.E + ...] over flight segments, as the source writes
    it. *)
Definition energy_sum (segs : list Segment) : expr :=
  match map (fun s => var_expr (E s)) segs with
  | [] => ENum 0
  | e :: l => chain_sum e l
  end.

(** The energy budget of a mission: capacity on the left, the sum on the
    right. *)
Definition budget (capacity : Var) (segs : list Segment) : constraint :=
  CGe capacity (energy_sum segs).

(** The sub-models of a given class. *)
Definition instances (tag : string) (m : Model) : list Model :=
  List.filter (fun x => (m_name x =? tag)%string) (nodes m).

(** The number of instances of a model type made so far. *)
Definition count (s : BuildState) (tag : string) : nat :=
  default 0%nat (MODELNUM_LOOKUP s !! tag).

(** The path the next instance of [tag] is given. *)
Definition next_path (s : BuildState) (tag : string) : Path :=
  current_path s ++ [(tag, count s tag)].

(** The naming state is well formed: no instance path was handed out twice,
    every number in use lies below the counter of its tag, and in a checked
    build no model under construction holds a symbol twice. *)
Record wf (s : BuildState) : Prop := mkWf {
  wf_nodup : NoDup (issued s);
  wf_issued : forall p t k, p ∈ issued s -> (t, k) ∈ p -> (k < count s t)%nat;
  wf_frames : forall f, f ∈ MODELS s -> (f_num f < count s (f_tag f))%nat;
  wf_symbols : checked s = true ->
               forall f, f ∈ MODELS s -> NoDup (map sym (f_vars f))
}.

(** A computation keeps the naming state well formed and leaves the
    [checked] switch alone. *)
Definition stable {A} (m : Build A) : Prop :=
  forall s a s', wf s -> m s = inr (a, s') -> wf s' /\ checked s' = checked s.

(** ** Vocabulary of the statements *)

#[global] Instance built_dec {A} (r : error + A) (P : A -> Prop)
  `{forall a, Decision (P a)} : Decision (built r P).
Proof.
  destruct r as [e|a].
  - right. intros Hb. inversion Hb.
  - destruct (decide (P a)) as [HP|HP].
    + left. now constructor.
    + right. intros Hb. apply HP. now inversion Hb.
Defined.

(** What the script makes of the reserve-policy flag: the two [if]
    statements of lines 309-314 tell "FAA", "Uber" and everything else
    apart. *)
Definition policy (r : string) : string :=
  if (r =? "FAA")%string then "FAA"
  else if (r =? "Uber")%string then "Uber"
  else "".

(** The reserve requirements of the sizing mission under the two policies
    that the source knows. *)
Definition loiter_requirement (sm : OnDemandSizingMission.obj) : constraint :=
  CEq (get (OnDemandSizingMission.model sm) "t_{loiter}")
      (get (seg_model (OnDemandSizingMission.fs4 sm)) "t").

Definition diversion_requirement (sm : OnDemandSizingMission.obj) : constraint :=
  CEq (get (OnDemandSizingMission.model sm) "R_{divert}")
      (get (seg_model (OnDemandSizingMission.fs4 sm)) "segment_range").

(** The constraints that bound an expression by the variable [x] from above:
    [x >= ...]. *)
Definition bounded_by (x : Var) (c : constraint) : bool :=
  match c with
  | CGe (EVar k) _ => bool_decide (k = key x)
  | _ => false
  end.

(** The flight segments a mission holds, in the order it holds them. *)
Definition flight_segments (m : Model) : list Model :=
  List.filter (fun x => (m_name x =? "Hover")%string || (m_name x =? "LevelFlight")%string)
              (children m).


(** The total energy of a list of segments under a valuation. *)
Definition total_energy (rho : valuation) (segs : list Segment) : Q :=
  fold_right Qplus 0 (map (fun s => rho (key (E s))) segs).

(** The battery performance model that a flight segment instantiates. *)
Definition batteryPerf_of (seg : Segment) : Model :=
  hd (seg_model seg) (instances "BatteryPerformance" (seg_model seg)).

(** The power bound of one battery performance model. *)
Definition power_bound (P_max : Var) (bp : Model) : constraint :=
  CLe (get bp "P") P_max.

(** The constraint by which a segment draws its battery power from its
    battery performance model. *)
Definition power_draw (seg : Segment) : constraint :=
  CEq (get (seg_model seg) "P_{battery}") (get (batteryPerf_of seg) "P").

Definition all_segments (st : Study) : list Segment :=
  OnDemandSizingMission.segments (testSizingMission st)
  ++ OnDemandTypicalMission.segments (testTypicalMission st).

Definition component_weights (ac : SimpleOnDemandAircraft.obj) : list Var :=
  map (fun m => get m "W") (SimpleOnDemandAircraft.components ac).

(** A valuation for the examples: the usable energy fraction at its value,
    everything else at zero. *)
Definition rho0 : valuation :=
  fun k => if (snd k =? "usable_energy_fraction")%string then 0.8 else 0.

Definition fpow0 : Q -> Q -> Q := fun _ _ => 0.

(** Two segments to permute. *)
Definition seg_a : Segment :=
  mkSegment (MkModel "Hover" [("Hover", 0%nat)] [] [])
            (mkVar ([("Hover", 0%nat)], "E") None "kWh" "").

Definition seg_b : Segment :=
  mkSegment (MkModel "LevelFlight" [("LevelFlight", 0%nat)] [] [])
            (mkVar ([("LevelFlight", 0%nat)], "E") None "kWh" "").

Definition W_rotors0 : Var := mkVar ([("Rotors", 0%nat)], "W") (Some (Num 0)) "lbf" "".

Definition W_crew0 : Var := mkVar ([("Crew", 0%nat)], "W") None "lbf" "".

(** A small flattened set: a free radius and the rotor weight fixed at 0. *)
Definition R0 : Var := mkVar ([("Rotors", 0%nat)], "R") None "ft" "".

Definition cs0 : Flat :=
  {| fl_vars := [R0; W_rotors0]; fl_constraints := [(W_rotors0 == W_rotors0)%gp] |}.

Definition table0 : gmap VarKey value :=
  <[key W_rotors0 := Num 5]> (<[key R0 := Num 3]> ∅).

(** ** Induction on models *)

Section Model_induction.
Variable PM : Model -> Prop.
Variable PI : Item -> Prop.
Hypothesis H_model : forall n p v its, Forall PI its -> PM (MkModel n p v its).
Hypothesis H_con : forall c, PI (ICon c).
Hypothesis H_sub : forall m, PM m -> PI (ISub m).
Hypothesis H_list : forall l, Forall PI l -> PI (IList l).

Fixpoint Model_items_ind (m : Model) : PM m :=
  match m with
  | MkModel n p v its =>
      H_model n p v its
        ((fix go (l : list Item) : Forall PI l :=
            match l with
            | [] => @List.Forall_nil Item PI
            | i :: l' => @List.Forall_cons Item PI i l' (Item_models_ind i) (go l')
            end) its)
  end
with Item_models_ind (i : Item) : PI i :=
  match i with
  | ICon c => H_con c
  | ISub m => H_sub m (Model_items_ind m)
  | IList l =>
      H_list l
        ((fix go (l : list Item) : Forall PI l :=
            match l with
            | [] => @List.Forall_nil Item PI
            | i :: l' => @List.Forall_cons Item PI i l' (Item_models_ind i) (go l')
            end) l)
  end.
End Model_induction.

(** ** Vocabulary of the further properties *)

(** The rotor performance model and the power system performance model that
    a flight segment instantiates. *)
Definition rotorPerf_of (seg : Segment) : Model :=
  hd (seg_model seg) (instances "RotorsAero" (seg_model seg)).

Definition powerSystemPerf_of (seg : Segment) : Model :=
  hd (seg_model seg) (instances "PowerSystemPerformance" (seg_model seg)).

(** The hover segments and the level-flight segments of the two missions,
    each with the weight variable of its mission. *)
Definition hover_segments (st : Study) : list (Var * Segment) :=
  let sm := testSizingMission st in
  let tm := testTypicalMission st in
  [(OnDemandSizingMission.W sm, OnDemandSizingMission.fs0 sm);
   (OnDemandSizingMission.W sm, OnDemandSizingMission.fs2 sm);
   (OnDemandSizingMission.W sm, OnDemandSizingMission.fs3 sm);
   (OnDemandSizingMission.W sm, OnDemandSizingMission.fs5 sm);
   (OnDemandTypicalMission.W tm, OnDemandTypicalMission.fs0 tm);
   (OnDemandTypicalMission.W tm, OnDemandTypicalMission.fs2 tm)].

Definition level_segments (st : Study) : list (Var * Segment) :=
  let sm := testSizingMission st in
  let tm := testTypicalMission st in
  [(OnDemandSizingMission.W sm, OnDemandSizingMission.fs1 sm);
   (OnDemandSizingMission.W sm, OnDemandSizingMission.fs4 sm);
   (OnDemandTypicalMission.W tm, OnDemandTypicalMission.fs1 tm)].

(** The list that [Hover.setup] returns, without the three sub-models
    (lines 238-244). *)
Definition hover_constraints (W : Var) (seg : Segment) : list constraint :=
  let h := seg_model seg in
  let r := rotorPerf_of seg in
  let b := batteryPerf_of seg in
  let p := powerSystemPerf_of seg in
  [(get h "P_{rotors}" == get r "P")%gp; (get h "T" == get r "T")%gp;
   (get h "T/A" == get r "T/A")%gp;
   (get h "P_{battery}" == get p "P_{in}")%gp;
   (get h "P_{rotors}" == get p "P_{out}")%gp;
   (get h "E" == get b "E")%gp; (get h "P_{battery}" == get b "P")%gp;
   (get h "t" == get b "t")%gp;
   (get h "T" == W)%gp].

(** The list that [LevelFlight.setup] returns, without the two sub-models
    (lines 270-274). *)
Definition level_constraints (L_D eta_cruise W : Var) (seg : Segment)
    : list constraint :=
  let l := seg_model seg in
  let b := batteryPerf_of seg in
  let p := powerSystemPerf_of seg in
  [(get l "E" == get b "E")%gp; (get l "P_{battery}" == get b "P")%gp;
   (get l "t" == get b "t")%gp;
   (get l "P_{battery}" == get p "P_{in}")%gp;
   (get l "P_{cruise}" == get p "P_{out}")%gp;
   (get l "segment_range" == get l "V" * get l "t")%gp;
   (eta_cruise * get l "P_{cruise}" == get l "T" * get l "V")%gp;
   (get l "T" == get l "D")%gp;
   (W == L_D * get l "D")%gp].

(** The list that [PowerSystemPerformance.setup] returns (line 206). *)
Definition powerSystemPerf_constraints (eta : Var) (p : Model) : list constraint :=
  [(get p "P_{out}" == eta * get p "P_{in}")%gp].

(** The list that [BatteryPerformance.setup] returns for the discharge
    parameter [n] (line 166). *)
Definition batteryPerf_constraints (n : Q) (P_max : Var) (b : Model)
    : list constraint :=
  [(get b "E" == get b "P" * get b "Rt" * ((get b "t" / get b "Rt") ** (1 / n)))%gp;
   (get b "P" <= P_max)%gp].

(** The cruise segment of each mission with the mission it belongs to. *)
Definition cruise_segments (st : Study) : list (Model * Segment) :=
  [(OnDemandSizingMission.model (testSizingMission st),
    OnDemandSizingMission.fs1 (testSizingMission st));
   (OnDemandTypicalMission.model (testTypicalMission st),
    OnDemandTypicalMission.fs1 (testTypicalMission st))].

(** The economic constraints of the typical mission (lines 387-400), over
    the variables of the mission [m], its passengers [p], its three segments
    and the take-off weight of the aircraft. *)
Definition cost_constraints (m p : Model) (MTOW : Var) (fs0 fs1 fs2 : Segment)
    : list constraint :=
  [(get m "cost_per_trip"
    == get m "cost_per_trip_per_passenger" * get p "N_{passengers}")%gp;
   (get m "cost_per_trip"
    >= get m "c_{vehicle}" + get m "c_{energy}" + get m "c_{pilot}"
       + get m "c_{maintenance}")%gp;
   (get m "c_{vehicle}"
    == get m "purchase_price" * get m "t_{mission}" / get m "vehicle_life")%gp;
   (get m "t_{mission}"
    >= get (seg_model fs0) "t" + get (seg_model fs1) "t" + get (seg_model fs2) "t")%gp;
   (get m "purchase_price" == get m "cost_per_weight" * MTOW)%gp;
   (get m "c_{energy}" == get m "E_{mission}" * get m "cost_per_energy")%gp;
   (get m "E_{mission}" >= E fs0 + E fs1 + E fs2)%gp;
   (get m "c_{pilot}" == get m "pilot_salary" * get m "t_{mission}")%gp;
   (get m "c_{maintenance}"
    == get m "overhaul_cost" * get m "t_{mission}" / get m "time_between_overhauls")%gp;
   (get m "overhaul_cost"
    == get m "N_{mechanics}" * get m "overhaul_time" * get m "mechanic_salary")%gp].

(** The weight constraints of a mission [m] with passengers [p] on the
    aircraft [a] (lines 305-306, 184, 35, 175, 43, 155 and 32). *)
Definition weight_constraints (ac : SimpleOnDemandAircraft.obj) (m p : Model)
    : list constraint :=
  let a := SimpleOnDemandAircraft.model ac in
  let b := Battery.model (SimpleOnDemandAircraft.battery ac) in
  let cr := SimpleOnDemandAircraft.crew ac in
  let s := SimpleOnDemandAircraft.structure ac in
  [(get m "W_{mission}" >= get a "W_{noPassengers}" + get p "W")%gp;
   (get a "MTOW" >= get m "W_{mission}")%gp;
   (get p "W" == get p "N_{passengers}" * get p "W_{onePassenger}")%gp;
   (get a "W_{noPassengers}" >= py_sum (map var_expr (component_weights ac)))%gp;
   (get cr "W" == get cr "N_{crew}" * get cr "W_{oneCrew}")%gp;
   (get s "W" == get s "weight_fraction" * get a "MTOW")%gp;
   (get b "W" == get b "m" * get b "g")%gp;
   (get a "g" == get b "g")%gp].

Definition set_n (c : Config.t) (n : Q) : Config.t :=
  Config.mk (Config.N c) (Config.T_A c) (Config.L_D c) (Config.eta_cruise c)
    (Config.eta_electric c) (Config.weight_fraction c) (Config.C_m c)
    (Config.N_crew c) n (Config.reserve_type c) (Config.V_cruise c)
    (Config.V_loiter c) (Config.sizing_mission_range c)
    (Config.typical_mission_range c) (Config.sizing_time_in_hover c)
    (Config.typical_time_in_hover c) (Config.sizing_N_passengers c)
    (Config.typical_N_passengers c) (Config.cost_per_weight c)
    (Config.pilot_salary c) (Config.mechanic_salary c).

(** The flight state that the rotor model of a hover segment reads. *)
Definition flightState_of (seg : Segment) : Model :=
  hd (seg_model seg) (instances "FlightState" (seg_model seg)).

(** The limits and the performance model that [RotorsAero.setup] states
    for the rotor model [r] of the rotors [rotors] in the flight state
    [state] (lines 118-128). *)
Definition rotor_limits (rotors state r : Model) : list constraint :=
  [(get r "VT" == get rotors "R" * get r "\omega")%gp;
   (get r "VT" == get r "MT" * get state "a")%gp;
   (get r "MT" <= get r "MT_max")%gp;
   (get r "CL_mean" == ENum 3 * get r "CT" / get rotors "s")%gp;
   (get r "CL_mean" <= get r "CL_mean_max")%gp;
   (get r "p_{ratio}" <= get r "p_{ratio_max}")%gp].

(** The power coefficients as [RotorsAero.setup] relates them (lines
    112-115); [CPp] is the variable that line 80 binds to that name. *)
Definition power_coefficients (rotors r : Model) (CPp : Var) : list constraint :=
  [(get r "CPi" == ENum 0.5 * get r "CT" ** 1.5)%gp;
   (CPp == ENum 0.25 * get rotors "s" * get r "Cd0")%gp;
   (get r "CP" >= get r "ki" * get r "CPi" + CPp)%gp;
   (get r "FOM" == get r "CPi" / get r "CP")%gp].

(** The hover segments of each mission, with the mission. *)
Definition mission_hovers (st : Study) : list (Model * list Segment) :=
  let sm := testSizingMission st in
  let tm := testTypicalMission st in
  [(OnDemandSizingMission.model sm,
    [OnDemandSizingMission.fs0 sm; OnDemandSizingMission.fs2 sm;
     OnDemandSizingMission.fs3 sm; OnDemandSizingMission.fs5 sm]);
   (OnDemandTypicalMission.model tm,
    [OnDemandTypicalMission.fs0 tm; OnDemandTypicalMission.fs2 tm])].

(** The number of times a constraint stands in a list. *)
Definition occurrences (c : constraint) (l : list constraint) : nat :=
  length (List.filter (fun x => bool_decide (x = c)) l).

(** A second valuation for the examples, with powers read as the identity:
    one rotor of unit radius and area, the hour rating, the tip Mach limit
    and the induced power factor at their values, everything else at zero. *)
Definition rho1 : valuation :=
  fun k =>
    let tag := default "" (fst <$> last (fst k)) in
    let s := snd k in
    if (tag =? "Rotors")%string then
      if (s =? "D")%string then 2
      else if bool_decide (s ∈ ["R"; "A"; "A_{total}"; "N"]) then 1 else 0
    else if (tag =? "BatteryPerformance")%string then
      if (s =? "Rt")%string then 1 else 0
    else if (tag =? "RotorsAero")%string then
      if (s =? "MT_max")%string then 0.9
      else if (s =? "ki")%string then 1.1 else 0
    else if (tag =? "Battery")%string then
      if (s =? "usable_energy_fraction")%string then 0.8 else 0
    else 0.

Definition fpow1 : Q -> Q -> Q := fun x _ => x.

(** ** The report of the script *)

(** What Python raises in the report: a name read before it is bound. *)
Inductive report_error : Type :=
  | NameError (name : string).

(** Lines 457-462: the text for the reserve policy. [loiter] and [divert]
    are the formatted numbers that the two branches read from the solution.
    The name is bound by the branches only. *)
Definition reserve_type_string (reserve_type loiter divert : string) : option string :=
  let bound : option string := None in
  let bound :=
    if (reserve_type =? "FAA")%string
    then Some (" (" +:+ loiter +:+ "-minute loiter time)") else bound in
  let bound :=
    if (reserve_type =? "Uber")%string
    then Some (" (" +:+ divert +:+ "-nm diversion distance)") else bound in
  bound.

(** Line 479: the line of the report that names the reserve policy. *)
Definition reserve_line (reserve_type loiter divert : string)
    : report_error + string :=
  match reserve_type_string reserve_type loiter divert with
  | Some s => inr ("Reserve type: " +:+ reserve_type +:+ s)
  | None => inl (NameError "reserve_type_string")
  end.

(** A constraint that equates an expression with itself. *)
Definition is_self_equality (c : constraint) : bool :=
  match c with
  | CEq l r => bool_decide (l = r)
  | _ => false
  end.


(** The models of a list, each instance path once: a model that stands at
    several places of the tree is one instance. *)
Fixpoint each_once (seen : list Path) (ms : list Model) : list Model :=
  match ms with
  | [] => []
  | m :: ms' =>
      if bool_decide (m_naming m ∈ seen) then each_once seen ms'
      else m :: each_once (m_naming m :: seen) ms'
  end.

(** The qualified names of the variables that a list of models own. *)
Definition owned_names (ms : list Model) : list VarKey :=
  flat_map (fun m => map key (m_vars m)) ms.

(** The model types of a tree. *)
Definition model_types (m : Model) : list string :=
  remove_dups (map m_name (nodes m)).

(** The claim of pairwise distinct qualified names, for one model type of a
    tree. *)
Definition names_distinct (tree : Model) (tag : string) : Prop :=
  NoDup (owned_names (each_once [] (instances tag tree))).

(** The two constraints of [RotorsAero.setup] that relate the thrust to the
    rotor system (lines 105 and 109). *)
Definition thrust_split (rotors r : Model) : constraint :=
  (get r "T" == get rotors "N" * get r "T_perRotor")%gp.

Definition rotor_disk_loading (rotors r : Model) : constraint :=
  (get r "T/A" == get r "T" / get rotors "A_{total}")%gp.

(** The three constraints by which a flight segment reads its battery
    performance model (lines 242-243 and 270-271). *)
Definition battery_draw (seg : Segment) : list constraint :=
  let s := seg_model seg in
  let b := batteryPerf_of seg in
  [(get s "E" == get b "E")%gp; (get s "P_{battery}" == get b "P")%gp;
   (get s "t" == get b "t")%gp].

(** The models that state the constraints of [weight_constraints], in the
    same order. *)
Definition weight_owners (ac : SimpleOnDemandAircraft.obj) (m p : Model)
    : list Model :=
  let a := SimpleOnDemandAircraft.model ac in
  [m; m; p; a; SimpleOnDemandAircraft.crew ac; SimpleOnDemandAircraft.structure ac;
   Battery.model (SimpleOnDemandAircraft.battery ac); a].

(** The capacity constraints of the battery, the aircraft and the two
    missions (lines 155, 34, 317 and 382). *)
Definition capacity_constraints (st : Study) : list constraint :=
  let ac := testAircraft st in
  let b := Battery.model (SimpleOnDemandAircraft.battery ac) in
  let C_eff := SimpleOnDemandAircraft.C_eff ac in
  [(get b "C" == get b "m" * get b "C_m")%gp;
   (get b "C_{eff}" == get b "usable_energy_fraction" * get b "C")%gp;
   (C_eff == get b "C_{eff}")%gp;
   budget C_eff (OnDemandSizingMission.segments (testSizingMission st));
   budget C_eff (OnDemandTypicalMission.segments (testTypicalMission st))].

Definition capacity_owners (st : Study) : list Model :=
  let ac := testAircraft st in
  let b := Battery.model (SimpleOnDemandAircraft.battery ac) in
  [b; b; SimpleOnDemandAircraft.model ac;
   OnDemandSizingMission.model (testSizingMission st);
   OnDemandTypicalMission.model (testTypicalMission st)].

(** The constraint by which a mission takes the sound pressure ratio of its
    take-off hover, and the noise limit of a rotor model (lines 320, 384 and
    128). *)
Definition mission_noise (m r0 : Model) : constraint :=
  (get m "p_{ratio}" == get r0 "p_{ratio}")%gp.

Definition noise_limit (r : Model) : constraint :=
  (get r "p_{ratio}" <= get r "p_{ratio_max}")%gp.

(** The range of a level-flight segment (line 274) and the constraint by
    which a mission takes the range of its cruise segment (lines 316 and
    381). *)
Definition segment_range (l : Model) : constraint :=
  (get l "segment_range" == get l "V" * get l "t")%gp.

Definition mission_range (m l : Model) : constraint :=
  (get m "mission_range" == get l "segment_range")%gp.

(** A third valuation for the examples, by model type and symbol: an
    aircraft of 1200 lbf with twelve rotors, hovering at 200 kW and cruising
    at 10 mph for 6 s per segment. Powers are read as the identity. *)
Definition table2 : list (string * list (string * Q)) :=
  [("SimpleOnDemandAircraft",
    [("MTOW", 1200); ("W_{noPassengers}", 800); ("C_{eff}", 8000); ("g", 2);
     ("L_D", 240); ("\eta", 0.5)]);
   ("Rotors", [("N", 12); ("A_{total}", 12)]);
   ("Battery",
    [("g", 2); ("C", 10000); ("C_{eff}", 8000); ("usable_energy_fraction", 0.8);
     ("W", 200); ("m", 100); ("C_m", 100); ("P_m", 3); ("P_{max}", 300)]);
   ("Crew", [("W_{oneCrew}", 190); ("N_{crew}", 1); ("W", 190)]);
   ("SimpleOnDemandStructure", [("W", 300); ("weight_fraction", 0.25)]);
   ("PowerSystem", [("eta", 0.5)]);
   ("Passengers", [("W_{onePassenger}", 200); ("N_{passengers}", 1); ("W", 200)]);
   ("FlightState", [("a", 1000)]);
   ("RotorsAero",
    [("T", 1200); ("T_perRotor", 100); ("T/A", 100); ("P", 100); ("VT", 500);
     ("MT", 0.5); ("MT_max", 0.9); ("p_{ratio}", 10); ("p_{ratio_max}", 100000)]);
   ("BatteryPerformance", [("E", 1200); ("P", 200); ("t", 6); ("Rt", 2)]);
   ("PowerSystemPerformance", [("P_{in}", 200); ("P_{out}", 100)]);
   ("Hover",
    [("E", 1200); ("P_{battery}", 200); ("P_{rotors}", 100); ("T", 1200);
     ("T/A", 100); ("t", 6)]);
   ("LevelFlight",
    [("E", 1200); ("P_{battery}", 200); ("P_{cruise}", 100); ("T", 5); ("D", 5);
     ("t", 6); ("segment_range", 60); ("V", 10)]);
   ("OnDemandSizingMission",
    [("W_{mission}", 1200); ("mission_range", 60); ("p_{ratio}", 10);
     ("t_{loiter}", 6); ("R_{divert}", 60)]);
   ("OnDemandTypicalMission",
    [("W_{mission}", 1200); ("mission_range", 60); ("p_{ratio}", 10);
     ("cost_per_trip", 3000); ("cost_per_trip_per_passenger", 3000);
     ("c_{vehicle}", 2400); ("t_{mission}", 20); ("vehicle_life", 10);
     ("cost_per_weight", 1); ("purchase_price", 1200); ("c_{energy}", 400);
     ("cost_per_energy", 0.1); ("E_{mission}", 4000); ("c_{pilot}", 40);
     ("pilot_salary", 2); ("c_{maintenance}", 8); ("overhaul_cost", 20);
     ("overhaul_time", 2); ("N_{mechanics}", 2); ("time_between_overhauls", 50);
     ("mechanic_salary", 5)])].

Definition assoc {A} (k : string) (l : list (string * A)) : option A :=
  snd <$> find (fun e => (fst e =? k)%string) l.

Definition rho2 : valuation :=
  fun k =>
    let tag := default "" (fst <$> last (fst k)) in
    default 0 (assoc tag table2 ≫= assoc (snd k)).

(** The tip speed constraints of a rotor model in a flight state (lines
    119-120). *)
Definition tip_speed_limits (state r : Model) : list constraint :=
  [(get r "VT" == get r "MT" * get state "a")%gp;
   (get r "MT" <= get r "MT_max")%gp].

(** * Properties *)

(** ** Flattening *)

Lemma own_item_list (l : list Item) : own_item (IList l) = flat_map own_item l.
Proof.
  induction l as [|i l IH]; [reflexivity|].
  change (own_item (IList (i :: l))) with (own_item i ++ own_item (IList l)).
  now rewrite IH.
Qed.

Lemma children_item_list (l : list Item) :
  children_item (IList l) = flat_map children_item l.
Proof.
  induction l as [|i l IH]; [reflexivity|].
  change (children_item (IList (i :: l)))
    with (children_item i ++ children_item (IList l)).
  now rewrite IH.
Qed.

Lemma flatten_kids_list (l : list Item) :
  flatten_kids (IList l) = flat_map flatten_kids l.
Proof.
  induction l as [|i l IH]; [reflexivity|].
  change (flatten_kids (IList (i :: l)))
    with (flatten_kids i ++ flatten_kids (IList l)).
  now rewrite IH.
Qed.

Lemma walk_item_list (l : list Item) : walk_item (IList l) = flat_map walk_item l.
Proof.
  induction l as [|i l IH]; [reflexivity|].
  change (walk_item (IList (i :: l))) with (walk_item i ++ walk_item (IList l)).
  now rewrite IH.
Qed.

Lemma flatten_items n p v its :
  flatten (MkModel n p v its) = flat_map own_item its ++ flat_map flatten_kids its.
Proof.
  change (flatten (MkModel n p v its))
    with (flat_map own_item its ++ flatten_kids (IList its)).
  now rewrite flatten_kids_list.
Qed.

Lemma walk_items n p v its : walk (MkModel n p v its) = flat_map walk_item its.
Proof.
  change (walk (MkModel n p v its)) with (walk_item (IList its)).
  apply walk_item_list.
Qed.

Lemma flatten_kids_children (i : Item) :
  flatten_kids i = concat (map flatten (children_item i)).
Proof.
  induction i using Item_models_ind with (PM := fun _ => True); try exact I.
  - reflexivity.
  - simpl. now rewrite app_nil_r.
  - rewrite flatten_kids_list, children_item_list.
    induction H as [|i l Hi _ IH]; [reflexivity|].
    simpl. rewrite map_app, concat_app. now rewrite Hi, IH.
Qed.

(** The flattened list of a model is its own constraints followed by the
    flattened lists of its children, in order. *)
Lemma flatten_unfold (m : Model) :
  flatten m = own_constraints m ++ concat (map flatten (children m)).
Proof.
  destruct m as [n p v its]. rewrite flatten_items.
  unfold own_constraints, children. simpl. f_equal.
  induction its as [|i its IH]; [reflexivity|].
  simpl. rewrite map_app, concat_app, IH. now rewrite flatten_kids_children.
Qed.

Lemma own_item_subs (ms : list Model) : flat_map own_item (map ISub ms) = [].
Proof. induction ms as [|m ms IH]; [reflexivity|exact IH]. Qed.

Lemma flatten_kids_subs (ms : list Model) :
  flat_map flatten_kids (map ISub ms) = concat (map flatten ms).
Proof.
  induction ms as [|m ms IH]; [reflexivity|].
  change (flatten m ++ flat_map flatten_kids (map ISub ms)
          = flatten m ++ concat (map flatten ms)).
  now rewrite IH.
Qed.

Lemma flatten_compose (ms : list Model) :
  flatten (compose_models ms) = concat (map flatten ms).
Proof.
  transitivity (flat_map own_item (map ISub ms) ++ flat_map flatten_kids (map ISub ms)).
  { apply flatten_items. }
  now rewrite own_item_subs, flatten_kids_subs.
Qed.

(** The walk through the nested lists of the source holds the same
    constraints as the flattened list, in another order. *)
Lemma walk_flatten (m : Model) : Permutation (walk m) (flatten m).
Proof.
  induction m using Model_items_ind
    with (PI := fun i => Permutation (walk_item i) (own_item i ++ flatten_kids i)).
  - rewrite walk_items, flatten_items.
    induction H as [|i l Hi _ IH]; [constructor|].
    simpl. rewrite Hi, IH.
    rewrite <- !app_assoc. apply Permutation_app_head.
    rewrite !app_assoc. apply Permutation_app_tail. apply Permutation_app_comm.
  - reflexivity.
  - simpl. exact IHm.
  - rewrite walk_item_list, own_item_list, flatten_kids_list.
    induction H as [|i l Hi _ IH]; [constructor|].
    simpl. rewrite Hi, IH.
    rewrite <- !app_assoc. apply Permutation_app_head.
    rewrite !app_assoc. apply Permutation_app_tail. apply Permutation_app_comm.
Qed.

Lemma flat_map_Permutation {A B} (f : A -> list B) (l l' : list A) :
  Permutation l l' -> Permutation (flat_map f l) (flat_map f l').
Proof.
  induction 1; simpl.
  - constructor.
  - now apply Permutation_app_head.
  - rewrite !app_assoc. apply Permutation_app_tail, Permutation_app_comm.
  - etransitivity; eassumption.
Qed.

(** Reordering the list a model holds reorders its flattened list. *)
Lemma flatten_reorder n p v (its its' : list Item) :
  Permutation its its' ->
  Permutation (flatten (MkModel n p v its)) (flatten (MkModel n p v its')).
Proof.
  intros H. rewrite !flatten_items.
  apply Permutation_app; now apply flat_map_Permutation.
Qed.

(** ** Meaning of constraints *)

Section Semantics_facts.
Variable fpow : Q -> Q -> Q.
Variable pi : Q.

Lemma holdsb_holds rho c : holdsb fpow pi rho c = true <-> holds fpow pi rho c.
Proof.
  destruct c; simpl.
  - apply Qeq_bool_iff.
  - apply Qle_bool_iff.
  - apply Qle_bool_iff.
Qed.

Lemma feasible_forallb rho cs :
  forallb (holdsb fpow pi rho) cs = true -> feasible fpow pi rho cs.
Proof.
  intros H. apply Forall_forall. intros c Hc.
  apply holdsb_holds. rewrite forallb_forall in H. apply H.
  now apply list_elem_of_In.
Qed.

(** Feasibility does not depend on the order of the list. *)
Lemma feasible_Permutation rho cs cs' :
  Permutation cs cs' -> feasible fpow pi rho cs <-> feasible fpow pi rho cs'.
Proof.
  intros H. unfold feasible. split; intros HF.
  - now rewrite <- H.
  - now rewrite H.
Qed.

Lemma feasible_elem rho cs c :
  feasible fpow pi rho cs -> c ∈ cs -> holds fpow pi rho c.
Proof. intros HF Hc. exact (proj1 (Forall_forall _ _) HF c Hc). Qed.

Lemma eval_chain_sum rho (l : list expr) (e : expr) :
  eval fpow pi rho (chain_sum e l)
  == eval fpow pi rho e + fold_right Qplus 0 (map (eval fpow pi rho) l).
Proof.
  unfold chain_sum. revert e. induction l as [|x l IH]; intros e; simpl.
  - ring.
  - etransitivity; [apply IH|]. simpl. ring.
Qed.

(** The value of the energy sum is the sum of the segments' energies. *)
Lemma eval_energy_sum rho (segs : list Segment) :
  eval fpow pi rho (energy_sum segs)
  == fold_right Qplus 0 (map (fun s => rho (key (E s))) segs).
Proof.
  unfold energy_sum. destruct segs as [|s segs]; simpl; [reflexivity|].
  etransitivity; [apply eval_chain_sum|]. simpl. rewrite map_map. reflexivity.
Qed.

Lemma sum_Permutation (l l' : list Q) :
  Permutation l l' -> fold_right Qplus 0 l == fold_right Qplus 0 l'.
Proof.
  induction 1; simpl.
  - reflexivity.
  - apply Qplus_comp; [reflexivity|assumption].
  - ring.
  - etransitivity; eassumption.
Qed.

(** The value of the energy sum does not depend on the order of the
    segments. *)
Lemma energy_sum_Permutation rho (segs segs' : list Segment) :
  Permutation segs segs' ->
  eval fpow pi rho (energy_sum segs) == eval fpow pi rho (energy_sum segs').
Proof.
  intros H.
  etransitivity; [apply eval_energy_sum|].
  etransitivity; [|symmetry; apply eval_energy_sum].
  apply sum_Permutation. now apply Permutation_map.
Qed.
End Semantics_facts.

(** ** The naming state *)

Lemma wf_init (chk : bool) : wf (init chk).
Proof.
  split; simpl.
  - constructor.
  - intros p t k Hp. inversion Hp.
  - intros f Hf. inversion Hf.
  - intros _ f Hf. inversion Hf.
Qed.

Lemma count_insert s tag k t :
  default 0%nat (<[tag := k]> (MODELNUM_LOOKUP s) !! t)
  = if decide (tag = t) then k else count s t.
Proof.
  unfold count. rewrite lookup_insert. now destruct (decide (tag = t)).
Qed.

Lemma elem_of_current_path s t k :
  (t, k) ∈ current_path s -> exists f, f ∈ MODELS s /\ frame_id f = (t, k).
Proof.
  unfold current_path. intros H.
  apply list_elem_of_In, in_rev, in_map_iff in H.
  destruct H as (f & Hf & Hin). exists f. split; [|assumption].
  now apply list_elem_of_In.
Qed.

(** A new instance gets a path that was never handed out before. *)
Lemma begin_model_fresh (tag : string) (s : BuildState) :
  wf s ->
  exists s', begin_model tag s = inr (next_path s tag, s')
    /\ (next_path s tag ∉ issued s)
    /\ issued s' = next_path s tag :: issued s
    /\ checked s' = checked s
    /\ wf s'.
Proof.
  unfold next_path.
  intros [Hnd Hiss Hfr Hsym]. eexists. split; [reflexivity|].
  assert (Hfresh : (current_path s ++ [(tag, count s tag)]) ∉ issued s).
  { intros Hin. specialize (Hiss _ tag (count s tag) Hin).
    assert ((count s tag < count s tag)%nat); [|lia].
    apply Hiss. apply elem_of_app. right. apply list_elem_of_singleton. reflexivity. }
  assert (Hmono : forall t, (count s t <=
            default 0%nat (<[tag := S (count s tag)]> (MODELNUM_LOOKUP s) !! t))%nat).
  { intros t. rewrite count_insert. destruct (decide (tag = t)); [subst|]; lia. }
  repeat split; simpl; try assumption; try reflexivity.
  - constructor; assumption.
  - intros p t k Hp Hk. unfold count; simpl.
    apply elem_of_cons in Hp. destruct Hp as [->|Hp].
    + apply elem_of_app in Hk. destruct Hk as [Hk|Hk].
      * apply elem_of_current_path in Hk. destruct Hk as (f & Hf & Hid).
        specialize (Hfr f Hf). unfold frame_id in Hid. inversion Hid; subst.
        eapply Nat.lt_le_trans; [exact Hfr|apply Hmono].
      * apply list_elem_of_singleton in Hk. inversion Hk; subst.
        rewrite count_insert. destruct (decide (tag = tag)); [lia|congruence].
    + eapply Nat.lt_le_trans; [eapply Hiss; eassumption|apply Hmono].
  - intros f Hf. unfold count; simpl.
    apply elem_of_cons in Hf. destruct Hf as [->|Hf]; simpl.
    + rewrite count_insert. destruct (decide (tag = tag)); [lia|congruence].
    + eapply Nat.lt_le_trans; [apply Hfr; assumption|apply Hmono].
  - intros Hc f Hf.
    apply elem_of_cons in Hf. destruct Hf as [->|Hf]; simpl.
    + constructor.
    + now apply Hsym.
Qed.

Lemma stable_ret {A} (a : A) : stable (ret a).
Proof. intros s a' s' Hwf H. inversion H; subst. now split. Qed.

Lemma stable_raise {A} (e : error) : stable (@raise A e).
Proof. intros s a s' _ H. discriminate H. Qed.

Lemma stable_bind {A B} (m : Build A) (k : A -> Build B) :
  stable m -> (forall a, stable (k a)) -> stable (bind m k).
Proof.
  intros Hm Hk s b s' Hwf H. unfold bind in H.
  destruct (m s) as [e|[a s1]] eqn:Em; [discriminate|].
  destruct (Hm _ _ _ Hwf Em) as [Hwf1 Hc1].
  destruct (Hk a _ _ _ Hwf1 H) as [Hwf2 Hc2].
  split; [assumption|congruence].
Qed.

Lemma stable_lift {A} (r : error + A) : stable (lift r).
Proof.
  intros s a s' Hwf H. unfold lift in H.
  destruct r; [discriminate|]. inversion H; subst. now split.
Qed.

Lemma stable_topvar (obj : Model) (symbol : string) : stable (topvar obj symbol).
Proof.
  intros s a s' Hwf H. unfold topvar in H.
  eapply stable_lift; eassumption.
Qed.

Lemma stable_getitem (m : Model) (symbol : string) : stable (getitem m symbol).
Proof. apply stable_lift. Qed.

Lemma stable_begin_model (tag : string) : stable (begin_model tag).
Proof.
  intros s p s' Hwf H.
  destruct (begin_model_fresh tag s Hwf) as (s1 & E1 & _ & _ & Hc & Hwf1).
  rewrite E1 in H. inversion H; subst. now split.
Qed.

Lemma stable_end_model : stable end_model.
Proof.
  intros s vs s' [Hnd Hiss Hfr Hsym] H. unfold end_model in H.
  destruct (MODELS s) as [|f fs] eqn:EM.
  - inversion H; subst. split; [|reflexivity].
    split; try assumption.
    + rewrite EM. intros f Hf. inversion Hf.
    + rewrite EM. intros _ f Hf. inversion Hf.
  - inversion H; subst. split; [|reflexivity].
    split; simpl; try assumption.
    + intros g Hg. apply Hfr. now apply elem_of_cons; right.
    + intros Hc g Hg. apply Hsym; [assumption|]. now apply elem_of_cons; right.
Qed.

Lemma existsb_sym_false (l : list Var) (name : string) :
  existsb (fun x => (sym x =? name)%string) l = false -> name ∉ map sym l.
Proof.
  induction l as [|x l IH]; simpl; intros H Hin.
  - inversion Hin.
  - apply orb_false_iff in H. destruct H as [Hx Hl].
    apply elem_of_cons in Hin. destruct Hin as [->|Hin].
    + rewrite String.eqb_refl in Hx. discriminate.
    + now apply IH.
Qed.

Lemma stable_gpVariable name value unit description :
  stable (gpVariable name value unit description).
Proof.
  intros s x s' [Hnd Hiss Hfr Hsym] H. unfold gpVariable in H.
  destruct (MODELS s) as [|f fs] eqn:EM.
  { inversion H; subst. split; [|reflexivity]. split; try assumption.
    - rewrite EM. intros f Hf. inversion Hf.
    - rewrite EM. intros _ f Hf. inversion Hf. }
  destruct (checked s) eqn:Ec.
  - unfold declare in H.
    destruct (existsb _ (f_vars f)) eqn:Ex; [discriminate|].
    inversion H; subst; clear H. split; [|reflexivity].
    split; simpl; try assumption.
    + intros g Hg. apply elem_of_cons in Hg. destruct Hg as [->|Hg]; simpl.
      * apply (Hfr f). now apply elem_of_cons; left.
      * apply Hfr. now apply elem_of_cons; right.
    + intros _ g Hg. apply elem_of_cons in Hg. destruct Hg as [->|Hg]; simpl.
      * rewrite map_app. simpl.
        apply NoDup_app. split; [|split].
        -- apply Hsym; [reflexivity|]. now apply elem_of_cons; left.
        -- intros y Hy Hy'. apply list_elem_of_singleton in Hy'. subst y.
           now apply (existsb_sym_false _ _ Ex).
        -- apply NoDup_singleton.
      * apply Hsym; [reflexivity|]. now apply elem_of_cons; right.
  - inversion H; subst; clear H. split; [|reflexivity].
    split; simpl; try assumption.
    + intros g Hg. apply elem_of_cons in Hg. destruct Hg as [->|Hg]; simpl.
      * apply (Hfr f). now apply elem_of_cons; left.
      * apply Hfr. now apply elem_of_cons; right.
    + intros Hc. simpl in Hc. congruence.
Qed.

Lemma stable_instantiate {A} (tag : string) (body : Build (list Item * A)) :
  stable body -> stable (instantiate tag body).
Proof.
  intros Hb. unfold instantiate.
  apply stable_bind; [apply stable_begin_model|]. intros p.
  apply stable_bind; [assumption|]. intros [items attrs].
  apply stable_bind; [apply stable_end_model|]. intros vars.
  apply stable_ret.
Qed.

Lemma stable_mapM {A B} (f : A -> Build B) (l : list A) :
  (forall a, stable (f a)) -> stable (mapM f l).
Proof.
  intros Hf. induction l as [|a l IH]; simpl.
  - apply stable_ret.
  - apply stable_bind; [apply Hf|]. intros b.
    apply stable_bind; [assumption|]. intros bs. apply stable_ret.
Qed.

(** In a checked build the model that [instantiate] returns holds no symbol
    twice. *)
Lemma instantiate_unique {A} (tag : string) (body : Build (list Item * A))
    (s s' : BuildState) (m : Model) (a : A) :
  stable body -> wf s -> checked s = true ->
  instantiate tag body s = inr ((m, a), s') ->
  NoDup (map sym (m_vars m)).
Proof.
  intros Hb Hwf Hc H. unfold instantiate, bind in H.
  destruct (begin_model_fresh tag s Hwf) as (s1 & E1 & _ & _ & Hc1 & Hwf1).
  rewrite E1 in H.
  destruct (body s1) as [e|[[items attrs] s2]] eqn:Eb; [discriminate|].
  destruct (Hb _ _ _ Hwf1 Eb) as [Hwf2 Hc2].
  unfold end_model, ret in H.
  destruct (MODELS s2) as [|f fs] eqn:EM; inversion H; subst; simpl.
  - constructor.
  - apply (wf_symbols _ Hwf2); [congruence|]. rewrite EM. now apply elem_of_cons; left.
Qed.

Create HintDb stable.
#[global] Hint Resolve stable_ret stable_raise stable_lift stable_topvar
  stable_getitem stable_gpVariable stable_begin_model stable_end_model : stable.

Ltac stable_step :=
  lazymatch goal with
  | |- stable (bind _ _) => apply stable_bind; [|intros ?]
  | |- stable (instantiate _ _) => apply stable_instantiate
  | |- stable (mapM _ _) => apply stable_mapM; intros ?
  | |- stable (if ?b then _ else _) => destruct b
  | |- stable (match ?x with _ => _ end) => destruct x
  | |- stable _ => solve [auto with stable]
  end.

Ltac stable_tac := cbv zeta; repeat stable_step.

Lemma stable_Structure a w : stable (SimpleOnDemandStructure.setup a w).
Proof. unfold SimpleOnDemandStructure.setup. stable_tac. Qed.

Lemma stable_Rotors N s : stable (Rotors.setup N s).
Proof. unfold Rotors.setup. stable_tac. Qed.

Lemma stable_FlightState h : stable (FlightState.setup h).
Proof. unfold FlightState.setup. stable_tac. Qed.

Lemma stable_RotorsAero r f a b c : stable (RotorsAero.setup r f a b c).
Proof. unfold RotorsAero.setup. stable_tac. Qed.

Lemma stable_Battery a b c d : stable (Battery.setup a b c d).
Proof. unfold Battery.setup. stable_tac. Qed.

Lemma stable_BatteryPerformance b : stable (BatteryPerformance.setup b).
Proof. unfold BatteryPerformance.setup. stable_tac. Qed.

Lemma stable_Crew a b : stable (Crew.setup a b).
Proof. unfold Crew.setup. stable_tac. Qed.

Lemma stable_Passengers a b : stable (Passengers.setup a b).
Proof. unfold Passengers.setup. stable_tac. Qed.

Lemma stable_PowerSystem a : stable (PowerSystem.setup a).
Proof. unfold PowerSystem.setup. stable_tac. Qed.

Lemma stable_PowerSystemPerformance a : stable (PowerSystemPerformance.setup a).
Proof. unfold PowerSystemPerformance.setup. stable_tac. Qed.

#[global] Hint Resolve stable_Structure stable_Rotors stable_FlightState
  stable_RotorsAero stable_Battery stable_BatteryPerformance stable_Crew
  stable_Passengers stable_PowerSystem stable_PowerSystemPerformance : stable.

Lemma stable_Aircraft a b c d e f g h :
  stable (SimpleOnDemandAircraft.setup a b c d e f g h).
Proof. unfold SimpleOnDemandAircraft.setup. stable_tac. Qed.

Lemma stable_Hover a b c d : stable (Hover.setup a b c d).
Proof.
  unfold Hover.setup, Rotors_performance, Battery_performance,
    PowerSystem_performance.
  stable_tac.
Qed.

Lemma stable_LevelFlight a b c : stable (LevelFlight.setup a b c).
Proof.
  unfold LevelFlight.setup, Battery_performance, PowerSystem_performance.
  stable_tac.
Qed.

#[global] Hint Resolve stable_Aircraft stable_Hover stable_LevelFlight : stable.

Lemma stable_reserve r f : stable (OnDemandSizingMission.reserve_constraints r f).
Proof. unfold OnDemandSizingMission.reserve_constraints. stable_tac. Qed.

#[global] Hint Resolve stable_reserve : stable.

Lemma stable_SizingMission a b c d e f g :
  stable (OnDemandSizingMission.setup a b c d e f g).
Proof. unfold OnDemandSizingMission.setup. stable_tac. Qed.

Lemma stable_TypicalMission a b c d e f g h :
  stable (OnDemandTypicalMission.setup a b c d e f g h).
Proof. unfold OnDemandTypicalMission.setup. stable_tac. Qed.

#[global] Hint Resolve stable_SizingMission stable_TypicalMission : stable.

Lemma stable_main (c : Config.t) : stable (main c).
Proof. unfold main. stable_tac. Qed.

(** Whatever the script builds, no two instances were given the same path. *)
Lemma main_paths_distinct (c : Config.t) (chk : bool) (st : Study) (s : BuildState) :
  main c (init chk) = inr (st, s) -> NoDup (issued s).
Proof.
  intros H. destruct (stable_main c _ _ _ (wf_init chk) H) as [Hwf _].
  apply (wf_nodup _ Hwf).
Qed.

(** ** Lookup *)

Lemma filter_none {A} (P : A -> Prop) `{forall x, Decision (P x)} (l : list A) :
  (forall x, x ∈ l -> ~ P x) -> filter P l = [].
Proof.
  induction l as [|a l IH]; intros Hl; [reflexivity|].
  rewrite filter_cons_False.
  - apply IH. intros x Hx. apply Hl. now apply elem_of_cons; right.
  - apply Hl. now apply elem_of_cons; left.
Qed.

Lemma distinct_elem (l : list Var) (x : Var) :
  x ∈ l -> exists y, y ∈ distinct l /\ key y = key x.
Proof.
  induction l as [|a l IH]; intros Hx; [inversion Hx|].
  simpl. destruct (decide (key x = key a)) as [Heq|Hne].
  - exists a. split; [now apply elem_of_cons; left|congruence].
  - apply elem_of_cons in Hx. destruct Hx as [->|Hx]; [congruence|].
    destruct (IH Hx) as (y & Hy & Hk). exists y. split; [|assumption].
    apply elem_of_cons; right. apply list_elem_of_filter. split; [congruence|assumption].
Qed.

Lemma distinct_elem_inv (l : list Var) (y : Var) : y ∈ distinct l -> y ∈ l.
Proof.
  revert y. induction l as [|a l IH]; intros y Hy; [inversion Hy|].
  simpl in Hy. apply elem_of_cons in Hy. destruct Hy as [->|Hy].
  - now apply elem_of_cons; left.
  - apply list_elem_of_filter in Hy. apply elem_of_cons; right. now apply IH.
Qed.

Lemma distinct_two (l : list Var) (x y : Var) :
  x ∈ l -> y ∈ l -> key x <> key y -> exists a b r, distinct l = a :: b :: r.
Proof.
  intros Hx Hy Hne.
  destruct (distinct_elem l x Hx) as (x' & Hx' & Kx).
  destruct (distinct_elem l y Hy) as (y' & Hy' & Ky).
  destruct (distinct l) as [|a [|b r]].
  - inversion Hx'.
  - apply list_elem_of_singleton in Hx', Hy'. subst. congruence.
  - now exists a, b, r.
Qed.

Lemma distinct_same_key (l : list Var) (x : Var) :
  (forall y, y ∈ l -> key y = key x) -> distinct (x :: l) = [x].
Proof.
  intros H. simpl. f_equal. apply filter_none.
  intros y Hy. apply distinct_elem_inv in Hy. specialize (H y Hy). congruence.
Qed.

(** No variable of that name anywhere: the lookup is unresolved. *)
Lemma resolve_unresolved own refs owner_path symbol :
  (forall x, x ∈ own ++ concat refs -> sym x <> symbol) ->
  resolve own refs owner_path symbol = inl UnresolvedVariableError.
Proof.
  intros H. unfold resolve, candidates. destruct owner_path as [p|].
  - rewrite filter_none; [reflexivity|].
    intros x Hx Hk. apply (H x Hx). unfold sym. now rewrite Hk.
  - unfold named. rewrite filter_none.
    + rewrite filter_none; [reflexivity|].
      intros x Hx. apply H. apply elem_of_app. now right.
    + intros x Hx. apply H. apply elem_of_app. now left.
Qed.

(** Two variables of that name with different owners among the objects
    referred to, and no owner path given: the lookup is ambiguous. *)
Lemma resolve_ambiguous own refs symbol (x y : Var) :
  named symbol own = [] ->
  x ∈ concat refs -> y ∈ concat refs ->
  sym x = symbol -> sym y = symbol -> key x <> key y ->
  resolve own refs None symbol = inl AmbiguousVariableError.
Proof.
  intros Hown Hx Hy Sx Sy Hne. unfold resolve, candidates. rewrite Hown.
  destruct (distinct_two (named symbol (concat refs)) x y) as (a & b & r & ->);
    try assumption; try reflexivity.
  - apply list_elem_of_filter. now split.
  - apply list_elem_of_filter. now split.
Qed.

(** With an owner path the lookup returns the variable of that owner and
    name, if there is one. *)
Lemma resolve_owner own refs p symbol (x : Var) :
  x ∈ own ++ concat refs -> key x = (p, symbol) ->
  exists y, resolve own refs (Some p) symbol = inr y /\ key y = (p, symbol).
Proof.
  intros Hx Hk. unfold resolve, candidates.
  assert (Hin : x ∈ filter (fun x => key x = (p, symbol)) (own ++ concat refs)).
  { apply list_elem_of_filter. now split. }
  destruct (filter _ (own ++ concat refs)) as [|a l] eqn:El; [inversion Hin|].
  assert (Ha : key a = (p, symbol)).
  { assert (a ∈ a :: l) as Hal by (now apply elem_of_cons; left).
    rewrite <- El in Hal. now apply list_elem_of_filter in Hal. }
  rewrite distinct_same_key.
  - exists a. now split.
  - intros y Hy. assert (y ∈ a :: l) as Hyl by (now apply elem_of_cons; right).
    rewrite <- El in Hyl. apply list_elem_of_filter in Hyl. destruct Hyl. congruence.
Qed.

(** ** Substitution *)

Lemma lookup_var_pin (k k' : VarKey) (v : value) (cs : Flat) :
  lookup_var k (pin k' v cs)
  = match lookup_var k cs with
    | Some x => Some (if bool_decide (key x = k')
                      then mkVar (key x) (Some v) (unit x) (descr x) else x)
    | None => None
    end.
Proof.
  unfold lookup_var, pin. simpl.
  induction (fl_vars cs) as [|x l IH]; [reflexivity|].
  simpl. destruct (bool_decide (key x = k')) eqn:Ek'; simpl.
  - destruct (bool_decide (key x = k)) eqn:Ek; [|exact IH].
    now rewrite Ek'.
  - destruct (bool_decide (key x = k)) eqn:Ek; [|exact IH].
    now rewrite Ek'.
Qed.

(** Pinning one target never makes another target valid. *)
Lemma invalid_pin (k k' : VarKey) (v : value) (cs : Flat) :
  valid_target cs k = false -> valid_target (pin k' v cs) k = false.
Proof.
  unfold valid_target. rewrite lookup_var_pin.
  destruct (lookup_var k cs) as [x|]; [|reflexivity].
  destruct (bool_decide (key x = k')); simpl; [reflexivity|].
  destruct (val x); [reflexivity|discriminate].
Qed.

(** Pinning one target leaves the validity of the other targets alone. *)
Lemma valid_pin_other (k k' : VarKey) (v : value) (cs : Flat) :
  k <> k' -> valid_target (pin k' v cs) k = valid_target cs k.
Proof.
  intros Hne. unfold valid_target. rewrite lookup_var_pin.
  destruct (lookup_var k cs) as [x|] eqn:El; [|reflexivity].
  assert (Hk : key x = k).
  { unfold lookup_var in El. apply find_some in El. destruct El as [_ Hb].
    now apply bool_decide_eq_true in Hb. }
  rewrite bool_decide_eq_false_2; [reflexivity|congruence].
Qed.

Lemma pin_constraints k v cs : fl_constraints (pin k v cs) = fl_constraints cs.
Proof. reflexivity. Qed.

Lemma pin_keys k v cs : map key (fl_vars (pin k v cs)) = map key (fl_vars cs).
Proof.
  unfold pin. simpl. rewrite map_map. apply map_ext.
  intros x. now destruct (bool_decide (key x = k)).
Qed.

Lemma for_each_check (es : list (VarKey * value)) (cs : Flat) :
  for_each check_target es cs
  = (if forallb (fun e => valid_target cs (fst e)) es then inr tt
     else inl SubstitutionTargetError, cs).
Proof.
  induction es as [|e es IH]; [reflexivity|].
  simpl. unfold and_then, check_target at 1.
  destruct (valid_target cs (fst e)); simpl; [exact IH|reflexivity].
Qed.

Lemma for_each_pin (es : list (VarKey * value)) (cs : Flat) :
  for_each pin_target es cs = (inr tt, pin_all es cs).
Proof.
  revert cs. induction es as [|e es IH]; intros cs; [reflexivity|].
  simpl. unfold and_then, pin_target at 1. apply IH.
Qed.

Lemma apply_substitutions_unfold (cs : Flat) (table : gmap VarKey value) :
  apply_substitutions cs table
  = if forallb (fun e => valid_target cs (fst e)) (map_to_list table)
    then (inr tt, pin_all (map_to_list table) cs)
    else (inl SubstitutionTargetError, cs).
Proof.
  unfold apply_substitutions, and_then. rewrite for_each_check.
  destruct (forallb _ _); [apply for_each_pin|reflexivity].
Qed.

Lemma pin_all_constraints es cs : fl_constraints (pin_all es cs) = fl_constraints cs.
Proof.
  revert cs. induction es as [|e es IH]; intros cs; [reflexivity|].
  simpl. rewrite IH. apply pin_constraints.
Qed.

Lemma pin_all_keys es cs : map key (fl_vars (pin_all es cs)) = map key (fl_vars cs).
Proof.
  revert cs. induction es as [|e es IH]; intros cs; [reflexivity|].
  simpl. rewrite IH. apply pin_keys.
Qed.

Lemma lookup_var_key (k : VarKey) (cs : Flat) (x : Var) :
  lookup_var k cs = Some x -> key x = k.
Proof.
  unfold lookup_var. intros H. apply find_some in H. destruct H as [_ Hb].
  now apply bool_decide_eq_true in Hb.
Qed.

(** Pinning entries with other targets leaves a variable as it is. *)
Lemma pin_all_other (es : list (VarKey * value)) (cs : Flat) (k : VarKey) :
  (forall e, e ∈ es -> fst e <> k) ->
  lookup_var k (pin_all es cs) = lookup_var k cs.
Proof.
  revert cs. induction es as [|e es IH]; intros cs Hne; [reflexivity|].
  simpl. rewrite IH.
  - rewrite lookup_var_pin. destruct (lookup_var k cs) as [x|] eqn:El; [|reflexivity].
    rewrite bool_decide_eq_false_2; [reflexivity|].
    rewrite (lookup_var_key _ _ _ El). intros E. apply (Hne e); [left|now symmetry].
  - intros e' He'. apply Hne. now right.
Qed.

(** Pinning the entries of a table fixes each target that is in the set at
    the value of its entry. *)
Lemma pin_all_target (es : list (VarKey * value)) (cs : Flat) (k : VarKey)
    (v : value) (x : Var) :
  NoDup (map fst es) -> (k, v) ∈ es -> lookup_var k cs = Some x ->
  lookup_var k (pin_all es cs) = Some (mkVar k (Some v) (unit x) (descr x)).
Proof.
  revert cs x. induction es as [|e es IH]; intros cs x Hnd Hin Hx.
  - apply elem_of_nil in Hin. contradiction.
  - simpl in Hnd. apply NoDup_cons in Hnd. destruct Hnd as [Hfresh Hnd].
    apply elem_of_cons in Hin. destruct Hin as [<-|Hin]; simpl.
    + rewrite pin_all_other.
      * rewrite lookup_var_pin, Hx.
        rewrite bool_decide_eq_true_2 by exact (lookup_var_key _ _ _ Hx).
        now rewrite (lookup_var_key _ _ _ Hx).
      * intros e' He' E. apply Hfresh. rewrite <- E.
        apply list_elem_of_fmap. now exists e'.
    + assert (Hne : fst e <> k).
      { intros E. apply Hfresh. rewrite E.
        apply list_elem_of_fmap. now exists (k, v). }
      apply (IH _ x Hnd Hin).
      rewrite lookup_var_pin, Hx.
      rewrite bool_decide_eq_false_2; [reflexivity|].
      rewrite (lookup_var_key _ _ _ Hx). congruence.
Qed.

(** ** Reading a built model *)

Lemma built_inv {A} (a : A) (P : A -> Prop) : built (inr a) P -> P a.
Proof. intros H. now inversion H. Qed.

Lemma built_impl {A} (r : error + A) (P R : A -> Prop) :
  built r P -> (forall a, P a -> R a) -> built r R.
Proof. intros [a P' HP] H. constructor. now apply H. Qed.

Lemma built_run_impl {A} (chk : bool) (m : Build A) (P R : A -> Prop) :
  built (run chk m) P ->
  (forall a s', m (init chk) = inr (a, s') -> P a -> R a) ->
  built (run chk m) R.
Proof.
  unfold run. destruct (m (init chk)) as [e|[a s']] eqn:E; intros HP H.
  - inversion HP.
  - apply built_inv in HP. constructor. eapply H; eauto.
Qed.

Lemma built_and {A} (r : error + A) (P R : A -> Prop) :
  built r P -> built r R -> built r (fun a => P a /\ R a).
Proof.
  intros [a P' HP] HR. apply built_inv in HR. constructor. now split.
Qed.

(** Facts about a build are settled by running it. *)
Ltac by_running := cbv zeta; apply (bool_decide_unpack _); vm_compute; exact I.

Lemma main_policy (c : Config.t) :
  main c = main (set_reserve_type c (policy (Config.reserve_type c))).
Proof.
  unfold policy.
  destruct (Config.reserve_type c =? "FAA")%string eqn:EF.
  { apply String.eqb_eq in EF. destruct c; simpl in *. now subst. }
  destruct (Config.reserve_type c =? "Uber")%string eqn:EU.
  { apply String.eqb_eq in EU. destruct c; simpl in *. now subst. }
  unfold main, set_reserve_type, OnDemandSizingMission.setup,
    OnDemandSizingMission.reserve_constraints; simpl.
  now rewrite EF, EU.
Qed.

(** The battery discharge parameter is a float that the source divides by:
    the cases to run are a positive and a negative numerator. *)
Ltac discharge_cases c Hn :=
  destruct c as [? ? ? ? ? ? ? ? n ? ? ? ? ? ? ? ? ? ? ? ?];
  simpl in Hn; destruct n as [[|?|?] ?];
  [exfalso; apply Hn; reflexivity| |].

(** A fact about the script for every configuration: run it for the three
    reserve policies and the two signs of the discharge parameter. *)
Ltac config_cases c Hn :=
  rewrite (main_policy c); unfold policy;
  destruct (Config.reserve_type c =? "FAA")%string;
  [|destruct (Config.reserve_type c =? "Uber")%string];
  discharge_cases c Hn.

(** ** Reserve policy *)

(** C1, as the code has it: built with reserve policy "FAA" the sizing
    mission states exactly one reserve requirement, the loiter time fixed at
    45 minutes set equal to the time of the loiter segment; built with "Uber"
    it states exactly one, the diversion distance fixed at 2 nautical miles
    set equal to the range of the loiter segment. *)
Theorem C1_reserve_policy (c : Config.t) :
  ~ Config.n c == 0 ->
  built (run false (main (set_reserve_type c "FAA")))
    (fun st =>
       let sm := testSizingMission st in
       let m := OnDemandSizingMission.model sm in
       reserve_requirements m = [loiter_requirement sm]
       /\ val (get m "t_{loiter}") = Some (Num 45)
       /\ unit (get m "t_{loiter}") = "minutes"
       /\ var_of m "R_{divert}" = None)
  /\ built (run false (main (set_reserve_type c "Uber")))
    (fun st =>
       let sm := testSizingMission st in
       let m := OnDemandSizingMission.model sm in
       reserve_requirements m = [diversion_requirement sm]
       /\ val (get m "R_{divert}") = Some (Num 2)
       /\ unit (get m "R_{divert}") = "nautical_mile"
       /\ var_of m "t_{loiter}" = None).
Proof.
  intros Hn. discharge_cases c Hn; split; by_running.
Qed.

Lemma C1_reserve_policy_witness :
  ~ Config.n joby == 0
  /\ built (run false (main (set_reserve_type joby "FAA")))
       (fun st =>
          reserve_requirements (OnDemandSizingMission.model (testSizingMission st))
          = [loiter_requirement (testSizingMission st)])
  /\ built (run false (main (set_reserve_type joby "Uber")))
       (fun st =>
          reserve_requirements (OnDemandSizingMission.model (testSizingMission st))
          = [diversion_requirement (testSizingMission st)]).
Proof.
  assert (Hn : ~ Config.n joby == 0) by (vm_compute; discriminate).
  split; [exact Hn|].
  destruct (C1_reserve_policy joby Hn) as [HF HU].
  split.
  - apply (built_impl _ _ _ HF). intros st H. apply H.
  - apply (built_impl _ _ _ HU). intros st H. apply H.
Defined.

(** Any other value of the flag leaves the sizing mission without a reserve
    requirement: neither [if] of lines 309-314 is taken. *)
Lemma reserve_policy_other (c : Config.t) (r : string) :
  ~ Config.n c == 0 -> r <> "FAA" -> r <> "Uber" ->
  built (run false (main (set_reserve_type c r)))
    (fun st =>
       reserve_requirements (OnDemandSizingMission.model (testSizingMission st)) = []).
Proof.
  intros Hn HF HU.
  apply String.eqb_neq in HF, HU.
  rewrite main_policy. unfold policy, set_reserve_type; simpl.
  rewrite HF, HU.
  discharge_cases c Hn; by_running.
Qed.

(** A sizing mission built without the flag takes the default "Uber". *)
Lemma reserve_policy_default (c : Config.t) :
  ~ Config.n c == 0 ->
  built (run false (
           aircraft ← SimpleOnDemandAircraft.setup (Config.N c) (Config.L_D c)
             (Config.eta_cruise c) (Config.weight_fraction c) (Config.C_m c)
             (Some (Config.N_crew c)) (Some (Config.n c))
             (Some (Config.eta_electric c));
           OnDemandSizingMission.setup aircraft None None None None None None))
    (fun sm =>
       reserve_requirements (OnDemandSizingMission.model sm)
       = [diversion_requirement sm]).
Proof.
  intros Hn. discharge_cases c Hn; by_running.
Qed.

(** C1 fails as stated: built with a flag that is neither "FAA" nor "Uber",
    the sizing mission states no reserve requirement at all. *)
Lemma C1_counterexample :
  built (run false (main (set_reserve_type joby "VFR")))
    (fun st =>
       length (reserve_requirements
                 (OnDemandSizingMission.model (testSizingMission st))) = 0%nat).
Proof. by_running. Qed.

(** The typical mission takes no reserve policy and states no reserve
    requirement. *)
Lemma typical_mission_no_reserve (c : Config.t) :
  ~ Config.n c == 0 ->
  built (run false (main c))
    (fun st =>
       reserve_requirements (OnDemandTypicalMission.model (testTypicalMission st)) = []).
Proof.
  intros Hn. config_cases c Hn; by_running.
Qed.

(** ** Duplicate symbols *)

Lemma existsb_sym_true (l : list Var) (x : Var) :
  x ∈ l -> existsb (fun y => (sym y =? sym x)%string) l = true.
Proof.
  intros H. apply existsb_exists. exists x. split.
  - now apply list_elem_of_In.
  - apply String.eqb_refl.
Qed.

(** In a checked build [RotorsAero.setup] stops at its second declaration of
    "CP" (line 80), whatever its arguments and wherever it is instantiated. *)
Lemma RotorsAero_duplicate (rotors flightState : Model)
    (MT_max CL_mean_max : option value) (SPL_req : option Q) (s : BuildState) :
  checked s = true ->
  RotorsAero.setup rotors flightState MT_max CL_mean_max SPL_req s
  = inl DuplicateSymbolError.
Proof.
  intros Hc. destruct s as [chk nums frames log]. simpl in Hc. subst chk.
  vm_compute. reflexivity.
Qed.

(** The script does not build under checked declarations: the first hover
    segment instantiates [RotorsAero]. *)
Lemma main_checked (c : Config.t) : run true (main c) = inl DuplicateSymbolError.
Proof. vm_compute. reflexivity. Qed.

(** C2: declaring a symbol that the owner already holds fails with
    [DuplicateSymbolError]; so a model built under checked declarations holds
    no symbol twice; and the build of [RotorsAero], which declares "CP" for
    the power coefficient and again for the profile power coefficient,
    fails with [DuplicateSymbolError]. *)
Theorem C2_duplicate_symbol (declared : list Var) (owner_path : Path)
    (symbol u description : string) (v : option value) (x : Var) :
  x ∈ declared -> sym x = symbol ->
  declare declared owner_path symbol u description v
  = inl DuplicateSymbolError
  /\ (forall (A : Type) (tag : string) (body : Build (list Item * A))
             (s s' : BuildState) (m : Model) (a : A),
        stable body -> wf s -> checked s = true ->
        instantiate tag body s = inr ((m, a), s') ->
        NoDup (map sym (m_vars m)))
  /\ (forall (rotors flightState : Model) (MT_max CL_mean_max : option value)
             (SPL_req : option Q) (s : BuildState),
        checked s = true ->
        RotorsAero.setup rotors flightState MT_max CL_mean_max SPL_req s
        = inl DuplicateSymbolError)
  /\ (forall c : Config.t, run true (main c) = inl DuplicateSymbolError).
Proof.
  intros Hx Hs. split; [|split; [|split]].
  - unfold declare. subst symbol. now rewrite (existsb_sym_true _ _ Hx).
  - intros A tag body s s' m a. apply instantiate_unique.
  - apply RotorsAero_duplicate.
  - apply main_checked.
Qed.

Lemma C2_duplicate_symbol_witness :
  let CP := mkVar ([("RotorsAero", 0%nat)], "CP") None "-" "Power coefficient" in
  CP ∈ [CP] /\ sym CP = "CP"
  /\ declare [CP] [("RotorsAero", 0%nat)] "CP" "-" "Profile power coefficient" None
     = inl DuplicateSymbolError
  /\ RotorsAero.setup (MkModel "Rotors" [] [] []) (MkModel "FlightState" [] [] [])
       None None None (init true)
     = inl DuplicateSymbolError.
Proof.
  intros CP.
  assert (H1 : CP ∈ [CP]) by (apply list_elem_of_singleton; reflexivity).
  assert (H2 : sym CP = "CP") by reflexivity.
  destruct (C2_duplicate_symbol [CP] [("RotorsAero", 0%nat)] "CP" "-"
              "Profile power coefficient" None CP H1 H2) as (Hd & _ & Hr & _).
  split; [exact H1|]. split; [exact H2|]. split; [exact Hd|].
  apply Hr. reflexivity.
Defined.

(** Under checked declarations the aircraft does build, and none of its
    models holds a symbol twice. *)
Lemma aircraft_symbols_unique (N L_D eta_cruise weight_fraction C_m : value)
    (N_crew : option value) (n : option Q) (eta_electric : option value) :
  built (run true (SimpleOnDemandAircraft.setup N L_D eta_cruise weight_fraction
                     C_m N_crew n eta_electric))
    (fun ac => Forall (fun m => NoDup (map sym (m_vars m)))
                      (nodes (SimpleOnDemandAircraft.model ac))).
Proof. by_running. Qed.

(** Without the check, [RotorsAero] holds the qualified name of "CP" twice. *)
Lemma RotorsAero_CP_twice (c : Config.t) :
  ~ Config.n c == 0 ->
  built (run false (main c))
    (fun st => Forall (fun m => length (named "CP" (m_vars m)) = 2%nat)
                      (instances "RotorsAero" (problem st))).
Proof.
  intros Hn. config_cases c Hn; by_running.
Qed.

(** ** Energy budget *)

(** What the energy budget says of a valuation. *)
Lemma holds_budget fpow pi (rho : valuation) (capacity : Var) (segs : list Segment) :
  holds fpow pi rho (budget capacity segs)
  <-> fold_right Qplus 0 (map (fun s => rho (key (E s))) segs) <= rho (key capacity).
Proof.
  unfold budget. simpl.
  pose proof (eval_energy_sum fpow pi rho segs) as H.
  split; intros HB.
  - eapply Qle_trans; [|exact HB]. rewrite H. apply Qle_refl.
  - eapply Qle_trans; [|exact HB]. rewrite H. apply Qle_refl.
Qed.

(** The facts about the two missions that running the script settles. *)
Lemma missions_budget (c : Config.t) :
  ~ Config.n c == 0 ->
  built (run false (main c))
    (fun st =>
       let ac := testAircraft st in
       let sm := testSizingMission st in
       let tm := testTypicalMission st in
       let C_eff := SimpleOnDemandAircraft.C_eff ac in
       (C_eff = get (SimpleOnDemandAircraft.model ac) "C_{eff}"
        /\ List.filter (bounded_by C_eff) (own_constraints (OnDemandSizingMission.model sm))
           = [budget C_eff (OnDemandSizingMission.segments sm)]
        /\ List.filter (bounded_by C_eff) (own_constraints (OnDemandTypicalMission.model tm))
           = [budget C_eff (OnDemandTypicalMission.segments tm)])
       /\ (map (fun s => m_naming (seg_model s)) (OnDemandSizingMission.segments sm)
           = map m_naming (flight_segments (OnDemandSizingMission.model sm))
           /\ map (fun s => m_naming (seg_model s)) (OnDemandTypicalMission.segments tm)
              = map m_naming (flight_segments (OnDemandTypicalMission.model tm)))
       /\ Forall (fun s => E s = get (seg_model s) "E")
            (OnDemandSizingMission.segments sm ++ OnDemandTypicalMission.segments tm)
       /\ NoDup (map (fun s => key (E s))
            (OnDemandSizingMission.segments sm ++ OnDemandTypicalMission.segments tm))).
Proof.
  intros Hn. config_cases c Hn; by_running.
Qed.

(** C3: each mission states one bound on the effective capacity [C_eff] of
    the aircraft, [C_eff >= fs0.E + fs1.E + ...]: the right-hand side is the
    literal sum of the energy variables of the mission's flight segments, one
    addend per segment and no addend twice; and whether that constraint holds
    does not depend on the order of the segments. *)
Theorem C3_energy_budget (c : Config.t) (fpow : Q -> Q -> Q) (pi : Q)
    (rho : valuation) (capacity : Var) (segs segs' : list Segment) :
  ~ Config.n c == 0 -> Permutation segs segs' ->
  built (run false (main c))
    (fun st =>
       let ac := testAircraft st in
       let sm := testSizingMission st in
       let tm := testTypicalMission st in
       let C_eff := SimpleOnDemandAircraft.C_eff ac in
       let fs0 := OnDemandSizingMission.fs0 sm in
       let fs1 := OnDemandSizingMission.fs1 sm in
       let fs2 := OnDemandSizingMission.fs2 sm in
       let fs3 := OnDemandSizingMission.fs3 sm in
       let fs4 := OnDemandSizingMission.fs4 sm in
       let fs5 := OnDemandSizingMission.fs5 sm in
       let ts0 := OnDemandTypicalMission.fs0 tm in
       let ts1 := OnDemandTypicalMission.fs1 tm in
       let ts2 := OnDemandTypicalMission.fs2 tm in
       (* the vehicle's effective capacity *)
       C_eff = get (SimpleOnDemandAircraft.model ac) "C_{eff}"
       (* the one bound on it in each mission, with the literal sum *)
       /\ List.filter (bounded_by C_eff) (own_constraints (OnDemandSizingMission.model sm))
          = [(C_eff >= E fs0 + E fs1 + E fs2 + E fs3 + E fs4 + E fs5)%gp]
       /\ List.filter (bounded_by C_eff) (own_constraints (OnDemandTypicalMission.model tm))
          = [(C_eff >= E ts0 + E ts1 + E ts2)%gp]
       (* the addends are the flight segments of the mission, each once *)
       /\ map (fun s => m_naming (seg_model s)) [fs0; fs1; fs2; fs3; fs4; fs5]
          = map m_naming (flight_segments (OnDemandSizingMission.model sm))
       /\ map (fun s => m_naming (seg_model s)) [ts0; ts1; ts2]
          = map m_naming (flight_segments (OnDemandTypicalMission.model tm))
       /\ Forall (fun s => E s = get (seg_model s) "E")
            [fs0; fs1; fs2; fs3; fs4; fs5; ts0; ts1; ts2]
       /\ NoDup (map (fun s => key (E s))
            [fs0; fs1; fs2; fs3; fs4; fs5; ts0; ts1; ts2])
       (* the bound says that the energies add up to at most the capacity *)
       /\ (holds fpow pi rho (C_eff >= E fs0 + E fs1 + E fs2 + E fs3 + E fs4 + E fs5)%gp
           <-> fold_right Qplus 0 (map (fun s => rho (key (E s)))
                 [fs0; fs1; fs2; fs3; fs4; fs5]) <= rho (key C_eff)))
  (* and is indifferent to the order of the segments *)
  /\ (holds fpow pi rho (budget capacity segs)
      <-> holds fpow pi rho (budget capacity segs'))
  /\ eval fpow pi rho (energy_sum segs) == eval fpow pi rho (energy_sum segs').
Proof.
  intros Hn HP. split; [|split].
  - apply (built_impl _ _ _ (missions_budget c Hn)).
    intros st ((HC & Hs & Ht) & (Ns & Nt) & HE & HN).
    cbv zeta. repeat split; try assumption.
    + now apply (proj1 (holds_budget fpow pi rho _
                          (OnDemandSizingMission.segments (testSizingMission st)))).
    + now apply (proj2 (holds_budget fpow pi rho _
                          (OnDemandSizingMission.segments (testSizingMission st)))).
  - rewrite !holds_budget.
    assert (HS : fold_right Qplus 0 (map (fun s => rho (key (E s))) segs)
                 == fold_right Qplus 0 (map (fun s => rho (key (E s))) segs')).
    { apply sum_Permutation. now apply Permutation_map. }
    split; intros H; (eapply Qle_trans; [|exact H]); rewrite HS; apply Qle_refl.
  - now apply energy_sum_Permutation.
Qed.

(** ** Lookup failures *)

(** The lookups of the script, settled by running it: among the components
    of the aircraft the symbol "W" is ambiguous unless the owner is named;
    in a hover segment the symbol "P" is ambiguous, "p_{ratio}" is not. *)
Lemma script_lookups (c : Config.t) :
  ~ Config.n c == 0 ->
  built (run false (main c))
    (fun st =>
       let ac := testAircraft st in
       let a := SimpleOnDemandAircraft.model ac in
       let comps := SimpleOnDemandAircraft.components ac in
       let battery := Battery.model (SimpleOnDemandAircraft.battery ac) in
       let hover := seg_model (OnDemandSizingMission.fs0 (testSizingMission st)) in
       (resolve [] (map m_vars comps) None "W" = inl AmbiguousVariableError
        /\ Forall (fun m => resolve [] (map m_vars comps) (Some (m_naming m)) "W"
                            = inr (get m "W")) comps
        /\ NoDup (map (fun m => key (get m "W")) comps)
        /\ resolve [] (map m_vars comps) None "MTOW" = inl UnresolvedVariableError)
       /\ (run false (getitem hover "P") = inl AmbiguousVariableError
           /\ run false (getitem hover "p_{ratio}")
              = inr (get (hd hover (instances "RotorsAero" hover)) "p_{ratio}")
           /\ run false (getitem hover "C") = inl UnresolvedVariableError)
       /\ ((get a "g" == get battery "g")%gp ∈ own_constraints a
           /\ (get a "C_{eff}" == get battery "C_{eff}")%gp ∈ own_constraints a
           /\ (get a "W_{noPassengers}"
               >= py_sum (map (fun m => var_expr (get m "W")) comps))%gp
              ∈ own_constraints a)).
Proof.
  intros Hn. config_cases c Hn; by_running.
Qed.

(** C4: a lookup that finds no variable of the name fails with
    [UnresolvedVariableError]; a lookup without owner path that finds the
    name under two different owners fails with [AmbiguousVariableError]. In
    the script: "W" looked up among the components of the aircraft, and "P"
    looked up in a hover segment, are ambiguous; the source names the owner
    ([c.topvar("W")] for each component [c]) and gets each component's own
    variable. *)
Theorem C4_lookup_failures (c : Config.t) (own : list Var) (refs : list (list Var))
    (owner_path : option Path) (symbol : string) (x y : Var) :
  ~ Config.n c == 0 ->
  ((forall z, z ∈ own ++ concat refs -> sym z <> symbol) ->
   resolve own refs owner_path symbol = inl UnresolvedVariableError)
  /\ (named symbol own = [] ->
      x ∈ concat refs -> y ∈ concat refs ->
      sym x = symbol -> sym y = symbol -> key x <> key y ->
      resolve own refs None symbol = inl AmbiguousVariableError)
  /\ built (run false (main c))
       (fun st =>
          let ac := testAircraft st in
          let comps := SimpleOnDemandAircraft.components ac in
          let hover := seg_model (OnDemandSizingMission.fs0 (testSizingMission st)) in
          resolve [] (map m_vars comps) None "W" = inl AmbiguousVariableError
          /\ Forall (fun m => resolve [] (map m_vars comps) (Some (m_naming m)) "W"
                              = inr (get m "W")) comps
          /\ run false (getitem hover "P") = inl AmbiguousVariableError).
Proof.
  intros Hn. split; [|split].
  - apply resolve_unresolved.
  - apply resolve_ambiguous.
  - apply (built_impl _ _ _ (script_lookups c Hn)).
    intros st ((H1 & H2 & _) & (H3 & _) & _). cbv zeta. now repeat split.
Qed.

(** ** Substitution targets *)

(** The table of lines 441-443 names the disk loading of the four hover
    segments of the sizing mission; these are in the flattened problem and
    free, so the table is accepted. A table that names the rotor weight,
    fixed at build time, or a variable that is not in the set, is not. *)
Lemma script_substitutions (c : Config.t) :
  ~ Config.n c == 0 ->
  built (run false (main c))
    (fun st =>
       let cs := flat_of (problem st) in
       let sm := testSizingMission st in
       let rotors := SimpleOnDemandAircraft.rotors (testAircraft st) in
       let hovers := map seg_model
         [OnDemandSizingMission.fs0 sm; OnDemandSizingMission.fs2 sm;
          OnDemandSizingMission.fs3 sm; OnDemandSizingMission.fs5 sm] in
       dom (substitutions st)
       = (list_to_set (map (fun h => key (get h "T/A")) hovers) : gset VarKey)
       /\ Forall (fun h => valid_target cs (key (get h "T/A")) = true) hovers
       /\ fst (apply_substitutions cs (substitutions st)) = inr tt
       /\ fst (apply_substitutions cs
                 (<[key (get rotors "W") := Num 5]> (substitutions st)))
          = inl SubstitutionTargetError
       /\ fst (apply_substitutions cs (<[([], "T/A") := Num 5]> (substitutions st)))
          = inl SubstitutionTargetError).
Proof.
  intros Hn. config_cases c Hn; by_running.
Qed.

(** C5: a table with an entry whose target is not in the flattened set, or
    is in it but already fixed, is rejected with [SubstitutionTargetError]
    wherever in the table the entry stands and whatever the other entries
    are, and the set is then as it was: no entry has been pinned. A table
    whose targets are all in the set and free is applied: the constraints
    and the names stay, every target is fixed at the value of its entry and
    every other variable is as it was. The table of the script is of the
    second kind. *)
Theorem C5_substitution_rejected (c : Config.t) (cs : Flat)
    (table : gmap VarKey value) :
  ~ Config.n c == 0 ->
  (forall k v,
     table !! k = Some v ->
     (lookup_var k cs = None
      \/ exists x w, lookup_var k cs = Some x /\ val x = Some w) ->
     apply_substitutions cs table = (inl SubstitutionTargetError, cs))
  /\ ((forall k v, table !! k = Some v -> valid_target cs k = true) ->
      exists cs',
        apply_substitutions cs table = (inr tt, cs')
        /\ fl_constraints cs' = fl_constraints cs
        /\ map key (fl_vars cs') = map key (fl_vars cs)
        /\ (forall k v, table !! k = Some v ->
            exists x, lookup_var k cs = Some x
                      /\ lookup_var k cs'
                         = Some (mkVar k (Some v) (unit x) (descr x)))
        /\ (forall k, table !! k = None -> lookup_var k cs' = lookup_var k cs))
  /\ built (run false (main c))
       (fun st =>
          let sm := testSizingMission st in
          let hovers := map seg_model
            [OnDemandSizingMission.fs0 sm; OnDemandSizingMission.fs2 sm;
             OnDemandSizingMission.fs3 sm; OnDemandSizingMission.fs5 sm] in
          dom (substitutions st)
          = (list_to_set (map (fun h => key (get h "T/A")) hovers) : gset VarKey)
          /\ fst (apply_substitutions (flat_of (problem st)) (substitutions st))
             = inr tt).
Proof.
  intros Hn. split; [|split].
  - intros k v Hk Hbad. rewrite apply_substitutions_unfold.
    assert (Hv : valid_target cs k = false).
    { unfold valid_target. destruct Hbad as [->|(x & w & -> & ->)]; reflexivity. }
    destruct (forallb _ _) eqn:Ef; [|reflexivity].
    rewrite forallb_forall in Ef.
    assert (Hin : In (k, v) (map_to_list table)).
    { apply list_elem_of_In. now apply elem_of_map_to_list. }
    specialize (Ef _ Hin). simpl in Ef. congruence.
  - intros Hall. exists (pin_all (map_to_list table) cs).
    split; [|split; [apply pin_all_constraints|split; [apply pin_all_keys|split]]].
    + rewrite apply_substitutions_unfold.
      destruct (forallb _ _) eqn:Ef; [reflexivity|].
      assert (Ht : forallb (fun e => valid_target cs (fst e)) (map_to_list table) = true).
      { apply forallb_forall. intros [k v] Hin. simpl.
        apply (Hall k v). apply elem_of_map_to_list. now apply list_elem_of_In. }
      congruence.
    + intros k v Hk. specialize (Hall k v Hk). unfold valid_target in Hall.
      destruct (lookup_var k cs) as [x|] eqn:El; [|discriminate].
      exists x. split; [reflexivity|].
      apply pin_all_target; [apply NoDup_fst_map_to_list| |exact El].
      now apply elem_of_map_to_list.
    + intros k Hk. apply pin_all_other. intros [k' v'] Hin E. simpl in E. subst k'.
      apply elem_of_map_to_list in Hin. congruence.
  - apply (built_impl _ _ _ (script_substitutions c Hn)).
    intros st (Hd & _ & Hok & _). cbv zeta. split; assumption.
Qed.

(** ** Instance paths *)

(** The paths, owners and names in the tree of the script. The flight state
    of a mission is one instance that the rotor models of the mission's
    hover segments share: it stands at several places of the tree. Every
    other instance stands at one place. *)
Lemma script_names (c : Config.t) :
  ~ Config.n c == 0 ->
  built (run false (main c))
    (fun st =>
       let tree := problem st in
       let sm := testSizingMission st in
       let hovers := map seg_model
         [OnDemandSizingMission.fs0 sm; OnDemandSizingMission.fs2 sm;
          OnDemandSizingMission.fs3 sm; OnDemandSizingMission.fs5 sm] in
       (Forall (fun h => m_name h = "Hover") hovers
        /\ NoDup (map m_naming hovers))
       /\ (map (fun tag => (tag, length (each_once [] (instances tag tree))))
               (model_types tree)
           = [("", 1%nat); ("SimpleOnDemandAircraft", 1%nat); ("Rotors", 1%nat);
              ("Battery", 1%nat); ("Crew", 1%nat); ("SimpleOnDemandStructure", 1%nat);
              ("PowerSystem", 1%nat); ("OnDemandSizingMission", 1%nat);
              ("OnDemandTypicalMission", 1%nat); ("Passengers", 2%nat);
              ("LevelFlight", 3%nat); ("Hover", 6%nat); ("RotorsAero", 6%nat);
              ("FlightState", 2%nat); ("BatteryPerformance", 9%nat);
              ("PowerSystemPerformance", 9%nat)]
           /\ Forall (fun tag => tag <> "FlightState" ->
                                 NoDup (map m_naming (instances tag tree)))
                     (model_types tree)
           /\ Forall (fun m => Forall (fun x => owner x = m_naming m) (m_vars m))
                     (nodes tree))
       /\ Forall (fun tag => names_distinct tree tag <-> tag <> "RotorsAero")
                 (model_types tree)
       /\ ("RotorsAero" ∈ model_types tree
           /\ length (each_once [] (instances "RotorsAero" tree)) = 6%nat
           /\ length (each_once [] (instances "FlightState" tree)) = 2%nat)
       /\ Forall (fun r =>
                    map key (named "CP" (m_vars r))
                    = [(m_naming r, "CP"); (m_naming r, "CP")]
                    /\ map descr (named "CP" (m_vars r))
                       = ["Power coefficient"; "Profile power coefficient"])
                 (instances "RotorsAero" tree)).
Proof.
  intros Hn. config_cases c Hn; by_running.
Qed.

(** C6, at the script: every new instance is given a path that no instance
    before it was given, the instances in the tree of the script have
    pairwise different paths, every variable is owned under the path of its
    model, and variables of instances with different paths have different
    qualified names. For every model type but one the qualified names of the
    variables that its instances own are pairwise distinct. The one is
    [RotorsAero]: line 80 names the profile power coefficient "CP", the name
    that line 78 gave the power coefficient, so each of its six instances
    owns two variables with one qualified name, and the qualified names are
    not pairwise distinct. Under checked declarations the script does not
    build. *)
Theorem C6_instance_paths (c : Config.t) (tag : string) (s : BuildState) :
  ~ Config.n c == 0 -> wf s ->
  (exists s', begin_model tag s = inr (next_path s tag, s')
     /\ (next_path s tag ∉ issued s)
     /\ issued s' = next_path s tag :: issued s
     /\ wf s')
  /\ (forall chk st s', main c (init chk) = inr (st, s') -> NoDup (issued s'))
  /\ run true (main c) = inl DuplicateSymbolError
  /\ built (run false (main c))
       (fun st =>
          let tree := problem st in
          let sm := testSizingMission st in
          let hovers := map seg_model
            [OnDemandSizingMission.fs0 sm; OnDemandSizingMission.fs2 sm;
             OnDemandSizingMission.fs3 sm; OnDemandSizingMission.fs5 sm] in
          (Forall (fun h => m_name h = "Hover") hovers
           /\ NoDup (map m_naming hovers)
           /\ Forall (fun t => t <> "FlightState" ->
                               NoDup (map m_naming (instances t tree)))
                     (model_types tree)
           /\ length (each_once [] (instances "FlightState" tree)) = 2%nat
           /\ Forall (fun m => Forall (fun x => owner x = m_naming m) (m_vars m))
                     (nodes tree)
           /\ forall m1 m2 x1 x2,
                m1 ∈ nodes tree -> m2 ∈ nodes tree ->
                x1 ∈ m_vars m1 -> x2 ∈ m_vars m2 ->
                m_naming m1 <> m_naming m2 -> key x1 <> key x2)
          /\ Forall (fun t => names_distinct tree t <-> t <> "RotorsAero")
                    (model_types tree)
          /\ "RotorsAero" ∈ model_types tree
          /\ length (each_once [] (instances "RotorsAero" tree)) = 6%nat
          /\ Forall (fun r =>
                       map key (named "CP" (m_vars r))
                       = [(m_naming r, "CP"); (m_naming r, "CP")]
                       /\ map descr (named "CP" (m_vars r))
                          = ["Power coefficient"; "Profile power coefficient"])
                    (instances "RotorsAero" tree)
          /\ ~ names_distinct tree "RotorsAero").
Proof.
  intros Hn Hwf. split; [|split; [|split]].
  - destruct (begin_model_fresh tag s Hwf) as (s' & E1 & Hf & Hi & _ & Hwf').
    exists s'. split; [exact E1|]. split; [exact Hf|]. split; [exact Hi|exact Hwf'].
  - intros chk st s'. apply main_paths_distinct.
  - apply main_checked.
  - apply (built_impl _ _ _ (script_names c Hn)).
    intros st ((Hh & Hnd) & (_ & Hpaths & Hown) & Hnames & (Hin & H6 & H2) & HCP).
    cbv zeta.
    split; [|split; [exact Hnames|split; [exact Hin|split; [exact H6|
             split; [exact HCP|]]]]].
    + split; [exact Hh|]. split; [exact Hnd|]. split; [exact Hpaths|].
      split; [exact H2|]. split; [exact Hown|].
      intros m1 m2 x1 x2 H1 H2' Hx1 Hx2 Hne Hk.
      rewrite Forall_forall in Hown.
      pose proof (proj1 (Forall_forall _ _) (Hown m1 H1) x1 Hx1) as O1.
      pose proof (proj1 (Forall_forall _ _) (Hown m2 H2') x2 Hx2) as O2.
      apply Hne. rewrite <- O1, <- O2. unfold owner. now rewrite Hk.
    + intros Hd. rewrite Forall_forall in Hnames.
      now apply (proj1 (Hnames _ Hin) Hd).
Qed.

(** ** Flattening the script's problem *)

(** The problem handed to the solver (line 449) is the composition of the
    aircraft and the two missions. *)
Lemma main_problem (c : Config.t) (s s' : BuildState) (st : Study) :
  main c s = inr (st, s') ->
  problem st
  = compose_models [SimpleOnDemandAircraft.model (testAircraft st);
                    OnDemandSizingMission.model (testSizingMission st);
                    OnDemandTypicalMission.model (testTypicalMission st)].
Proof.
  unfold main, bind, ret. intros H.
  repeat match type of H with
         | match ?m ?s0 with _ => _ end = _ =>
             destruct (m s0) as [?|[? ?]]; [discriminate|]
         end.
  inversion H; subst. reflexivity.
Qed.

Lemma children_subs (ms : list Model) : flat_map children_item (map ISub ms) = ms.
Proof. induction ms as [|m ms IH]; [reflexivity|]. simpl. now rewrite IH. Qed.

(** The composer holds the models it is given, in their order, and states
    nothing of its own. *)
Lemma compose_models_children (ms : list Model) :
  children (compose_models ms) = ms /\ own_constraints (compose_models ms) = [].
Proof.
  split.
  - unfold children, compose_models. simpl. apply children_subs.
  - unfold own_constraints, compose_models. simpl. apply own_item_subs.
Qed.

(** The aircraft states three constraints and holds its five components in
    one nested list (lines 31-36). *)
Lemma script_flatten (c : Config.t) :
  ~ Config.n c == 0 ->
  built (run false (main c))
    (fun st =>
       let ac := testAircraft st in
       let a := SimpleOnDemandAircraft.model ac in
       let b := Battery.model (SimpleOnDemandAircraft.battery ac) in
       own_constraints a
       = [(SimpleOnDemandAircraft.g ac == get b "g")%gp;
          (SimpleOnDemandAircraft.C_eff ac == get b "C_{eff}")%gp;
          (get a "W_{noPassengers}"
           >= py_sum (map var_expr (component_weights ac)))%gp]
       /\ map m_naming (children a)
          = map m_naming (SimpleOnDemandAircraft.components ac)
       /\ flatten a
          = own_constraints a
            ++ concat (map flatten (SimpleOnDemandAircraft.components ac))).
Proof.
  intros Hn. config_cases c Hn; by_running.
Qed.

(** C7: the flattened list of a model is its own constraints followed by the
    flattened lists of its children in the order it holds them; the composer
    holds the models it is given and its flattened list is the concatenation
    of theirs, so composing (A then B) then C and composing A then (B then C)
    both flatten to the lists of A, B and C in this order; reordering what a
    model holds permutes its flattened list, and a permutation of a
    constraint list has the same feasible valuations. In the script the
    aircraft flattens to its own three constraints followed by the lists of
    its five components, and the problem is the composition of the aircraft
    and the two missions. *)
Theorem C7_flattening (c : Config.t) (m A B C : Model) (ms : list Model)
    (n : string) (p : Path) (v : list Var) (its its' : list Item)
    (cs cs' : list constraint) (fpow : Q -> Q -> Q) (pi : Q) (rho : valuation) :
  ~ Config.n c == 0 -> Permutation its its' -> Permutation cs cs' ->
  flatten m = own_constraints m ++ concat (map flatten (children m))
  /\ (children (compose_models ms) = ms
      /\ own_constraints (compose_models ms) = []
      /\ flatten (compose_models ms) = concat (map flatten ms))
  /\ (flatten (compose_models [compose_models [A; B]; C])
      = flatten A ++ flatten B ++ flatten C
      /\ flatten (compose_models [A; compose_models [B; C]])
         = flatten A ++ flatten B ++ flatten C)
  /\ flatten (compose_models [compose_models [A; B]; C])
     = flatten (compose_models [A; compose_models [B; C]])
  /\ Permutation (flatten (compose_models [compose_models [A; B]; C]))
                 (flatten (compose_models [A; compose_models [B; C]]))
  /\ Permutation (flatten (MkModel n p v its)) (flatten (MkModel n p v its'))
  /\ (feasible fpow pi rho cs <-> feasible fpow pi rho cs')
  /\ Permutation (walk m) (flatten m)
  /\ built (run false (main c))
       (fun st =>
          let ac := testAircraft st in
          let a := SimpleOnDemandAircraft.model ac in
          let sm := OnDemandSizingMission.model (testSizingMission st) in
          let tm := OnDemandTypicalMission.model (testTypicalMission st) in
          (length (own_constraints a) = 3%nat
           /\ map m_naming (children a)
              = map m_naming (SimpleOnDemandAircraft.components ac)
           /\ flatten a
              = own_constraints a
                ++ concat (map flatten (SimpleOnDemandAircraft.components ac)))
          /\ problem st = compose_models [a; sm; tm]
          /\ flatten (problem st) = flatten a ++ flatten sm ++ flatten tm).
Proof.
  intros Hn Hits Hcs.
  assert (HL : flatten (compose_models [compose_models [A; B]; C])
               = flatten A ++ flatten B ++ flatten C).
  { rewrite (flatten_compose [compose_models [A; B]; C]).
    cbn [map concat]. rewrite flatten_compose. cbn [map concat].
    rewrite !app_nil_r. now rewrite <- app_assoc. }
  assert (HR : flatten (compose_models [A; compose_models [B; C]])
               = flatten A ++ flatten B ++ flatten C).
  { rewrite (flatten_compose [A; compose_models [B; C]]).
    cbn [map concat]. rewrite flatten_compose. cbn [map concat].
    now rewrite !app_nil_r. }
  split; [apply flatten_unfold|].
  split; [split; [apply compose_models_children|
                  split; [apply compose_models_children|apply flatten_compose]]|].
  split; [split; [exact HL|exact HR]|].
  split; [now rewrite HL, HR|].
  split; [now rewrite HL, HR|].
  split; [now apply flatten_reorder|].
  split; [now apply feasible_Permutation|].
  split; [apply walk_flatten|].
  apply (built_run_impl _ _ _ _ (script_flatten c Hn)).
  intros st s' H (Hown & Hkids & Hfl). cbv zeta.
  split; [split; [now rewrite Hown|split; [exact Hkids|exact Hfl]]|].
  split; [exact (main_problem _ _ _ _ H)|].
  rewrite (main_problem _ _ _ _ H), flatten_compose. simpl.
  now rewrite app_nil_r.
Qed.

(** ** Usable battery capacity *)

(** [Battery.setup] fixes the usable energy fraction at the value it is
    given, 0.8 if none is given, and states that the effective capacity is
    that fraction of the capacity. *)
Lemma Battery_usable_fraction (C_m usable_energy_fraction P_m : option value)
    (n : option Q) (chk : bool) :
  built (run chk (Battery.setup C_m usable_energy_fraction P_m n))
    (fun b =>
       val (get (Battery.model b) "usable_energy_fraction")
       = Some (default (Num 0.8) usable_energy_fraction))
  /\ built (run chk (Battery.setup C_m usable_energy_fraction P_m n))
    (fun b =>
       let m := Battery.model b in
       unit (get m "usable_energy_fraction") = "-"
       /\ own_constraints m
          = [(get m "C" == get m "m" * get m "C_m")%gp;
             (get m "W" == get m "m" * get m "g")%gp;
             (get m "C_{eff}" == get m "usable_energy_fraction" * get m "C")%gp;
             (get m "P_{max}" == get m "P_m" * get m "m")%gp]).
Proof.
  split.
  - destruct chk; vm_compute; constructor; reflexivity.
  - destruct chk; by_running.
Qed.

(** What running the script settles about the battery of the aircraft: the
    aircraft leaves the usable energy fraction at its default, and its
    effective capacity is the battery's. *)
Lemma script_battery (c : Config.t) :
  ~ Config.n c == 0 ->
  built (run false (main c))
    (fun st =>
       let ac := testAircraft st in
       let a := SimpleOnDemandAircraft.model ac in
       let b := Battery.model (SimpleOnDemandAircraft.battery ac) in
       let C_eff := SimpleOnDemandAircraft.C_eff ac in
       (val (get b "usable_energy_fraction") = Some (Num 0.8)
        /\ unit (get b "usable_energy_fraction") = "-")
       /\ ((get b "C_{eff}" == get b "usable_energy_fraction" * get b "C")%gp
             ∈ own_constraints b
           /\ (C_eff == get b "C_{eff}")%gp ∈ own_constraints a
           /\ budget C_eff (OnDemandSizingMission.segments (testSizingMission st))
                ∈ own_constraints (OnDemandSizingMission.model (testSizingMission st))
           /\ budget C_eff (OnDemandTypicalMission.segments (testTypicalMission st))
                ∈ own_constraints (OnDemandTypicalMission.model (testTypicalMission st)))
       /\ ((get b "C_{eff}" == get b "usable_energy_fraction" * get b "C")%gp
             ∈ flatten (problem st)
           /\ (C_eff == get b "C_{eff}")%gp ∈ flatten (problem st)
           /\ budget C_eff (OnDemandSizingMission.segments (testSizingMission st))
                ∈ flatten (problem st)
           /\ budget C_eff (OnDemandTypicalMission.segments (testTypicalMission st))
                ∈ flatten (problem st))).
Proof.
  intros Hn. config_cases c Hn; by_running.
Qed.

(** C8: the battery states [C_eff == usable_energy_fraction * C] with the
    fraction fixed at 0.8, the aircraft takes the battery's effective
    capacity for its own, and both missions bound their energy by it: in
    every valuation that is feasible for the flattened problem and gives the
    fraction its value, the energy of each mission is at most 0.8 times the
    battery capacity. *)
Theorem C8_usable_capacity (c : Config.t) (fpow : Q -> Q -> Q) (pi : Q)
    (rho : valuation) :
  ~ Config.n c == 0 ->
  built (run false (main c))
    (fun st =>
       let ac := testAircraft st in
       let a := SimpleOnDemandAircraft.model ac in
       let b := Battery.model (SimpleOnDemandAircraft.battery ac) in
       let C_eff := SimpleOnDemandAircraft.C_eff ac in
       let sm := testSizingMission st in
       let tm := testTypicalMission st in
       val (get b "usable_energy_fraction") = Some (Num 0.8)
       /\ unit (get b "usable_energy_fraction") = "-"
       /\ (get b "C_{eff}" == get b "usable_energy_fraction" * get b "C")%gp
            ∈ own_constraints b
       /\ (C_eff == get b "C_{eff}")%gp ∈ own_constraints a
       /\ budget C_eff (OnDemandSizingMission.segments sm)
            ∈ own_constraints (OnDemandSizingMission.model sm)
       /\ budget C_eff (OnDemandTypicalMission.segments tm)
            ∈ own_constraints (OnDemandTypicalMission.model tm)
       /\ (feasible fpow pi rho (flatten (problem st)) ->
           rho (key (get b "usable_energy_fraction")) == 0.8 ->
           total_energy rho (OnDemandSizingMission.segments sm)
             <= 0.8 * rho (key (get b "C"))
           /\ total_energy rho (OnDemandTypicalMission.segments tm)
                <= 0.8 * rho (key (get b "C")))).
Proof.
  intros Hn.
  apply (built_impl _ _ _ (script_battery c Hn)).
  intros st ((Hv & Hu) & (O1 & O2 & O3 & O4) & (F1 & F2 & F3 & F4)). cbv zeta.
  repeat (split; [assumption|]).
  intros HF Hfrac.
  pose proof (feasible_elem _ _ _ _ _ HF F1) as H1.
  pose proof (feasible_elem _ _ _ _ _ HF F2) as H2.
  pose proof (proj1 (holds_budget _ _ _ _ _) (feasible_elem _ _ _ _ _ HF F3)) as H3.
  pose proof (proj1 (holds_budget _ _ _ _ _) (feasible_elem _ _ _ _ _ HF F4)) as H4.
  simpl in H1, H2. unfold total_energy.
  assert (Hcap : rho (key (SimpleOnDemandAircraft.C_eff (testAircraft st)))
                 == 0.8 * rho (key (get (Battery.model
                      (SimpleOnDemandAircraft.battery (testAircraft st))) "C"))).
  { rewrite H2, H1, Hfrac. reflexivity. }
  split.
  - eapply Qle_trans; [exact H3|]. rewrite Hcap. apply Qle_refl.
  - eapply Qle_trans; [exact H4|]. rewrite Hcap. apply Qle_refl.
Qed.

(** ** Battery power *)

Lemma script_power (c : Config.t) :
  ~ Config.n c == 0 ->
  built (run false (main c))
    (fun st =>
       let battery := SimpleOnDemandAircraft.battery (testAircraft st) in
       let b := Battery.model battery in
       let P_max := Battery.P_max battery in
       (P_max = get b "P_{max}"
        /\ (P_max == get b "P_m" * get b "m")%gp ∈ own_constraints b
        /\ (P_max == get b "P_m" * get b "m")%gp ∈ flatten (problem st))
       /\ (length (instances "BatteryPerformance" (problem st)) = 9%nat
           /\ Forall (fun bp => power_bound P_max bp ∈ own_constraints bp
                                /\ power_bound P_max bp ∈ flatten (problem st))
                     (instances "BatteryPerformance" (problem st)))
       /\ Forall (fun seg =>
                    length (instances "BatteryPerformance" (seg_model seg)) = 1%nat
                    /\ power_draw seg ∈ own_constraints (seg_model seg)
                    /\ power_draw seg ∈ flatten (problem st)
                    /\ power_bound P_max (batteryPerf_of seg) ∈ flatten (problem st))
                 (all_segments st)).
Proof.
  intros Hn. config_cases c Hn; by_running.
Qed.

(** C9: every battery performance model states [P <= battery.P_max], the
    battery states [P_max == P_m * m], and every flight segment draws its
    battery power from its own battery performance model: in every valuation
    that is feasible for the flattened problem, the battery power of every
    segment is at most the power density of the battery times its mass. *)
Theorem C9_battery_power (c : Config.t) (fpow : Q -> Q -> Q) (pi : Q)
    (rho : valuation) :
  ~ Config.n c == 0 ->
  built (run false (main c))
    (fun st =>
       let battery := SimpleOnDemandAircraft.battery (testAircraft st) in
       let b := Battery.model battery in
       let P_max := Battery.P_max battery in
       (P_max == get b "P_m" * get b "m")%gp ∈ own_constraints b
       /\ Forall (fun bp => (get bp "P" <= P_max)%gp ∈ own_constraints bp)
                 (instances "BatteryPerformance" (problem st))
       /\ Forall (fun seg =>
                    (get (seg_model seg) "P_{battery}" == get (batteryPerf_of seg) "P")%gp
                      ∈ own_constraints (seg_model seg))
                 (all_segments st)
       /\ (feasible fpow pi rho (flatten (problem st)) ->
           Forall (fun seg =>
                     rho (key (get (seg_model seg) "P_{battery}"))
                     <= rho (key (get b "P_m")) * rho (key (get b "m")))
                  (all_segments st))).
Proof.
  intros Hn.
  apply (built_impl _ _ _ (script_power c Hn)).
  intros st ((HP & OB & FB) & (_ & Hbp) & Hseg). cbv zeta.
  split; [exact OB|]. split; [|split].
  - eapply Forall_impl; [exact Hbp|]. intros bp [H _]. exact H.
  - eapply Forall_impl; [exact Hseg|]. intros seg (_ & H & _). exact H.
  - intros HF.
    pose proof (feasible_elem _ _ _ _ _ HF FB) as HB. simpl in HB.
    eapply Forall_impl; [exact Hseg|].
    intros seg (_ & _ & HD & HL).
    pose proof (feasible_elem _ _ _ _ _ HF HD) as H1.
    pose proof (feasible_elem _ _ _ _ _ HF HL) as H2.
    unfold power_draw, power_bound in H1, H2. simpl in H1, H2.
    rewrite H1. eapply Qle_trans; [exact H2|]. rewrite HB. apply Qle_refl.
Qed.

(** ** Component weights *)

Lemma aircraft_weights (N L_D eta_cruise weight_fraction C_m : value)
    (N_crew : option value) (n : option Q) (eta_electric : option value)
    (chk : bool) :
  built (run chk (SimpleOnDemandAircraft.setup N L_D eta_cruise weight_fraction
                    C_m N_crew n eta_electric))
    (fun ac =>
       let a := SimpleOnDemandAircraft.model ac in
       let rotors := SimpleOnDemandAircraft.rotors ac in
       let powerSystem := PowerSystem.model (SimpleOnDemandAircraft.powerSystem ac) in
       (val (get rotors "W") = Some (Num 0) /\ unit (get rotors "W") = "lbf")
       /\ (val (get powerSystem "W") = Some (Num 0)
           /\ unit (get powerSystem "W") = "lbf")
       /\ Forall (fun w => val w = None)
            [get (Battery.model (SimpleOnDemandAircraft.battery ac)) "W";
             get (SimpleOnDemandAircraft.crew ac) "W";
             get (SimpleOnDemandAircraft.structure ac) "W"]
       /\ List.filter (bounded_by (get a "W_{noPassengers}")) (own_constraints a)
          = [(get a "W_{noPassengers}"
              >= py_sum (map var_expr (component_weights ac)))%gp]).
Proof. destruct chk; by_running. Qed.

(** C10: the rotor weight and the weight of the electrical power system are
    fixed at 0 lbf, and the aircraft states [W_{noPassengers} >= 0 + W_rotors
    + W_battery + W_crew + W_structure + W_powerSystem]: in a valuation that
    gives the two fixed weights their value, the bound holds exactly when
    the weight without passengers is at least the sum of the battery, crew
    and structure weights. *)
Theorem C10_zero_weights (N L_D eta_cruise weight_fraction C_m : value)
    (N_crew : option value) (n : option Q) (eta_electric : option value)
    (chk : bool) (fpow : Q -> Q -> Q) (pi : Q) (rho : valuation) :
  built (run chk (SimpleOnDemandAircraft.setup N L_D eta_cruise weight_fraction
                    C_m N_crew n eta_electric))
    (fun ac =>
       let a := SimpleOnDemandAircraft.model ac in
       let W_rotors := get (SimpleOnDemandAircraft.rotors ac) "W" in
       let W_battery := get (Battery.model (SimpleOnDemandAircraft.battery ac)) "W" in
       let W_crew := get (SimpleOnDemandAircraft.crew ac) "W" in
       let W_structure := get (SimpleOnDemandAircraft.structure ac) "W" in
       let W_powerSystem :=
         get (PowerSystem.model (SimpleOnDemandAircraft.powerSystem ac)) "W" in
       let weight_bound :=
         (get a "W_{noPassengers}"
          >= ENum 0 + W_rotors + W_battery + W_crew + W_structure + W_powerSystem)%gp in
       val W_rotors = Some (Num 0) /\ unit W_rotors = "lbf"
       /\ val W_powerSystem = Some (Num 0) /\ unit W_powerSystem = "lbf"
       /\ val W_battery = None /\ val W_crew = None /\ val W_structure = None
       /\ List.filter (bounded_by (get a "W_{noPassengers}")) (own_constraints a)
          = [weight_bound]
       /\ (rho (key W_rotors) == 0 -> rho (key W_powerSystem) == 0 ->
           (holds fpow pi rho weight_bound
            <-> rho (key W_battery) + rho (key W_crew) + rho (key W_structure)
                <= rho (key (get a "W_{noPassengers}"))))).
Proof.
  apply (built_impl _ _ _ (aircraft_weights N L_D eta_cruise weight_fraction C_m
                             N_crew n eta_electric chk)).
  intros ac ((Hr & Ur) & (Hp & Up) & Hfree & Hb). cbv zeta.
  inversion Hfree as [|? ? Hb1 Hfree1]; subst.
  inversion Hfree1 as [|? ? Hb2 Hfree2]; subst.
  inversion Hfree2 as [|? ? Hb3 _]; subst.
  repeat (split; [assumption|]).
  intros H0 H1. simpl.
  split; intros H.
  - eapply Qle_trans; [|exact H]. rewrite H0, H1. ring_simplify. apply Qle_refl.
  - eapply Qle_trans; [|exact H]. rewrite H0, H1. ring_simplify. apply Qle_refl.
Qed.

(** ** The theorems at the configuration of the script *)

Lemma joby_discharge : ~ Config.n joby == 0.
Proof. vm_compute. discriminate. Qed.

(** It is feasible for the flattened problem of the script. *)
Lemma rho0_feasible :
  built (run false (main joby))
    (fun st => forallb (holdsb fpow0 0 rho0) (flatten (problem st)) = true).
Proof. by_running. Qed.

Lemma C3_energy_budget_witness :
  ~ Config.n joby == 0
  /\ Permutation [seg_a; seg_b] [seg_b; seg_a]
  /\ built (run false (main joby))
       (fun st =>
          List.filter (bounded_by (SimpleOnDemandAircraft.C_eff (testAircraft st)))
            (own_constraints (OnDemandTypicalMission.model (testTypicalMission st)))
          = [budget (SimpleOnDemandAircraft.C_eff (testAircraft st))
               (OnDemandTypicalMission.segments (testTypicalMission st))])
  /\ eval fpow0 0 rho0 (energy_sum [seg_a; seg_b])
     == eval fpow0 0 rho0 (energy_sum [seg_b; seg_a]).
Proof.
  assert (HP : Permutation [seg_a; seg_b] [seg_b; seg_a]) by apply perm_swap.
  destruct (C3_energy_budget joby fpow0 0 rho0 (E seg_a) [seg_a; seg_b]
              [seg_b; seg_a] joby_discharge HP) as (Hb & _ & Hs).
  split; [exact joby_discharge|]. split; [exact HP|]. split; [|exact Hs].
  apply (built_impl _ _ _ Hb). intros st (_ & _ & H & _). exact H.
Defined.

Lemma C4_lookup_failures_witness :
  ~ Config.n joby == 0
  /\ (forall z, z ∈ [] ++ concat [[W_rotors0]; [W_crew0]] -> sym z <> "MTOW")
  /\ resolve [] [[W_rotors0]; [W_crew0]] None "MTOW" = inl UnresolvedVariableError
  /\ named "W" [] = []
  /\ W_rotors0 ∈ concat [[W_rotors0]; [W_crew0]]
  /\ W_crew0 ∈ concat [[W_rotors0]; [W_crew0]]
  /\ key W_rotors0 <> key W_crew0
  /\ resolve [] [[W_rotors0]; [W_crew0]] None "W" = inl AmbiguousVariableError
  /\ built (run false (main joby))
       (fun st =>
          resolve [] (map m_vars (SimpleOnDemandAircraft.components (testAircraft st)))
            None "W" = inl AmbiguousVariableError).
Proof.
  assert (H0 : forall z, z ∈ [] ++ concat [[W_rotors0]; [W_crew0]] -> sym z <> "MTOW").
  { intros z Hz. simpl in Hz.
    apply elem_of_cons in Hz. destruct Hz as [->|Hz]; [discriminate|].
    apply list_elem_of_singleton in Hz. subst. discriminate. }
  assert (H1 : W_rotors0 ∈ concat [[W_rotors0]; [W_crew0]]).
  { simpl. apply elem_of_cons. now left. }
  assert (H2 : W_crew0 ∈ concat [[W_rotors0]; [W_crew0]]).
  { simpl. apply elem_of_cons. right. apply elem_of_cons. now left. }
  assert (H3 : key W_rotors0 <> key W_crew0) by discriminate.
  destruct (C4_lookup_failures joby [] [[W_rotors0]; [W_crew0]] None "MTOW"
              W_rotors0 W_crew0 joby_discharge) as (HU & _ & Hb).
  destruct (C4_lookup_failures joby [] [[W_rotors0]; [W_crew0]] None "W"
              W_rotors0 W_crew0 joby_discharge) as (_ & HA & _).
  split; [exact joby_discharge|]. split; [exact H0|].
  split; [exact (HU H0)|]. split; [reflexivity|].
  split; [exact H1|]. split; [exact H2|]. split; [exact H3|].
  split; [exact (HA eq_refl H1 H2 eq_refl eq_refl H3)|].
  apply (built_impl _ _ _ Hb). intros st (H & _). exact H.
Defined.

Lemma C5_substitution_rejected_witness :
  ~ Config.n joby == 0
  /\ table0 !! key W_rotors0 = Some (Num 5)
  /\ (exists x w, lookup_var (key W_rotors0) cs0 = Some x /\ val x = Some w)
  /\ valid_target cs0 (key R0) = true
  /\ apply_substitutions cs0 table0 = (inl SubstitutionTargetError, cs0)
  /\ (forall k v, ({[key R0 := Num 3]} : gmap VarKey value) !! k = Some v ->
      valid_target cs0 k = true)
  /\ exists cs', apply_substitutions cs0 {[key R0 := Num 3]} = (inr tt, cs')
       /\ lookup_var (key R0) cs' = Some (mkVar (key R0) (Some (Num 3)) "ft" "").
Proof.
  assert (H1 : table0 !! key W_rotors0 = Some (Num 5)) by (vm_compute; reflexivity).
  assert (H2 : exists x w, lookup_var (key W_rotors0) cs0 = Some x /\ val x = Some w).
  { exists W_rotors0, (Num 0). split; vm_compute; reflexivity. }
  assert (H3 : forall k v, ({[key R0 := Num 3]} : gmap VarKey value) !! k = Some v ->
                           valid_target cs0 k = true).
  { intros k v Hk. apply lookup_singleton_Some in Hk. destruct Hk as [<- _].
    vm_compute. reflexivity. }
  destruct (C5_substitution_rejected joby cs0 table0 joby_discharge) as (Ha & _ & _).
  destruct (C5_substitution_rejected joby cs0 {[key R0 := Num 3]} joby_discharge)
    as (_ & Hb & _).
  destruct (Hb H3) as (cs' & E & _ & _ & Hpin & _).
  assert (H4 : ({[key R0 := Num 3]} : gmap VarKey value) !! key R0 = Some (Num 3))
    by (vm_compute; reflexivity).
  destruct (Hpin (key R0) (Num 3) H4) as (x & Hx & Hx').
  split; [exact joby_discharge|]. split; [exact H1|]. split; [exact H2|].
  split; [vm_compute; reflexivity|].
  split; [exact (Ha _ _ H1 (or_intror H2))|]. split; [exact H3|].
  exists cs'. split; [exact E|].
  vm_compute in Hx. injection Hx as <-. exact Hx'.
Defined.

Lemma C6_instance_paths_witness :
  ~ Config.n joby == 0 /\ wf (init false)
  /\ (exists s', begin_model "Hover" (init false) = inr ([("Hover", 0%nat)], s')
        /\ issued s' = [[("Hover", 0%nat)]])
  /\ built (run false (main joby))
       (fun st =>
          NoDup (map (fun s => m_naming (seg_model s))
                   [OnDemandSizingMission.fs0 (testSizingMission st);
                    OnDemandSizingMission.fs2 (testSizingMission st);
                    OnDemandSizingMission.fs3 (testSizingMission st);
                    OnDemandSizingMission.fs5 (testSizingMission st)])
          /\ names_distinct (problem st) "Hover"
          /\ ~ names_distinct (problem st) "RotorsAero").
Proof.
  destruct (C6_instance_paths joby "Hover" (init false) joby_discharge
              (wf_init false)) as ((s' & E1 & _ & Hi & _) & _ & _ & Hb).
  split; [exact joby_discharge|]. split; [exact (wf_init false)|].
  split.
  - exists s'. split; [exact E1|exact Hi].
  - assert (HH : built (run false (main joby))
              (fun st => "Hover" ∈ model_types (problem st))) by by_running.
    apply (built_impl _ _ _ (built_and _ _ _ HH Hb)).
    intros st (Hin & (_ & H & _) & Hnames & _ & _ & _ & Hnot).
    split; [exact H|]. split; [|exact Hnot].
    rewrite Forall_forall in Hnames. apply (Hnames _ Hin). discriminate.
Defined.

Lemma C7_flattening_witness :
  let A := MkModel "A" [("A", 0%nat)] [] [ICon (R0 == R0)%gp] in
  let B := MkModel "B" [("B", 0%nat)] [] [ICon (W_rotors0 == W_rotors0)%gp] in
  let C := MkModel "C" [("C", 0%nat)] [] [ICon (W_crew0 == W_crew0)%gp] in
  ~ Config.n joby == 0
  /\ Permutation [ISub A; ISub B] [ISub B; ISub A]
  /\ Permutation [(R0 == R0)%gp; (W_crew0 <= R0)%gp] [(W_crew0 <= R0)%gp; (R0 == R0)%gp]
  /\ flatten (compose_models [compose_models [A; B]; C])
     = [(R0 == R0)%gp; (W_rotors0 == W_rotors0)%gp; (W_crew0 == W_crew0)%gp]
  /\ flatten (compose_models [A; compose_models [B; C]])
     = [(R0 == R0)%gp; (W_rotors0 == W_rotors0)%gp; (W_crew0 == W_crew0)%gp]
  /\ Permutation (flatten (MkModel "" [] [] [ISub A; ISub B]))
                 (flatten (MkModel "" [] [] [ISub B; ISub A]))
  /\ (feasible fpow0 0 rho0 [(R0 == R0)%gp; (W_crew0 <= R0)%gp]
      <-> feasible fpow0 0 rho0 [(W_crew0 <= R0)%gp; (R0 == R0)%gp]).
Proof.
  intros A B C.
  assert (H1 : Permutation [ISub A; ISub B] [ISub B; ISub A]) by apply perm_swap.
  assert (H2 : Permutation [(R0 == R0)%gp; (W_crew0 <= R0)%gp]
                           [(W_crew0 <= R0)%gp; (R0 == R0)%gp]) by apply perm_swap.
  destruct (C7_flattening joby A A B C [A; B] "" [] [] _ _ _ _ fpow0 0 rho0
              joby_discharge H1 H2) as (_ & _ & (HL & HR) & _ & _ & Hr & Hf & _).
  split; [exact joby_discharge|]. split; [exact H1|]. split; [exact H2|].
  split; [exact HL|]. split; [exact HR|]. split; [exact Hr|exact Hf].
Defined.

Lemma C8_usable_capacity_witness :
  ~ Config.n joby == 0
  /\ built (run false (main joby))
       (fun st =>
          let b := Battery.model (SimpleOnDemandAircraft.battery (testAircraft st)) in
          feasible fpow0 0 rho0 (flatten (problem st))
          /\ rho0 (key (get b "usable_energy_fraction")) == 0.8
          /\ total_energy rho0 (OnDemandSizingMission.segments (testSizingMission st))
             <= 0.8 * rho0 (key (get b "C"))).
Proof.
  split; [exact joby_discharge|].
  assert (Hfrac : built (run false (main joby))
            (fun st => Qeq_bool (rho0 (key (get (Battery.model
               (SimpleOnDemandAircraft.battery (testAircraft st)))
               "usable_energy_fraction"))) 0.8 = true)) by by_running.
  pose proof (built_and _ _ _
                (built_and _ _ _ rho0_feasible Hfrac)
                (C8_usable_capacity joby fpow0 0 rho0 joby_discharge)) as H.
  apply (built_impl _ _ _ H). cbv zeta.
  intros st ((HF & HQ) & (_ & _ & _ & _ & _ & _ & HC)).
  apply feasible_forallb in HF. apply Qeq_bool_iff in HQ.
  split; [exact HF|]. split; [exact HQ|]. exact (proj1 (HC HF HQ)).
Defined.

Lemma C9_battery_power_witness :
  ~ Config.n joby == 0
  /\ built (run false (main joby))
       (fun st =>
          let b := Battery.model (SimpleOnDemandAircraft.battery (testAircraft st)) in
          feasible fpow0 0 rho0 (flatten (problem st))
          /\ Forall (fun seg =>
                       rho0 (key (get (seg_model seg) "P_{battery}"))
                       <= rho0 (key (get b "P_m")) * rho0 (key (get b "m")))
                    (all_segments st)).
Proof.
  split; [exact joby_discharge|].
  pose proof (built_and _ _ _ rho0_feasible
                (C9_battery_power joby fpow0 0 rho0 joby_discharge)) as H.
  apply (built_impl _ _ _ H). cbv zeta.
  intros st (HF & (_ & _ & _ & HC)).
  apply feasible_forallb in HF.
  split; [exact HF|]. exact (HC HF).
Defined.

Lemma C10_zero_weights_witness :
  built (run false (SimpleOnDemandAircraft.setup (Num 12) (Num 14) (Num 0.85)
                      (Num 0.3444) (Qty 400 "Wh/kg") (Some (Num 1)) (Some 1)
                      (Some (Num 0.95))))
    (fun ac =>
       let a := SimpleOnDemandAircraft.model ac in
       let W_rotors := get (SimpleOnDemandAircraft.rotors ac) "W" in
       let W_powerSystem :=
         get (PowerSystem.model (SimpleOnDemandAircraft.powerSystem ac)) "W" in
       rho0 (key W_rotors) == 0 /\ rho0 (key W_powerSystem) == 0
       /\ val W_rotors = Some (Num 0) /\ val W_powerSystem = Some (Num 0)).
Proof.
  pose proof (C10_zero_weights (Num 12) (Num 14) (Num 0.85) (Num 0.3444)
                (Qty 400 "Wh/kg") (Some (Num 1)) (Some 1) (Some (Num 0.95))
                false fpow0 0 rho0) as H.
  assert (H0 : built (run false (SimpleOnDemandAircraft.setup (Num 12) (Num 14)
                 (Num 0.85) (Num 0.3444) (Qty 400 "Wh/kg") (Some (Num 1)) (Some 1)
                 (Some (Num 0.95))))
            (fun ac =>
               Qeq_bool (rho0 (key (get (SimpleOnDemandAircraft.rotors ac) "W"))) 0 = true
               /\ Qeq_bool (rho0 (key (get (PowerSystem.model
                    (SimpleOnDemandAircraft.powerSystem ac)) "W"))) 0 = true))
    by by_running.
  apply (built_impl _ _ _ (built_and _ _ _ H0 H)). cbv zeta.
  intros ac ((Q1 & Q2) & (V1 & _ & V2 & _)).
  apply Qeq_bool_iff in Q1, Q2.
  split; [exact Q1|]. split; [exact Q2|]. split; [exact V1|exact V2].
Defined.

(** * Further properties *)

(** ** The discharge parameter *)







(** Split a statement about an explicit list into one hypothesis per
    element. *)
Ltac split_Forall H :=
  repeat match type of H with
         | Forall _ (_ :: _) =>
             let H1 := fresh "Hc" in
             apply Forall_cons in H; destruct H as [H1 H];
             cbn [holds eval var_expr] in H1
         end;
  clear H.

Lemma Forall_both {A} (P R : A -> Prop) (l : list A) :
  Forall P l -> Forall R l -> Forall (fun x => P x /\ R x) l.
Proof.
  intros HP. induction HP as [|x l Hx HP IH]; intros HR.
  - apply List.Forall_nil.
  - apply Forall_cons in HR. destruct HR as [Hr HR].
    apply List.Forall_cons; [now split|now apply IH].
Qed.
(** ** Hover segments *)

(** What running the script settles about its hover segments. *)
Lemma script_hovers (c : Config.t) :
  ~ Config.n c == 0 ->
  built (run false (main c))
    (fun st =>
       let ac := testAircraft st in
       let rotors := SimpleOnDemandAircraft.rotors ac in
       let eta := PowerSystem.eta (SimpleOnDemandAircraft.powerSystem ac) in
       (OnDemandSizingMission.W (testSizingMission st)
        = get (OnDemandSizingMission.model (testSizingMission st)) "W_{mission}"
        /\ OnDemandTypicalMission.W (testTypicalMission st)
           = get (OnDemandTypicalMission.model (testTypicalMission st)) "W_{mission}"
        /\ key eta = key (get (PowerSystem.model
                                 (SimpleOnDemandAircraft.powerSystem ac)) "eta"))
       /\ Forall (fun ws =>
            let W := fst ws in
            let seg := snd ws in
            let h := seg_model seg in
            let r := rotorPerf_of seg in
            let p := powerSystemPerf_of seg in
            (m_name h = "Hover"
             /\ length (instances "RotorsAero" h) = 1%nat
             /\ length (instances "PowerSystemPerformance" h) = 1%nat)
            /\ own_constraints h = hover_constraints W seg
            /\ own_constraints p = powerSystemPerf_constraints eta p
            /\ (thrust_split rotors r ∈ own_constraints r
                /\ rotor_disk_loading rotors r ∈ own_constraints r)
            /\ Forall (fun x => x ∈ flatten (problem st))
                 (hover_constraints W seg ++ powerSystemPerf_constraints eta p
                  ++ [thrust_split rotors r; rotor_disk_loading rotors r]))
          (hover_segments st)).
Proof.
  intros Hn. config_cases c Hn; by_running.
Qed.

(** X2: a hover segment sets its thrust equal to the thrust of its rotor
    model and to the weight of its mission (lines 238 and 244), and the rotor
    model splits its thrust evenly over the rotors (line 105). These
    constraints are in the flattened problem of the script, and every
    valuation that satisfies them gives the rotor model of the segment a
    thrust equal to the mission weight, which is the number of rotors times
    the thrust per rotor. *)
Theorem X2_hover_thrust (c : Config.t) (fpow : Q -> Q -> Q) (pi : Q)
    (rho : valuation) :
  ~ Config.n c == 0 ->
  built (run false (main c))
    (fun st =>
       let rotors := SimpleOnDemandAircraft.rotors (testAircraft st) in
       Forall (fun ws =>
            let h := seg_model (snd ws) in
            let r := rotorPerf_of (snd ws) in
            let stated := hover_constraints (fst ws) (snd ws)
                          ++ [thrust_split rotors r] in
            (own_constraints h = hover_constraints (fst ws) (snd ws)
             /\ thrust_split rotors r ∈ own_constraints r
             /\ Forall (fun x => x ∈ flatten (problem st)) stated)
            /\ (feasible fpow pi rho stated ->
                rho (key (get r "T")) == rho (key (fst ws))
                /\ rho (key (fst ws))
                   == rho (key (get rotors "N")) * rho (key (get r "T_perRotor"))))
         (hover_segments st)).
Proof.
  intros Hn. apply (built_impl _ _ _ (script_hovers c Hn)).
  intros st (_ & Hall). cbv zeta.
  eapply Forall_impl; [exact Hall|].
  intros [W seg] (_ & Hown & _ & (Hsplit & _) & Hin). cbn [fst snd] in *.
  split.
  - split; [exact Hown|]. split; [exact Hsplit|].
    apply Forall_app in Hin. destruct Hin as [Hh Hin].
    apply Forall_app in Hin. destruct Hin as [_ Hin].
    apply Forall_cons in Hin. destruct Hin as [Hs _].
    apply Forall_app. split; [exact Hh|].
    apply List.Forall_cons; [exact Hs|apply List.Forall_nil].
  - intros H. unfold feasible, hover_constraints, thrust_split in H.
    cbv zeta in H. cbn [app] in H. split_Forall H. split.
    + rewrite <- Hc0. exact Hc7.
    + rewrite <- Hc7. rewrite Hc0. exact Hc8.
Qed.

(** X3: a hover segment takes its rotor power from its rotor model and from
    the output of its power system model, and its battery power from the
    input of the power system model and from its battery model (lines
    238-243); the power system model scales input to output by the
    efficiency (line 206). These constraints are in the flattened problem of
    the script, and every valuation that satisfies them gives the rotors the
    efficiency times the power drawn from the battery. *)
Theorem X3_hover_power (c : Config.t) (fpow : Q -> Q -> Q) (pi : Q)
    (rho : valuation) :
  ~ Config.n c == 0 ->
  built (run false (main c))
    (fun st =>
       let eta := PowerSystem.eta (SimpleOnDemandAircraft.powerSystem (testAircraft st)) in
       Forall (fun ws =>
            let h := seg_model (snd ws) in
            let p := powerSystemPerf_of (snd ws) in
            let stated := hover_constraints (fst ws) (snd ws)
                          ++ powerSystemPerf_constraints eta p in
            (own_constraints h = hover_constraints (fst ws) (snd ws)
             /\ own_constraints p = powerSystemPerf_constraints eta p
             /\ Forall (fun x => x ∈ flatten (problem st)) stated)
            /\ (feasible fpow pi rho stated ->
                rho (key (get (rotorPerf_of (snd ws)) "P"))
                == rho (key eta) * rho (key (get (batteryPerf_of (snd ws)) "P"))))
         (hover_segments st)).
Proof.
  intros Hn. apply (built_impl _ _ _ (script_hovers c Hn)).
  intros st (_ & Hall). cbv zeta.
  eapply Forall_impl; [exact Hall|].
  intros [W seg] (_ & Hown & Hp & _ & Hin). cbn [fst snd] in *.
  split.
  - split; [exact Hown|]. split; [exact Hp|].
    apply Forall_app in Hin. destruct Hin as [Hh Hin].
    apply Forall_app in Hin. destruct Hin as [Hq _].
    apply Forall_app. split; assumption.
  - intros H. unfold feasible, hover_constraints, powerSystemPerf_constraints in H.
    cbv zeta in H. cbn [app] in H. split_Forall H.
    rewrite <- Hc, Hc3, Hc8. rewrite <- Hc2, Hc5. reflexivity.
Qed.

(** X4: a hover segment takes its disk loading from its rotor model (line
    239), where it is the thrust over the combined disk area of the one
    rotor system of the aircraft (line 109). These constraints are in the
    flattened problem of the script, and every valuation that satisfies
    them with a disk area other than zero gives the segment, of either
    mission, a disk loading that times that area is the weight of its
    mission. *)
Theorem X4_disk_loading (c : Config.t) (fpow : Q -> Q -> Q) (pi : Q)
    (rho : valuation) :
  ~ Config.n c == 0 ->
  built (run false (main c))
    (fun st =>
       let rotors := SimpleOnDemandAircraft.rotors (testAircraft st) in
       Forall (fun ws =>
            let h := seg_model (snd ws) in
            let r := rotorPerf_of (snd ws) in
            let stated := hover_constraints (fst ws) (snd ws)
                          ++ [rotor_disk_loading rotors r] in
            (own_constraints h = hover_constraints (fst ws) (snd ws)
             /\ rotor_disk_loading rotors r ∈ own_constraints r
             /\ Forall (fun x => x ∈ flatten (problem st)) stated)
            /\ (feasible fpow pi rho stated ->
                ~ rho (key (get rotors "A_{total}")) == 0 ->
                rho (key (get h "T/A")) * rho (key (get rotors "A_{total}"))
                == rho (key (fst ws))))
         (hover_segments st)).
Proof.
  intros Hn. apply (built_impl _ _ _ (script_hovers c Hn)).
  intros st (_ & Hall). cbv zeta.
  eapply Forall_impl; [exact Hall|].
  intros [W seg] (_ & Hown & _ & (_ & Hd) & Hin). cbn [fst snd] in *.
  split.
  - split; [exact Hown|]. split; [exact Hd|].
    apply Forall_app in Hin. destruct Hin as [Hh Hin].
    apply Forall_app in Hin. destruct Hin as [_ Hin].
    apply Forall_cons in Hin. destruct Hin as [_ Hin].
    apply Forall_app. split; assumption.
  - intros H HA. unfold feasible, hover_constraints, rotor_disk_loading in H.
    cbv zeta in H. cbn [app] in H. split_Forall H.
    rewrite Hc1, Hc8. rewrite <- Hc0, Hc7. field. exact HA.
Qed.

(** ** Level-flight segments *)

Lemma script_levels (c : Config.t) :
  ~ Config.n c == 0 ->
  built (run false (main c))
    (fun st =>
       let ac := testAircraft st in
       let eta := PowerSystem.eta (SimpleOnDemandAircraft.powerSystem ac) in
       let L_D := SimpleOnDemandAircraft.L_D ac in
       let eta_cruise := SimpleOnDemandAircraft.eta_cruise ac in
       (key L_D = key (get (SimpleOnDemandAircraft.model ac) "L_D")
        /\ key eta_cruise = key (get (SimpleOnDemandAircraft.model ac) "\eta"))
       /\ Forall (fun ws =>
            let W := fst ws in
            let seg := snd ws in
            let l := seg_model seg in
            let p := powerSystemPerf_of seg in
            (m_name l = "LevelFlight"
             /\ length (instances "PowerSystemPerformance" l) = 1%nat
             /\ length (instances "RotorsAero" l) = 0%nat)
            /\ own_constraints l = level_constraints L_D eta_cruise W seg
            /\ own_constraints p = powerSystemPerf_constraints eta p
            /\ Forall (fun x => x ∈ flatten (problem st))
                 (level_constraints L_D eta_cruise W seg
                  ++ powerSystemPerf_constraints eta p))
          (level_segments st)
       /\ Forall (fun ms =>
            let l := seg_model (snd ms) in
            (mission_range (fst ms) l ∈ own_constraints (fst ms)
             /\ segment_range l ∈ own_constraints l)
            /\ Forall (fun x => x ∈ flatten (problem st))
                 [mission_range (fst ms) l; segment_range l])
          (cruise_segments st)).
Proof.
  intros Hn. config_cases c Hn; by_running.
Qed.

(** X5: a level-flight segment balances thrust and drag, carries the mission
    weight at the lift-to-drag ratio of the aircraft, and converts propulsion
    power to thrust power at the cruise efficiency (line 274); its propulsion
    power is the output of its power system model (lines 272-273, 206).
    These constraints are in the flattened problem of the script, and every
    valuation that satisfies them has lift-to-drag ratio times cruise
    efficiency times electrical efficiency times battery power equal to
    mission weight times speed. *)
Theorem X5_cruise_power (c : Config.t) (fpow : Q -> Q -> Q) (pi : Q)
    (rho : valuation) :
  ~ Config.n c == 0 ->
  built (run false (main c))
    (fun st =>
       let ac := testAircraft st in
       let eta := PowerSystem.eta (SimpleOnDemandAircraft.powerSystem ac) in
       let L_D := SimpleOnDemandAircraft.L_D ac in
       let eta_cruise := SimpleOnDemandAircraft.eta_cruise ac in
       Forall (fun ws =>
            let l := seg_model (snd ws) in
            let p := powerSystemPerf_of (snd ws) in
            let stated := level_constraints L_D eta_cruise (fst ws) (snd ws)
                          ++ powerSystemPerf_constraints eta p in
            (own_constraints l = level_constraints L_D eta_cruise (fst ws) (snd ws)
             /\ own_constraints p = powerSystemPerf_constraints eta p
             /\ Forall (fun x => x ∈ flatten (problem st)) stated)
            /\ (feasible fpow pi rho stated ->
                rho (key L_D) * (rho (key eta_cruise)
                  * (rho (key eta) * rho (key (get l "P_{battery}"))))
                == rho (key (fst ws)) * rho (key (get l "V"))))
         (level_segments st)).
Proof.
  intros Hn. apply (built_impl _ _ _ (script_levels c Hn)).
  intros st (_ & Hall & _). cbv zeta.
  eapply Forall_impl; [exact Hall|].
  intros [W seg] (_ & Hown & Hp & Hin). cbn [fst snd] in *.
  split; [split; [exact Hown|split; [exact Hp|exact Hin]]|].
  intros H. unfold feasible, level_constraints, powerSystemPerf_constraints in H.
  cbv zeta in H. cbn [app] in H. split_Forall H.
  rewrite Hc2, <- Hc8, <- Hc3, Hc5, Hc6, Hc7. ring.
Qed.

(** X6: each mission sets its range equal to the range of its cruise segment
    (lines 316 and 381), and a level-flight segment covers speed times time
    (line 274). These two constraints are in the flattened problem of the
    script, and every valuation that satisfies them gives the mission a
    range of the cruise speed times the cruise time. *)
Theorem X6_cruise_range (c : Config.t) (fpow : Q -> Q -> Q) (pi : Q)
    (rho : valuation) :
  ~ Config.n c == 0 ->
  built (run false (main c))
    (fun st =>
       Forall (fun ms =>
            let l := seg_model (snd ms) in
            let stated := [mission_range (fst ms) l; segment_range l] in
            (mission_range (fst ms) l ∈ own_constraints (fst ms)
             /\ segment_range l ∈ own_constraints l
             /\ Forall (fun x => x ∈ flatten (problem st)) stated)
            /\ (feasible fpow pi rho stated ->
                rho (key (get (fst ms) "mission_range"))
                == rho (key (get l "V")) * rho (key (get l "t"))))
         (cruise_segments st)).
Proof.
  intros Hn. apply (built_impl _ _ _ (script_levels c Hn)).
  intros st (_ & _ & Hall). cbv zeta.
  eapply Forall_impl; [exact Hall|].
  intros [m seg] ((Hm & Hl) & Hin). cbn [fst snd] in *.
  split; [split; [exact Hm|split; [exact Hl|exact Hin]]|].
  intros H. unfold feasible, mission_range, segment_range in H.
  split_Forall H. rewrite Hc, Hc0. reflexivity.
Qed.

(** ** Energy, power and time *)

(** The script for the discharge parameter [n], under the three reserve
    policies. *)
Ltac policy_cases c :=
  match goal with
  | |- built (run _ (main ?c')) _ =>
      rewrite (main_policy c'); unfold policy;
      cbn [set_n set_reserve_type Config.reserve_type]
  end;
  destruct (Config.reserve_type c =? "FAA")%string;
  [|destruct (Config.reserve_type c =? "Uber")%string];
  destruct c.

Lemma script_batteryPerf (c : Config.t) :
  built (run false (main (set_n c 1.0)))
    (fun st =>
       let P_max := Battery.P_max (SimpleOnDemandAircraft.battery (testAircraft st)) in
       Forall (fun seg =>
                 let s := seg_model seg in
                 let b := batteryPerf_of seg in
                 own_constraints b = batteryPerf_constraints 1.0 P_max b
                 /\ E seg = get s "E"
                 /\ Forall (fun x => x ∈ own_constraints s) (battery_draw seg)
                 /\ Forall (fun x => x ∈ flatten (problem st))
                      (batteryPerf_constraints 1.0 P_max b ++ battery_draw seg))
              (all_segments st)).
Proof.
  policy_cases c; by_running.
Qed.

(** X7: with the discharge parameter at the 1.0 of the script (line 416),
    the exponent of line 166 is 1, and every flight segment reads energy,
    power and time from its battery performance model (lines 242-243 and
    270-271). These constraints are in the flattened problem of the script;
    where raising to the power 1 changes nothing, every valuation that
    satisfies them with an hour rating other than zero gives the segment an
    energy equal to its battery power times its time. *)
Theorem X7_energy_power_time (c : Config.t) (fpow : Q -> Q -> Q) (pi : Q)
    (rho : valuation) :
  (forall x e, e == 1 -> fpow x e == x) ->
  built (run false (main (set_n c 1.0)))
    (fun st =>
       let P_max := Battery.P_max (SimpleOnDemandAircraft.battery (testAircraft st)) in
       Forall (fun seg =>
            let s := seg_model seg in
            let b := batteryPerf_of seg in
            let stated := batteryPerf_constraints 1.0 P_max b ++ battery_draw seg in
            (own_constraints b = batteryPerf_constraints 1.0 P_max b
             /\ Forall (fun x => x ∈ own_constraints s) (battery_draw seg)
             /\ Forall (fun x => x ∈ flatten (problem st)) stated)
            /\ (feasible fpow pi rho stated ->
                ~ rho (key (get b "Rt")) == 0 ->
                rho (key (E seg))
                == rho (key (get s "P_{battery}")) * rho (key (get s "t"))))
         (all_segments st)).
Proof.
  intros Hpow. apply (built_impl _ _ _ (script_batteryPerf c)).
  intros st Hall. cbv zeta.
  eapply Forall_impl; [exact Hall|].
  intros seg (Hown & HE & Hd & Hin).
  split; [split; [exact Hown|split; [exact Hd|exact Hin]]|].
  intros H HRt. unfold feasible, batteryPerf_constraints, battery_draw in H.
  cbv zeta in H. cbn [app] in H. split_Forall H.
  rewrite HE, Hc1, Hc2, Hc3, Hc.
  rewrite (Hpow _ (1 / 1.0)) by reflexivity.
  field. exact HRt.
Qed.

(** ** Weights *)

Lemma script_weights (c : Config.t) :
  ~ Config.n c == 0 ->
  built (run false (main c))
    (fun st =>
       let ac := testAircraft st in
       (SimpleOnDemandAircraft.MTOW ac = get (SimpleOnDemandAircraft.model ac) "MTOW"
        /\ val (get (SimpleOnDemandAircraft.rotors ac) "W") = Some (Num 0)
        /\ val (get (PowerSystem.model (SimpleOnDemandAircraft.powerSystem ac)) "W")
           = Some (Num 0))
       /\ Forall (fun mp =>
            Forall2 (fun o x => x ∈ own_constraints o)
              (weight_owners ac (fst mp) (snd mp))
              (weight_constraints ac (fst mp) (snd mp))
            /\ Forall (fun x => x ∈ flatten (problem st))
                 (weight_constraints ac (fst mp) (snd mp)))
          [(OnDemandSizingMission.model (testSizingMission st),
            OnDemandSizingMission.passengers (testSizingMission st));
           (OnDemandTypicalMission.model (testTypicalMission st),
            OnDemandTypicalMission.passengers (testTypicalMission st))]).
Proof.
  intros Hn. config_cases c Hn; by_running.
Qed.

(** What the weight constraints say of a valuation that gives the rotors and
    the power system their fixed weight 0. *)
Lemma holds_weights fpow pi (rho : valuation) (ac : SimpleOnDemandAircraft.obj)
    (m p : Model) :
  let a := SimpleOnDemandAircraft.model ac in
  let b := Battery.model (SimpleOnDemandAircraft.battery ac) in
  let cr := SimpleOnDemandAircraft.crew ac in
  let s := SimpleOnDemandAircraft.structure ac in
  feasible fpow pi rho (weight_constraints ac m p) ->
  rho (key (get (SimpleOnDemandAircraft.rotors ac) "W")) == 0 ->
  rho (key (get (PowerSystem.model (SimpleOnDemandAircraft.powerSystem ac)) "W")) == 0 ->
  rho (key (get b "m")) * rho (key (get a "g"))
  + rho (key (get cr "N_{crew}")) * rho (key (get cr "W_{oneCrew}"))
  + rho (key (get s "weight_fraction")) * rho (key (get a "MTOW"))
  + rho (key (get p "N_{passengers}")) * rho (key (get p "W_{onePassenger}"))
  <= rho (key (get a "MTOW")).
Proof.
  cbv zeta. intros H Hr Hp.
  unfold feasible, weight_constraints, component_weights,
    SimpleOnDemandAircraft.components in H.
  cbv zeta in H. cbn [map py_sum fold_left] in H. split_Forall H.
  rewrite Hc6, <- Hc5, <- Hc4, <- Hc3, <- Hc1.
  eapply Qle_trans; [|exact Hc0]. eapply Qle_trans; [|exact Hc].
  apply Qplus_le_compat; [|apply Qle_refl].
  eapply Qle_trans; [|exact Hc2]. rewrite Hr, Hp. ring_simplify. apply Qle_refl.
Qed.

(** X8: the weight constraints of the aircraft, its components and the two
    missions compose (lines 32, 35, 43, 155, 175, 184, 305-306 and 377-378).
    Each is stated by the model that owns it and is in the flattened problem
    of the script; the rotors and the power system have their weight fixed
    at 0. Every valuation that satisfies them and gives those two weights
    their value has a take-off weight of at least the weight of the battery
    (mass times gravity), of the crew, of the structure (its fraction of the
    take-off weight) and of the passengers of the mission. *)
Theorem X8_takeoff_weight (c : Config.t) (fpow : Q -> Q -> Q) (pi : Q)
    (rho : valuation) :
  ~ Config.n c == 0 ->
  built (run false (main c))
    (fun st =>
       let ac := testAircraft st in
       let a := SimpleOnDemandAircraft.model ac in
       let b := Battery.model (SimpleOnDemandAircraft.battery ac) in
       let cr := SimpleOnDemandAircraft.crew ac in
       let s := SimpleOnDemandAircraft.structure ac in
       let W_rotors := get (SimpleOnDemandAircraft.rotors ac) "W" in
       let W_power := get (PowerSystem.model (SimpleOnDemandAircraft.powerSystem ac)) "W" in
       (val W_rotors = Some (Num 0) /\ val W_power = Some (Num 0))
       /\ Forall (fun mp =>
            let stated := weight_constraints ac (fst mp) (snd mp) in
            (Forall2 (fun o x => x ∈ own_constraints o)
               (weight_owners ac (fst mp) (snd mp)) stated
             /\ Forall (fun x => x ∈ flatten (problem st)) stated)
            /\ (feasible fpow pi rho stated ->
                rho (key W_rotors) == 0 -> rho (key W_power) == 0 ->
                rho (key (get b "m")) * rho (key (get a "g"))
                + rho (key (get cr "N_{crew}")) * rho (key (get cr "W_{oneCrew}"))
                + rho (key (get s "weight_fraction")) * rho (key (get a "MTOW"))
                + rho (key (get (snd mp) "N_{passengers}"))
                  * rho (key (get (snd mp) "W_{onePassenger}"))
                <= rho (key (get a "MTOW"))))
          [(OnDemandSizingMission.model (testSizingMission st),
            OnDemandSizingMission.passengers (testSizingMission st));
           (OnDemandTypicalMission.model (testTypicalMission st),
            OnDemandTypicalMission.passengers (testTypicalMission st))]).
Proof.
  intros Hn. apply (built_impl _ _ _ (script_weights c Hn)).
  intros st ((_ & Hr & Hp) & Hall). cbv zeta.
  split; [split; assumption|].
  eapply Forall_impl; [exact Hall|].
  intros [m p] Hs. cbn [fst snd] in *. split; [exact Hs|].
  intros H H0 H1. exact (holds_weights _ _ _ _ _ _ H H0 H1).
Qed.

(** ** Cost of a trip *)

Lemma script_cost (c : Config.t) :
  ~ Config.n c == 0 ->
  built (run false (main c))
    (fun st =>
       let ac := testAircraft st in
       let tm := testTypicalMission st in
       let m := OnDemandTypicalMission.model tm in
       let costs :=
         cost_constraints m (OnDemandTypicalMission.passengers tm)
           (SimpleOnDemandAircraft.MTOW ac) (OnDemandTypicalMission.fs0 tm)
           (OnDemandTypicalMission.fs1 tm) (OnDemandTypicalMission.fs2 tm) in
       (cost st = get m "cost_per_trip"
        /\ List.filter (fun x => bool_decide (x ∈ costs)) (own_constraints m) = costs
        /\ var_of (OnDemandSizingMission.model (testSizingMission st)) "cost_per_trip"
           = None)
       /\ Forall (fun x => x ∈ flatten (problem st)) costs).
Proof.
  intros Hn. config_cases c Hn; by_running.
Qed.

(** X9: the objective of the script is the cost per trip of the typical
    mission; the sizing mission has no cost. The economic constraints of the
    typical mission (lines 387-400) are the last ten of its own list and are
    in the flattened problem of the script. Every valuation that satisfies
    them has a cost per trip, which is the cost per passenger times the
    number of passengers, of at least the sum of the amortized purchase price
    (cost per weight times take-off weight, over the vehicle life), the
    energy cost, the pilot cost and the maintenance cost (mechanics times
    overhaul time times salary, over the time between overhauls), each for
    the mission time and energy; the mission time and energy are at least
    the sums over the three segments. *)
Theorem X9_trip_cost (c : Config.t) (fpow : Q -> Q -> Q) (pi : Q)
    (rho : valuation) :
  ~ Config.n c == 0 ->
  built (run false (main c))
    (fun st =>
       let ac := testAircraft st in
       let tm := testTypicalMission st in
       let m := OnDemandTypicalMission.model tm in
       let p := OnDemandTypicalMission.passengers tm in
       let stated :=
         cost_constraints m p (SimpleOnDemandAircraft.MTOW ac)
           (OnDemandTypicalMission.fs0 tm) (OnDemandTypicalMission.fs1 tm)
           (OnDemandTypicalMission.fs2 tm) in
       let v x := rho (key (get m x)) in
       (cost st = get m "cost_per_trip"
        /\ var_of (OnDemandSizingMission.model (testSizingMission st)) "cost_per_trip"
           = None
        /\ List.filter (fun x => bool_decide (x ∈ stated)) (own_constraints m) = stated
        /\ Forall (fun x => x ∈ flatten (problem st)) stated)
       /\ (feasible fpow pi rho stated ->
           v "cost_per_trip"
           == v "cost_per_trip_per_passenger" * rho (key (get p "N_{passengers}"))
           /\ v "cost_per_weight" * rho (key (SimpleOnDemandAircraft.MTOW ac))
                * v "t_{mission}" / v "vehicle_life"
              + v "E_{mission}" * v "cost_per_energy"
              + v "pilot_salary" * v "t_{mission}"
              + v "N_{mechanics}" * v "overhaul_time" * v "mechanic_salary"
                  * v "t_{mission}" / v "time_between_overhauls"
              <= rho (key (cost st))
           /\ total_energy rho (OnDemandTypicalMission.segments tm) <= v "E_{mission}"
           /\ fold_right Qplus 0
                (map (fun s => rho (key (get (seg_model s) "t")))
                     (OnDemandTypicalMission.segments tm))
              <= v "t_{mission}")).
Proof.
  intros Hn. apply (built_impl _ _ _ (script_cost c Hn)).
  intros st ((Hcost & Hown & Hnone) & Hin). cbv zeta.
  split; [repeat (split; [assumption|]); assumption|]. intros H.
  unfold feasible, cost_constraints in H. split_Forall H.
  rewrite Hcost. split; [exact Hc|]. split; [|split].
  - eapply Qle_trans; [|exact Hc0].
    rewrite Hc1, Hc3, Hc4, Hc6, Hc7, Hc8. apply Qle_refl.
  - eapply Qle_trans; [|exact Hc5].
    unfold total_energy, OnDemandTypicalMission.segments. simpl.
    ring_simplify. apply Qle_refl.
  - eapply Qle_trans; [|exact Hc2].
    unfold OnDemandTypicalMission.segments. simpl. ring_simplify. apply Qle_refl.
Qed.

(** ** Battery mass *)

Lemma script_mass (c : Config.t) :
  ~ Config.n c == 0 ->
  built (run false (main c))
    (fun st =>
       Forall2 (fun o x => x ∈ own_constraints o)
         (capacity_owners st) (capacity_constraints st)
       /\ Forall (fun x => x ∈ flatten (problem st)) (capacity_constraints st)).
Proof.
  intros Hn. config_cases c Hn; by_running.
Qed.

(** X10: the battery states its capacity as its mass times its energy
    density and its usable capacity as a fraction of that (line 155), the
    aircraft takes the usable capacity of the battery for its own (line 34),
    and both missions draw on it (lines 317 and 382). Each of these
    constraints is stated by the model that owns it and is in the flattened
    problem of the script, and every valuation that satisfies them gives
    either mission an energy of at most the usable fraction of the energy
    density times the mass of the battery. *)
Theorem X10_battery_mass (c : Config.t) (fpow : Q -> Q -> Q) (pi : Q)
    (rho : valuation) :
  ~ Config.n c == 0 ->
  built (run false (main c))
    (fun st =>
       let b := Battery.model (SimpleOnDemandAircraft.battery (testAircraft st)) in
       let usable :=
         rho (key (get b "usable_energy_fraction"))
         * (rho (key (get b "m")) * rho (key (get b "C_m"))) in
       (Forall2 (fun o x => x ∈ own_constraints o)
          (capacity_owners st) (capacity_constraints st)
        /\ Forall (fun x => x ∈ flatten (problem st)) (capacity_constraints st))
       /\ (feasible fpow pi rho (capacity_constraints st) ->
           total_energy rho (OnDemandSizingMission.segments (testSizingMission st))
           <= usable
           /\ total_energy rho (OnDemandTypicalMission.segments (testTypicalMission st))
              <= usable)).
Proof.
  intros Hn. apply (built_impl _ _ _ (script_mass c Hn)).
  intros st Hs. cbv zeta. split; [exact Hs|]. intros H.
  unfold feasible, capacity_constraints in H. cbv zeta in H.
  apply Forall_cons in H. destruct H as [H0 H].
  apply Forall_cons in H. destruct H as [H1 H].
  apply Forall_cons in H. destruct H as [H2 H].
  apply Forall_cons in H. destruct H as [H3 H].
  apply Forall_cons in H. destruct H as [H4 _].
  apply holds_budget in H3. apply holds_budget in H4.
  simpl in H0, H1, H2. unfold total_energy.
  rewrite <- H0, <- H1, <- H2. split; assumption.
Qed.

(** ** Rotor limits *)

Lemma script_rotors (c : Config.t) :
  ~ Config.n c == 0 ->
  built (run false (main c))
    (fun st =>
       let rotors := SimpleOnDemandAircraft.rotors (testAircraft st) in
       Forall (fun ms =>
            let state := hd (fst ms) (instances "FlightState" (fst ms)) in
            (length (instances "FlightState" (fst ms)) = length (snd ms)
             /\ (get (fst ms) "p_{ratio}"
                 == get (rotorPerf_of (hd seg_a (snd ms))) "p_{ratio}")%gp
                  ∈ own_constraints (fst ms)
             /\ (get (fst ms) "p_{ratio}"
                 == get (rotorPerf_of (hd seg_a (snd ms))) "p_{ratio}")%gp
                  ∈ flatten (problem st)
             /\ (get (rotorPerf_of (hd seg_a (snd ms))) "p_{ratio}"
                 <= get (rotorPerf_of (hd seg_a (snd ms))) "p_{ratio_max}")%gp
                  ∈ flatten (problem st)
             /\ occurrences (get state "a" == get state "a")%gp (own_constraints (fst ms))
                = 1%nat
             /\ occurrences (get state "a" == get state "a")%gp (flatten (fst ms))
                = S (length (snd ms)))
            /\ Forall (fun seg =>
                 let r := rotorPerf_of seg in
                 (m_naming (flightState_of seg) = m_naming state
                  /\ val (get r "MT_max") = Some (Num 0.9)
                  /\ val (get r "CL_mean_max") = Some (Num 1.0)
                  /\ val (get r "p_{ratio_max}") = Some (Pow10 (100 / 20)))
                 /\ (map key (named "CP" (m_vars r)) = [key (get r "CP"); key (get r "CP")]
                     /\ List.filter (fun x => bool_decide (x ∈ rotor_limits rotors state r))
                          (own_constraints r)
                        = rotor_limits rotors state r
                     /\ List.filter
                          (fun x => bool_decide (x ∈ power_coefficients rotors r (get r "CP")))
                          (own_constraints r)
                        = power_coefficients rotors r (get r "CP"))
                 /\ Forall (fun x => x ∈ flatten (problem st))
                      (rotor_limits rotors state r
                       ++ power_coefficients rotors r (get r "CP")))
              (snd ms))
         (mission_hovers st)).
Proof.
  intros Hn. config_cases c Hn; by_running.
Qed.

Lemma script_limits (c : Config.t) :
  ~ Config.n c == 0 ->
  built (run false (main c))
    (fun st =>
       Forall (fun ms =>
            let state := hd (fst ms) (instances "FlightState" (fst ms)) in
            let r0 := rotorPerf_of (hd seg_a (snd ms)) in
            (val (get r0 "p_{ratio_max}") = Some (Pow10 (100 / 20))
             /\ mission_noise (fst ms) r0 ∈ own_constraints (fst ms)
             /\ noise_limit r0 ∈ own_constraints r0
             /\ Forall (fun x => x ∈ flatten (problem st))
                  [mission_noise (fst ms) r0; noise_limit r0])
            /\ Forall (fun seg =>
                 let r := rotorPerf_of seg in
                 (val (get r "MT_max") = Some (Num 0.9)
                  /\ val (get r "p_{ratio_max}") = Some (Pow10 (100 / 20)))
                 /\ Forall (fun x => x ∈ own_constraints r)
                      (noise_limit r :: tip_speed_limits state r)
                 /\ Forall (fun x => x ∈ flatten (problem st))
                      (noise_limit r :: tip_speed_limits state r))
              (snd ms))
         (mission_hovers st)).
Proof.
  intros Hn. config_cases c Hn; by_running.
Qed.

(** X11: every hover segment gets its rotor model from [Rotors.performance]
    (lines 48-49 and 233), whose tip Mach limit is 0.9, and the rotor model
    states [VT == MT*a] and [MT <= MT_max] over the speed of sound of the
    flight state of the mission (lines 119-120). These two constraints are
    in the flattened problem of the script, and every valuation that
    satisfies them, gives the limit its value and has a speed of sound that
    is not negative, gives the segment a tip speed of at most 0.9 times the
    speed of sound. *)
Theorem X11_tip_speed (c : Config.t) (fpow : Q -> Q -> Q) (pi : Q)
    (rho : valuation) :
  ~ Config.n c == 0 ->
  built (run false (main c))
    (fun st =>
       Forall (fun ms =>
            let state := hd (fst ms) (instances "FlightState" (fst ms)) in
            Forall (fun seg =>
                 let r := rotorPerf_of seg in
                 let stated := tip_speed_limits state r in
                 (val (get r "MT_max") = Some (Num 0.9)
                  /\ Forall (fun x => x ∈ own_constraints r) stated
                  /\ Forall (fun x => x ∈ flatten (problem st)) stated)
                 /\ (feasible fpow pi rho stated ->
                     0 <= rho (key (get state "a")) ->
                     rho (key (get r "MT_max")) == 0.9 ->
                     rho (key (get r "VT")) <= 0.9 * rho (key (get state "a"))))
              (snd ms))
         (mission_hovers st)).
Proof.
  intros Hn. apply (built_impl _ _ _ (script_limits c Hn)).
  intros st Hall. cbv zeta. eapply Forall_impl; [exact Hall|].
  intros [m segs] (_ & Hsegs). cbn [fst snd] in *.
  eapply Forall_impl; [exact Hsegs|].
  intros seg ((Hv & _) & Hown & Hin).
  apply Forall_cons in Hown. apply Forall_cons in Hin.
  split; [split; [exact Hv|split; [exact (proj2 Hown)|exact (proj2 Hin)]]|].
  intros H Ha HM. unfold feasible, tip_speed_limits in H. split_Forall H.
  rewrite Hc, <- HM. apply Qmult_le_compat_r; assumption.
Qed.

(** X12: the noise limit of a rotor model is [10**(SPL_req/20.)] (line 89)
    with the 100 of [Rotors.performance] for [SPL_req], not the 150 of
    [RotorsAero.setup]; each rotor model keeps its sound pressure ratio under
    it (line 128), and a mission takes the ratio of its take-off hover for
    its own (lines 320 and 384). These constraints are in the flattened
    problem of the script, and every valuation that satisfies the two of a
    mission gives the mission a ratio of at most the limit of its take-off
    rotor model. *)
Theorem X12_noise_limit (c : Config.t) (fpow : Q -> Q -> Q) (pi : Q)
    (rho : valuation) :
  ~ Config.n c == 0 ->
  built (run false (main c))
    (fun st =>
       Forall (fun ms =>
            let r0 := rotorPerf_of (hd seg_a (snd ms)) in
            let stated := [mission_noise (fst ms) r0; noise_limit r0] in
            (Forall (fun seg =>
                       let r := rotorPerf_of seg in
                       val (get r "p_{ratio_max}") = Some (Pow10 (100 / 20))
                       /\ noise_limit r ∈ own_constraints r
                       /\ noise_limit r ∈ flatten (problem st))
                    (snd ms)
             /\ mission_noise (fst ms) r0 ∈ own_constraints (fst ms)
             /\ noise_limit r0 ∈ own_constraints r0
             /\ Forall (fun x => x ∈ flatten (problem st)) stated)
            /\ (feasible fpow pi rho stated ->
                rho (key (get (fst ms) "p_{ratio}"))
                <= rho (key (get r0 "p_{ratio_max}"))))
         (mission_hovers st)).
Proof.
  intros Hn. apply (built_impl _ _ _ (script_limits c Hn)).
  intros st Hall. cbv zeta. eapply Forall_impl; [exact Hall|].
  intros [m segs] ((_ & Hm & Hr & Hin) & Hsegs). cbn [fst snd] in *.
  split.
  - split; [|split; [exact Hm|split; [exact Hr|exact Hin]]].
    eapply Forall_impl; [exact Hsegs|].
    intros seg ((_ & Hv) & Hown & Hfl).
    apply Forall_cons in Hown. apply Forall_cons in Hfl.
    split; [exact Hv|]. split; [exact (proj1 Hown)|exact (proj1 Hfl)].
  - intros H. unfold feasible, mission_noise, noise_limit in H. split_Forall H.
    rewrite Hc. exact Hc0.
Qed.

(** X14: a mission builds one flight state (lines 294 and 369) and hands it
    to each of its hover segments, whose rotor model lists it as a sub-model
    (line 102); the mission also appends the constraints of the flight state
    to its own (lines 321 and 385). So every hover segment of a mission reads
    the speed of sound of the same flight state, the mission has as many
    flight-state nodes as hover segments, and the flattened mission states
    [a == a] once for the mission and once for each hover segment. The two
    missions have different flight states. *)
Theorem X14_shared_flight_state (c : Config.t) :
  ~ Config.n c == 0 ->
  built (run false (main c))
    (fun st =>
       Forall (fun ms =>
            let state := hd (fst ms) (instances "FlightState" (fst ms)) in
            let aa := (get state "a" == get state "a")%gp in
            length (instances "FlightState" (fst ms)) = length (snd ms)
            /\ occurrences aa (own_constraints (fst ms)) = 1%nat
            /\ occurrences aa (flatten (fst ms)) = S (length (snd ms))
            /\ Forall (fun seg =>
                         let r := rotorPerf_of seg in
                         m_naming (flightState_of seg) = m_naming state
                         /\ (get r "VT" == get r "MT" * get state "a")%gp
                              ∈ own_constraints r)
                      (snd ms))
         (mission_hovers st)
       /\ NoDup (map (fun ms => m_naming (hd (fst ms) (instances "FlightState" (fst ms))))
                     (mission_hovers st))).
Proof.
  intros Hn.
  assert (Hd : built (run false (main c))
            (fun st => NoDup (map (fun ms => m_naming (hd (fst ms)
                                     (instances "FlightState" (fst ms))))
                                  (mission_hovers st)))).
  { config_cases c Hn; by_running. }
  apply (built_impl _ _ _ (built_and _ _ _ (script_rotors c Hn) Hd)).
  intros st (Hall & HD). cbv zeta. split; [|exact HD].
  eapply Forall_impl; [exact Hall|].
  intros [m segs] ((H1 & _ & _ & _ & H2 & H3) & Hsegs). cbn [fst snd] in *.
  repeat (split; [assumption|]).
  eapply Forall_impl; [exact Hsegs|].
  intros seg ((Hs & _) & (_ & Hl & _) & _). cbv zeta. split; [exact Hs|].
  assert (Hx : (get (rotorPerf_of seg) "VT"
                == get (rotorPerf_of seg) "MT"
                   * get (hd m (instances "FlightState" m)) "a")%gp
               ∈ rotor_limits (SimpleOnDemandAircraft.rotors (testAircraft st))
                   (hd m (instances "FlightState" m)) (rotorPerf_of seg)).
  { unfold rotor_limits. apply elem_of_cons. right. apply elem_of_cons. now left. }
  rewrite <- Hl in Hx. apply list_elem_of_In, filter_In in Hx.
  apply list_elem_of_In. exact (proj1 Hx).
Qed.

(** ** The reserve segment *)

Lemma script_reserve (c : Config.t) :
  ~ Config.n c == 0 ->
  built (run false (main (set_reserve_type c "FAA")))
    (fun st =>
       let sm := testSizingMission st in
       let l := seg_model (OnDemandSizingMission.fs4 sm) in
       (m_name l = "LevelFlight"
        /\ loiter_requirement sm ∈ own_constraints (OnDemandSizingMission.model sm)
        /\ segment_range l ∈ own_constraints l)
       /\ Forall (fun x => x ∈ flatten (problem st))
            [loiter_requirement sm; segment_range l])
  /\ built (run false (main (set_reserve_type c "Uber")))
       (fun st =>
          let sm := testSizingMission st in
          let l := seg_model (OnDemandSizingMission.fs4 sm) in
          (m_name l = "LevelFlight"
           /\ diversion_requirement sm
                ∈ own_constraints (OnDemandSizingMission.model sm)
           /\ segment_range l ∈ own_constraints l)
          /\ Forall (fun x => x ∈ flatten (problem st))
               [diversion_requirement sm; segment_range l]).
Proof.
  intros Hn. split; discharge_cases c Hn; by_running.
Qed.

(** X15: the reserve requirement acts on the loiter segment [fs4], a
    level-flight segment (lines 300 and 309-314), which states its range as
    speed times time (line 274). The requirement and that constraint are in
    the flattened problem of the script. Under "FAA" every valuation that
    satisfies the two gives the segment a range of its speed times the
    loiter time; under "Uber" the diversion distance is its speed times its
    time. *)
Theorem X15_reserve_segment (c : Config.t) (fpow : Q -> Q -> Q) (pi : Q)
    (rho : valuation) :
  ~ Config.n c == 0 ->
  built (run false (main (set_reserve_type c "FAA")))
    (fun st =>
       let sm := testSizingMission st in
       let l := seg_model (OnDemandSizingMission.fs4 sm) in
       let stated := [loiter_requirement sm; segment_range l] in
       (m_name l = "LevelFlight"
        /\ loiter_requirement sm ∈ own_constraints (OnDemandSizingMission.model sm)
        /\ segment_range l ∈ own_constraints l
        /\ Forall (fun x => x ∈ flatten (problem st)) stated)
       /\ (feasible fpow pi rho stated ->
           rho (key (get l "segment_range"))
           == rho (key (get l "V"))
              * rho (key (get (OnDemandSizingMission.model sm) "t_{loiter}"))))
  /\ built (run false (main (set_reserve_type c "Uber")))
       (fun st =>
          let sm := testSizingMission st in
          let l := seg_model (OnDemandSizingMission.fs4 sm) in
          let stated := [diversion_requirement sm; segment_range l] in
          (m_name l = "LevelFlight"
           /\ diversion_requirement sm
                ∈ own_constraints (OnDemandSizingMission.model sm)
           /\ segment_range l ∈ own_constraints l
           /\ Forall (fun x => x ∈ flatten (problem st)) stated)
          /\ (feasible fpow pi rho stated ->
              rho (key (get (OnDemandSizingMission.model sm) "R_{divert}"))
              == rho (key (get l "V")) * rho (key (get l "t")))).
Proof.
  intros Hn. destruct (script_reserve c Hn) as [HA HU]. split.
  - apply (built_impl _ _ _ HA). intros st ((Hn' & Ho & Hl) & Hin). cbv zeta.
    split; [repeat (split; [assumption|]); assumption|]. intros H.
    unfold feasible, loiter_requirement, segment_range in H. split_Forall H.
    rewrite Hc0, Hc. reflexivity.
  - apply (built_impl _ _ _ HU). intros st ((Hn' & Ho & Hl) & Hin). cbv zeta.
    split; [repeat (split; [assumption|]); assumption|]. intros H.
    unfold feasible, diversion_requirement, segment_range in H. split_Forall H.
    rewrite Hc, Hc0. reflexivity.
Qed.

(** ** The report *)

Lemma script_reserve_count (c : Config.t) :
  ~ Config.n c == 0 ->
  built (run false (main c))
    (fun st =>
       length (reserve_requirements
                 (OnDemandSizingMission.model (testSizingMission st)))
       = if ((Config.reserve_type c =? "FAA") || (Config.reserve_type c =? "Uber"))%string
         then 1%nat else 0%nat).
Proof.
  intros Hn. config_cases c Hn; by_running.
Qed.

(** X16: the report binds [reserve_type_string] in the branches for "FAA"
    and "Uber" only (lines 457-462) and reads it at line 479. For every
    configuration that builds, reading it raises [NameError] exactly when the
    sizing mission was built without a reserve requirement, that is, for
    every policy other than those two. *)
Theorem X16_report_reserve (c : Config.t) (loiter divert : string) :
  ~ Config.n c == 0 ->
  built (run false (main c))
    (fun st =>
       let flag := Config.reserve_type c in
       (reserve_line flag loiter divert = inl (NameError "reserve_type_string")
        <-> reserve_requirements (OnDemandSizingMission.model (testSizingMission st))
            = [])
       /\ (reserve_line flag loiter divert = inl (NameError "reserve_type_string")
           <-> flag <> "FAA" /\ flag <> "Uber")
       /\ (flag = "FAA" ->
           reserve_line flag loiter divert
           = inr ("Reserve type: FAA (" +:+ loiter +:+ "-minute loiter time)"))
       /\ (flag = "Uber" ->
           reserve_line flag loiter divert
           = inr ("Reserve type: Uber (" +:+ divert +:+ "-nm diversion distance)"))).
Proof.
  intros Hn. apply (built_impl _ _ _ (script_reserve_count c Hn)).
  intros st Hlen. cbv zeta.
  assert (HB : reserve_line (Config.reserve_type c) loiter divert
               = inl (NameError "reserve_type_string")
               <-> ((Config.reserve_type c =? "FAA")
                    || (Config.reserve_type c =? "Uber"))%string = false).
  { unfold reserve_line, reserve_type_string.
    destruct (Config.reserve_type c =? "FAA")%string,
             (Config.reserve_type c =? "Uber")%string;
      simpl; split; intros H; (discriminate H || reflexivity). }
  split; [|split; [|split]].
  - rewrite HB.
    destruct ((Config.reserve_type c =? "FAA")
              || (Config.reserve_type c =? "Uber"))%string.
    + split; intros H; [discriminate H|]. rewrite H in Hlen. discriminate Hlen.
    + split; intros _; [|reflexivity].
      destruct (reserve_requirements _); [reflexivity|discriminate Hlen].
  - rewrite HB, orb_false_iff, !String.eqb_neq. reflexivity.
  - intros ->. reflexivity.
  - intros ->. reflexivity.
Qed.

(** ** Rotor geometry and self-equalities *)



Lemma self_equality_holds fpow pi (rho : valuation) (c : constraint) :
  is_self_equality c = true -> holds fpow pi rho c.
Proof.
  destruct c as [l r| |]; simpl; try discriminate.
  intros H. apply bool_decide_eq_true in H. subst. reflexivity.
Qed.

Lemma feasible_self_equalities fpow pi (rho : valuation) (cs : list constraint) :
  feasible fpow pi rho cs
  <-> feasible fpow pi rho (List.filter (fun x => negb (is_self_equality x)) cs).
Proof.
  unfold feasible. induction cs as [|x cs IH]; simpl; [tauto|].
  destruct (is_self_equality x) eqn:E; simpl.
  - rewrite <- IH. split.
    + intros H. apply Forall_cons in H. tauto.
    + intros H. apply List.Forall_cons; [|exact H].
      now apply self_equality_holds.
  - split; intros H; apply Forall_cons in H; apply List.Forall_cons; tauto.
Qed.

Lemma script_self_equalities (c : Config.t) :
  ~ Config.n c == 0 ->
  built (run false (main c))
    (fun st =>
       length (List.filter is_self_equality (flatten (problem st))) = 20%nat
       /\ Forall (fun m =>
                    List.filter is_self_equality (own_constraints m) <> [] ->
                    m_name m ∈ ["Rotors"; "PowerSystem"; "FlightState";
                                "OnDemandSizingMission"; "OnDemandTypicalMission"])
                 (nodes (problem st))).
Proof.
  intros Hn. config_cases c Hn; by_running.
Qed.

(** X18: the rotors, the power system and the flight state state equalities
    of a variable with itself ([N == N], [s == s], [W == W], [eta == eta],
    [a == a], [rho == rho]; lines 61, 197 and 219), and the missions repeat
    those of their flight state. These are the only self-equalities of the
    problem, twenty in the flattened list; they hold in every valuation, so
    a valuation is feasible for the problem exactly when it is feasible for
    the problem without them. *)
Theorem X18_self_equalities (c : Config.t) (fpow : Q -> Q -> Q) (pi : Q)
    (rho : valuation) :
  ~ Config.n c == 0 ->
  built (run false (main c))
    (fun st =>
       length (List.filter is_self_equality (flatten (problem st))) = 20%nat
       /\ Forall (fun m =>
                    List.filter is_self_equality (own_constraints m) <> [] ->
                    m_name m ∈ ["Rotors"; "PowerSystem"; "FlightState";
                                "OnDemandSizingMission"; "OnDemandTypicalMission"])
                 (nodes (problem st))
       /\ Forall (holds fpow pi rho)
                 (List.filter is_self_equality (flatten (problem st)))
       /\ (feasible fpow pi rho (flatten (problem st))
           <-> feasible fpow pi rho
                 (List.filter (fun x => negb (is_self_equality x))
                              (flatten (problem st))))).
Proof.
  intros Hn. apply (built_impl _ _ _ (script_self_equalities c Hn)).
  intros st (Hlen & Hn'). split; [exact Hlen|]. split; [exact Hn'|]. split.
  - apply List.Forall_forall. intros x Hx. apply filter_In in Hx.
    now apply self_equality_holds.
  - apply feasible_self_equalities.
Qed.

(** ** The further properties at the configuration of the script *)

(** The second valuation is feasible for the flattened problem of the
    script, under each reserve policy. *)
Lemma rho1_feasible :
  built (run false (main joby))
    (fun st => forallb (holdsb fpow1 1 rho1) (flatten (problem st)) = true).
Proof. by_running. Qed.

Lemma Qeq_bool_neq (x y : Q) : Qeq_bool x y = true -> ~ y == 0 -> ~ x == 0.
Proof. intros H Hy E. apply Qeq_bool_iff in H. apply Hy. now rewrite <- H. Qed.


Lemma X2_hover_thrust_witness :
  ~ Config.n joby == 0
  /\ built (run false (main joby))
       (fun st =>
          let rotors := SimpleOnDemandAircraft.rotors (testAircraft st) in
          Forall (fun ws =>
               let r := rotorPerf_of (snd ws) in
               feasible fpow1 1 rho2
                 (hover_constraints (fst ws) (snd ws) ++ [thrust_split rotors r])
               /\ rho2 (key (get r "T")) == 1200
               /\ rho2 (key (get r "T")) == rho2 (key (fst ws))
               /\ rho2 (key (fst ws))
                  == rho2 (key (get rotors "N")) * rho2 (key (get r "T_perRotor")))
            (hover_segments st)).
Proof.
  split; [exact joby_discharge|].
  assert (HH : built (run false (main joby))
            (fun st => Forall (fun ws =>
               forallb (holdsb fpow1 1 rho2)
                 (hover_constraints (fst ws) (snd ws)
                  ++ [thrust_split (SimpleOnDemandAircraft.rotors (testAircraft st))
                        (rotorPerf_of (snd ws))]) = true
               /\ Qeq_bool (rho2 (key (get (rotorPerf_of (snd ws)) "T"))) 1200 = true)
               (hover_segments st))) by by_running.
  apply (built_impl _ _ _
           (built_and _ _ _ HH (X2_hover_thrust joby fpow1 1 rho2 joby_discharge))).
  cbv zeta. intros st (Hh & Ht).
  eapply Forall_impl; [exact (Forall_both _ _ _ Hh Ht)|].
  intros ws ((Hb & Hq) & (_ & Hc)).
  apply feasible_forallb in Hb. apply Qeq_bool_iff in Hq.
  split; [exact Hb|]. split; [exact Hq|]. exact (Hc Hb).
Defined.

Lemma X3_hover_power_witness :
  ~ Config.n joby == 0
  /\ built (run false (main joby))
       (fun st =>
          let eta := PowerSystem.eta
                       (SimpleOnDemandAircraft.powerSystem (testAircraft st)) in
          Forall (fun ws =>
               let p := powerSystemPerf_of (snd ws) in
               feasible fpow1 1 rho2
                 (hover_constraints (fst ws) (snd ws)
                  ++ powerSystemPerf_constraints eta p)
               /\ rho2 (key (get (rotorPerf_of (snd ws)) "P")) == 100
               /\ rho2 (key (get (rotorPerf_of (snd ws)) "P"))
                  == rho2 (key eta) * rho2 (key (get (batteryPerf_of (snd ws)) "P")))
            (hover_segments st)).
Proof.
  split; [exact joby_discharge|].
  assert (HH : built (run false (main joby))
            (fun st => Forall (fun ws =>
               forallb (holdsb fpow1 1 rho2)
                 (hover_constraints (fst ws) (snd ws)
                  ++ powerSystemPerf_constraints
                       (PowerSystem.eta
                          (SimpleOnDemandAircraft.powerSystem (testAircraft st)))
                       (powerSystemPerf_of (snd ws))) = true
               /\ Qeq_bool (rho2 (key (get (rotorPerf_of (snd ws)) "P"))) 100 = true)
               (hover_segments st))) by by_running.
  apply (built_impl _ _ _
           (built_and _ _ _ HH (X3_hover_power joby fpow1 1 rho2 joby_discharge))).
  cbv zeta. intros st (Hh & Ht).
  eapply Forall_impl; [exact (Forall_both _ _ _ Hh Ht)|].
  intros ws ((Hb & Hq) & (_ & Hc)).
  apply feasible_forallb in Hb. apply Qeq_bool_iff in Hq.
  split; [exact Hb|]. split; [exact Hq|]. exact (Hc Hb).
Defined.

Lemma X4_disk_loading_witness :
  ~ Config.n joby == 0
  /\ built (run false (main joby))
       (fun st =>
          let rotors := SimpleOnDemandAircraft.rotors (testAircraft st) in
          Forall (fun ws =>
               let h := seg_model (snd ws) in
               feasible fpow1 1 rho2
                 (hover_constraints (fst ws) (snd ws)
                  ++ [rotor_disk_loading rotors (rotorPerf_of (snd ws))])
               /\ ~ rho2 (key (get rotors "A_{total}")) == 0
               /\ rho2 (key (get h "T/A")) == 100
               /\ rho2 (key (get h "T/A")) * rho2 (key (get rotors "A_{total}"))
                  == rho2 (key (fst ws)))
            (hover_segments st)).
Proof.
  split; [exact joby_discharge|].
  assert (HH : built (run false (main joby))
            (fun st => Forall (fun ws =>
               forallb (holdsb fpow1 1 rho2)
                 (hover_constraints (fst ws) (snd ws)
                  ++ [rotor_disk_loading
                        (SimpleOnDemandAircraft.rotors (testAircraft st))
                        (rotorPerf_of (snd ws))]) = true
               /\ Qeq_bool (rho2 (key (get (SimpleOnDemandAircraft.rotors
                     (testAircraft st)) "A_{total}"))) 12 = true
               /\ Qeq_bool (rho2 (key (get (seg_model (snd ws)) "T/A"))) 100 = true)
               (hover_segments st))) by by_running.
  apply (built_impl _ _ _
           (built_and _ _ _ HH (X4_disk_loading joby fpow1 1 rho2 joby_discharge))).
  cbv zeta. intros st (Hh & Ht).
  eapply Forall_impl; [exact (Forall_both _ _ _ Hh Ht)|].
  intros ws ((Hb & Ha & Hq) & (_ & Hc)).
  apply feasible_forallb in Hb. apply Qeq_bool_iff in Hq.
  assert (HN : ~ rho2 (key (get (SimpleOnDemandAircraft.rotors (testAircraft st))
                  "A_{total}")) == 0).
  { apply (Qeq_bool_neq _ _ Ha). discriminate. }
  split; [exact Hb|]. split; [exact HN|]. split; [exact Hq|]. exact (Hc Hb HN).
Defined.

Lemma X5_cruise_power_witness :
  ~ Config.n joby == 0
  /\ built (run false (main joby))
       (fun st =>
          let ac := testAircraft st in
          let eta := PowerSystem.eta (SimpleOnDemandAircraft.powerSystem ac) in
          let L_D := SimpleOnDemandAircraft.L_D ac in
          let eta_cruise := SimpleOnDemandAircraft.eta_cruise ac in
          Forall (fun ws =>
               let l := seg_model (snd ws) in
               feasible fpow1 1 rho2
                 (level_constraints L_D eta_cruise (fst ws) (snd ws)
                  ++ powerSystemPerf_constraints eta (powerSystemPerf_of (snd ws)))
               /\ rho2 (key (fst ws)) * rho2 (key (get l "V")) == 12000
               /\ rho2 (key L_D) * (rho2 (key eta_cruise)
                    * (rho2 (key eta) * rho2 (key (get l "P_{battery}"))))
                  == rho2 (key (fst ws)) * rho2 (key (get l "V")))
            (level_segments st)).
Proof.
  split; [exact joby_discharge|].
  assert (HH : built (run false (main joby))
            (fun st => Forall (fun ws =>
               forallb (holdsb fpow1 1 rho2)
                 (level_constraints (SimpleOnDemandAircraft.L_D (testAircraft st))
                    (SimpleOnDemandAircraft.eta_cruise (testAircraft st))
                    (fst ws) (snd ws)
                  ++ powerSystemPerf_constraints
                       (PowerSystem.eta
                          (SimpleOnDemandAircraft.powerSystem (testAircraft st)))
                       (powerSystemPerf_of (snd ws))) = true
               /\ Qeq_bool (rho2 (key (fst ws))
                            * rho2 (key (get (seg_model (snd ws)) "V"))) 12000 = true)
               (level_segments st))) by by_running.
  apply (built_impl _ _ _
           (built_and _ _ _ HH (X5_cruise_power joby fpow1 1 rho2 joby_discharge))).
  cbv zeta. intros st (Hh & Ht).
  eapply Forall_impl; [exact (Forall_both _ _ _ Hh Ht)|].
  intros ws ((Hb & Hq) & (_ & Hc)).
  apply feasible_forallb in Hb. apply Qeq_bool_iff in Hq.
  split; [exact Hb|]. split; [exact Hq|]. exact (Hc Hb).
Defined.

Lemma X6_cruise_range_witness :
  ~ Config.n joby == 0
  /\ built (run false (main joby))
       (fun st =>
          Forall (fun ms =>
               let l := seg_model (snd ms) in
               feasible fpow1 1 rho2 [mission_range (fst ms) l; segment_range l]
               /\ rho2 (key (get (fst ms) "mission_range")) == 60
               /\ rho2 (key (get (fst ms) "mission_range"))
                  == rho2 (key (get l "V")) * rho2 (key (get l "t")))
            (cruise_segments st)).
Proof.
  split; [exact joby_discharge|].
  assert (HH : built (run false (main joby))
            (fun st => Forall (fun ms =>
               forallb (holdsb fpow1 1 rho2)
                 [mission_range (fst ms) (seg_model (snd ms));
                  segment_range (seg_model (snd ms))] = true
               /\ Qeq_bool (rho2 (key (get (fst ms) "mission_range"))) 60 = true)
               (cruise_segments st))) by by_running.
  apply (built_impl _ _ _
           (built_and _ _ _ HH (X6_cruise_range joby fpow1 1 rho2 joby_discharge))).
  cbv zeta. intros st (Hh & Ht).
  eapply Forall_impl; [exact (Forall_both _ _ _ Hh Ht)|].
  intros ms ((Hb & Hq) & (_ & Hc)).
  apply feasible_forallb in Hb. apply Qeq_bool_iff in Hq.
  split; [exact Hb|]. split; [exact Hq|]. exact (Hc Hb).
Defined.

Lemma X7_energy_power_time_witness :
  (forall x e, e == 1 -> fpow1 x e == x)
  /\ built (run false (main (set_n joby 1.0)))
       (fun st =>
          let P_max := Battery.P_max
                         (SimpleOnDemandAircraft.battery (testAircraft st)) in
          Forall (fun seg =>
               let s := seg_model seg in
               let b := batteryPerf_of seg in
               feasible fpow1 1 rho2
                 (batteryPerf_constraints 1.0 P_max b ++ battery_draw seg)
               /\ ~ rho2 (key (get b "Rt")) == 0
               /\ rho2 (key (E seg)) == 1200
               /\ rho2 (key (E seg))
                  == rho2 (key (get s "P_{battery}")) * rho2 (key (get s "t")))
            (all_segments st)).
Proof.
  assert (Hpow : forall x e, e == 1 -> fpow1 x e == x) by (intros; reflexivity).
  split; [exact Hpow|].
  assert (HH : built (run false (main (set_n joby 1.0)))
            (fun st => Forall (fun seg =>
               forallb (holdsb fpow1 1 rho2)
                 (batteryPerf_constraints 1.0
                    (Battery.P_max (SimpleOnDemandAircraft.battery (testAircraft st)))
                    (batteryPerf_of seg) ++ battery_draw seg) = true
               /\ Qeq_bool (rho2 (key (get (batteryPerf_of seg) "Rt"))) 2 = true
               /\ Qeq_bool (rho2 (key (E seg))) 1200 = true)
               (all_segments st))) by by_running.
  apply (built_impl _ _ _
           (built_and _ _ _ HH (X7_energy_power_time joby fpow1 1 rho2 Hpow))).
  cbv zeta. intros st (Hh & Ht).
  eapply Forall_impl; [exact (Forall_both _ _ _ Hh Ht)|].
  intros seg ((Hb & Hr & Hq) & (_ & Hc)).
  apply feasible_forallb in Hb. apply Qeq_bool_iff in Hq.
  assert (HN : ~ rho2 (key (get (batteryPerf_of seg) "Rt")) == 0).
  { apply (Qeq_bool_neq _ _ Hr). discriminate. }
  split; [exact Hb|]. split; [exact HN|]. split; [exact Hq|]. exact (Hc Hb HN).
Defined.

Lemma X8_takeoff_weight_witness :
  ~ Config.n joby == 0
  /\ built (run false (main joby))
       (fun st =>
          let ac := testAircraft st in
          let a := SimpleOnDemandAircraft.model ac in
          let b := Battery.model (SimpleOnDemandAircraft.battery ac) in
          let cr := SimpleOnDemandAircraft.crew ac in
          let s := SimpleOnDemandAircraft.structure ac in
          let m := OnDemandSizingMission.model (testSizingMission st) in
          let p := OnDemandSizingMission.passengers (testSizingMission st) in
          feasible fpow1 1 rho2 (weight_constraints ac m p)
          /\ rho2 (key (get (SimpleOnDemandAircraft.rotors ac) "W")) == 0
          /\ rho2 (key (get (PowerSystem.model
                              (SimpleOnDemandAircraft.powerSystem ac)) "W")) == 0
          /\ rho2 (key (get a "MTOW")) == 1200
          /\ rho2 (key (get b "m")) * rho2 (key (get a "g"))
             + rho2 (key (get cr "N_{crew}")) * rho2 (key (get cr "W_{oneCrew}"))
             + rho2 (key (get s "weight_fraction")) * rho2 (key (get a "MTOW"))
             + rho2 (key (get p "N_{passengers}"))
               * rho2 (key (get p "W_{onePassenger}"))
             <= rho2 (key (get a "MTOW"))).
Proof.
  split; [exact joby_discharge|].
  assert (HH : built (run false (main joby))
            (fun st =>
               forallb (holdsb fpow1 1 rho2)
                 (weight_constraints (testAircraft st)
                    (OnDemandSizingMission.model (testSizingMission st))
                    (OnDemandSizingMission.passengers (testSizingMission st))) = true
               /\ Qeq_bool (rho2 (key (get (SimpleOnDemandAircraft.rotors
                     (testAircraft st)) "W"))) 0 = true
               /\ Qeq_bool (rho2 (key (get (PowerSystem.model
                     (SimpleOnDemandAircraft.powerSystem (testAircraft st))) "W"))) 0
                  = true
               /\ Qeq_bool (rho2 (key (get (SimpleOnDemandAircraft.model
                     (testAircraft st)) "MTOW"))) 1200 = true)) by by_running.
  apply (built_impl _ _ _
           (built_and _ _ _ HH (X8_takeoff_weight joby fpow1 1 rho2 joby_discharge))).
  cbv zeta. intros st ((Hb & Hr & Hp & Hq) & (_ & Hc)).
  apply feasible_forallb in Hb.
  apply Qeq_bool_iff in Hr. apply Qeq_bool_iff in Hp. apply Qeq_bool_iff in Hq.
  apply Forall_cons in Hc. destruct Hc as [(_ & Hc) _]. cbn [fst snd] in Hc.
  split; [exact Hb|]. split; [exact Hr|]. split; [exact Hp|]. split; [exact Hq|].
  exact (Hc Hb Hr Hp).
Defined.

Lemma X9_trip_cost_witness :
  ~ Config.n joby == 0
  /\ built (run false (main joby))
       (fun st =>
          let ac := testAircraft st in
          let tm := testTypicalMission st in
          let m := OnDemandTypicalMission.model tm in
          feasible fpow1 1 rho2
            (cost_constraints m (OnDemandTypicalMission.passengers tm)
               (SimpleOnDemandAircraft.MTOW ac) (OnDemandTypicalMission.fs0 tm)
               (OnDemandTypicalMission.fs1 tm) (OnDemandTypicalMission.fs2 tm))
          /\ rho2 (key (cost st)) == 3000
          /\ total_energy rho2 (OnDemandTypicalMission.segments tm)
             <= rho2 (key (get m "E_{mission}"))).
Proof.
  split; [exact joby_discharge|].
  assert (HH : built (run false (main joby))
            (fun st =>
               forallb (holdsb fpow1 1 rho2)
                 (cost_constraints (OnDemandTypicalMission.model (testTypicalMission st))
                    (OnDemandTypicalMission.passengers (testTypicalMission st))
                    (SimpleOnDemandAircraft.MTOW (testAircraft st))
                    (OnDemandTypicalMission.fs0 (testTypicalMission st))
                    (OnDemandTypicalMission.fs1 (testTypicalMission st))
                    (OnDemandTypicalMission.fs2 (testTypicalMission st))) = true
               /\ Qeq_bool (rho2 (key (cost st))) 3000 = true)) by by_running.
  apply (built_impl _ _ _
           (built_and _ _ _ HH (X9_trip_cost joby fpow1 1 rho2 joby_discharge))).
  cbv zeta. intros st ((Hb & Hq) & (_ & Hc)).
  apply feasible_forallb in Hb. apply Qeq_bool_iff in Hq.
  split; [exact Hb|]. split; [exact Hq|]. exact (proj1 (proj2 (proj2 (Hc Hb)))).
Defined.

Lemma X10_battery_mass_witness :
  ~ Config.n joby == 0
  /\ built (run false (main joby))
       (fun st =>
          let b := Battery.model (SimpleOnDemandAircraft.battery (testAircraft st)) in
          feasible fpow1 1 rho2 (capacity_constraints st)
          /\ total_energy rho2 (OnDemandSizingMission.segments (testSizingMission st))
             == 7200
          /\ total_energy rho2 (OnDemandSizingMission.segments (testSizingMission st))
             <= rho2 (key (get b "usable_energy_fraction"))
                * (rho2 (key (get b "m")) * rho2 (key (get b "C_m")))).
Proof.
  split; [exact joby_discharge|].
  assert (HH : built (run false (main joby))
            (fun st =>
               forallb (holdsb fpow1 1 rho2) (capacity_constraints st) = true
               /\ Qeq_bool (total_energy rho2
                    (OnDemandSizingMission.segments (testSizingMission st))) 7200
                  = true)) by by_running.
  apply (built_impl _ _ _
           (built_and _ _ _ HH (X10_battery_mass joby fpow1 1 rho2 joby_discharge))).
  cbv zeta. intros st ((Hb & Hq) & (_ & Hc)).
  apply feasible_forallb in Hb. apply Qeq_bool_iff in Hq.
  split; [exact Hb|]. split; [exact Hq|]. exact (proj1 (Hc Hb)).
Defined.

Lemma X11_tip_speed_witness :
  ~ Config.n joby == 0
  /\ built (run false (main joby))
       (fun st =>
          Forall (fun ms =>
               let state := hd (fst ms) (instances "FlightState" (fst ms)) in
               Forall (fun seg =>
                    let r := rotorPerf_of seg in
                    feasible fpow1 1 rho2 (tip_speed_limits state r)
                    /\ 0 <= rho2 (key (get state "a"))
                    /\ rho2 (key (get r "MT_max")) == 0.9
                    /\ rho2 (key (get r "VT")) == 500
                    /\ rho2 (key (get r "VT")) <= 0.9 * rho2 (key (get state "a")))
                 (snd ms))
            (mission_hovers st)).
Proof.
  split; [exact joby_discharge|].
  assert (HH : built (run false (main joby))
            (fun st => Forall (fun ms =>
               Forall (fun seg =>
                 forallb (holdsb fpow1 1 rho2)
                   (tip_speed_limits (hd (fst ms) (instances "FlightState" (fst ms)))
                      (rotorPerf_of seg)) = true
                 /\ Qle_bool 0 (rho2 (key (get (hd (fst ms)
                      (instances "FlightState" (fst ms))) "a"))) = true
                 /\ Qeq_bool (rho2 (key (get (rotorPerf_of seg) "MT_max"))) 0.9 = true
                 /\ Qeq_bool (rho2 (key (get (rotorPerf_of seg) "VT"))) 500 = true)
                 (snd ms))
               (mission_hovers st))) by by_running.
  apply (built_impl _ _ _
           (built_and _ _ _ HH (X11_tip_speed joby fpow1 1 rho2 joby_discharge))).
  cbv zeta. intros st (Hh & Ht).
  eapply Forall_impl; [exact (Forall_both _ _ _ Hh Ht)|].
  intros ms (Hh' & Ht').
  eapply Forall_impl; [exact (Forall_both _ _ _ Hh' Ht')|].
  intros seg ((Hb & Ha & Hm & Hq) & (_ & Hc)).
  apply feasible_forallb in Hb. apply Qle_bool_iff in Ha.
  apply Qeq_bool_iff in Hm. apply Qeq_bool_iff in Hq.
  split; [exact Hb|]. split; [exact Ha|]. split; [exact Hm|]. split; [exact Hq|].
  exact (Hc Hb Ha Hm).
Defined.

Lemma X12_noise_limit_witness :
  ~ Config.n joby == 0
  /\ built (run false (main joby))
       (fun st =>
          Forall (fun ms =>
               let r0 := rotorPerf_of (hd seg_a (snd ms)) in
               feasible fpow1 1 rho2 [mission_noise (fst ms) r0; noise_limit r0]
               /\ rho2 (key (get (fst ms) "p_{ratio}")) == 10
               /\ rho2 (key (get (fst ms) "p_{ratio}"))
                  <= rho2 (key (get r0 "p_{ratio_max}")))
            (mission_hovers st)).
Proof.
  split; [exact joby_discharge|].
  assert (HH : built (run false (main joby))
            (fun st => Forall (fun ms =>
               forallb (holdsb fpow1 1 rho2)
                 [mission_noise (fst ms) (rotorPerf_of (hd seg_a (snd ms)));
                  noise_limit (rotorPerf_of (hd seg_a (snd ms)))] = true
               /\ Qeq_bool (rho2 (key (get (fst ms) "p_{ratio}"))) 10 = true)
               (mission_hovers st))) by by_running.
  apply (built_impl _ _ _
           (built_and _ _ _ HH (X12_noise_limit joby fpow1 1 rho2 joby_discharge))).
  cbv zeta. intros st (Hh & Ht).
  eapply Forall_impl; [exact (Forall_both _ _ _ Hh Ht)|].
  intros ms ((Hb & Hq) & (_ & Hc)).
  apply feasible_forallb in Hb. apply Qeq_bool_iff in Hq.
  split; [exact Hb|]. split; [exact Hq|]. exact (Hc Hb).
Defined.

Lemma X15_reserve_segment_witness :
  ~ Config.n joby == 0
  /\ built (run false (main (set_reserve_type joby "FAA")))
       (fun st =>
          let sm := testSizingMission st in
          let l := seg_model (OnDemandSizingMission.fs4 sm) in
          feasible fpow1 1 rho2 [loiter_requirement sm; segment_range l]
          /\ rho2 (key (get l "segment_range")) == 60
          /\ rho2 (key (get l "segment_range"))
             == rho2 (key (get l "V"))
                * rho2 (key (get (OnDemandSizingMission.model sm) "t_{loiter}")))
  /\ built (run false (main (set_reserve_type joby "Uber")))
       (fun st =>
          let sm := testSizingMission st in
          let l := seg_model (OnDemandSizingMission.fs4 sm) in
          feasible fpow1 1 rho2 [diversion_requirement sm; segment_range l]
          /\ rho2 (key (get (OnDemandSizingMission.model sm) "R_{divert}")) == 60
          /\ rho2 (key (get (OnDemandSizingMission.model sm) "R_{divert}"))
             == rho2 (key (get l "V")) * rho2 (key (get l "t"))).
Proof.
  split; [exact joby_discharge|].
  destruct (X15_reserve_segment joby fpow1 1 rho2 joby_discharge) as [HA HU].
  assert (HF : built (run false (main (set_reserve_type joby "FAA")))
            (fun st =>
               forallb (holdsb fpow1 1 rho2)
                 [loiter_requirement (testSizingMission st);
                  segment_range (seg_model
                    (OnDemandSizingMission.fs4 (testSizingMission st)))] = true
               /\ Qeq_bool (rho2 (key (get (seg_model (OnDemandSizingMission.fs4
                     (testSizingMission st))) "segment_range"))) 60 = true))
    by by_running.
  assert (HB : built (run false (main (set_reserve_type joby "Uber")))
            (fun st =>
               forallb (holdsb fpow1 1 rho2)
                 [diversion_requirement (testSizingMission st);
                  segment_range (seg_model
                    (OnDemandSizingMission.fs4 (testSizingMission st)))] = true
               /\ Qeq_bool (rho2 (key (get (OnDemandSizingMission.model
                     (testSizingMission st)) "R_{divert}"))) 60 = true))
    by by_running.
  split.
  - apply (built_impl _ _ _ (built_and _ _ _ HF HA)). cbv zeta.
    intros st ((Hb & Hq) & (_ & Hc)).
    apply feasible_forallb in Hb. apply Qeq_bool_iff in Hq.
    split; [exact Hb|]. split; [exact Hq|]. exact (Hc Hb).
  - apply (built_impl _ _ _ (built_and _ _ _ HB HU)). cbv zeta.
    intros st ((Hb & Hq) & (_ & Hc)).
    apply feasible_forallb in Hb. apply Qeq_bool_iff in Hq.
    split; [exact Hb|]. split; [exact Hq|]. exact (Hc Hb).
Defined.

Lemma X14_shared_flight_state_witness :
  ~ Config.n joby == 0
  /\ built (run false (main joby))
       (fun st =>
          Forall (fun ms =>
                    length (instances "FlightState" (fst ms)) = length (snd ms))
                 (mission_hovers st)).
Proof.
  split; [exact joby_discharge|].
  apply (built_impl _ _ _ (X14_shared_flight_state joby joby_discharge)). cbv zeta.
  intros st (H & _). eapply Forall_impl; [exact H|]. intros ms (Hl & _). exact Hl.
Defined.

Lemma X16_report_reserve_witness :
  ~ Config.n joby == 0
  /\ built (run false (main joby))
       (fun st =>
          reserve_line (Config.reserve_type joby) "45" "2.0"
          = inr "Reserve type: FAA (45-minute loiter time)"
          /\ reserve_requirements (OnDemandSizingMission.model (testSizingMission st))
             <> []).
Proof.
  split; [exact joby_discharge|].
  apply (built_impl _ _ _ (X16_report_reserve joby "45" "2.0" joby_discharge)).
  cbv zeta. intros st (H1 & _ & H3 & _).
  split; [exact (H3 eq_refl)|].
  intros E. apply H1 in E. rewrite (H3 eq_refl) in E. discriminate E.
Defined.


Lemma X18_self_equalities_witness :
  ~ Config.n joby == 0
  /\ built (run false (main joby))
       (fun st =>
          length (List.filter is_self_equality (flatten (problem st))) = 20%nat
          /\ feasible fpow1 1 rho1
               (List.filter (fun x => negb (is_self_equality x))
                            (flatten (problem st)))).
Proof.
  split; [exact joby_discharge|].
  pose proof (built_and _ _ _ rho1_feasible
                (X18_self_equalities joby fpow1 1 rho1 joby_discharge)) as H.
  apply (built_impl _ _ _ H). cbv zeta.
  intros st (HF & (Hl & _ & _ & HC)). apply feasible_forallb in HF.
  split; [exact Hl|]. exact (proj1 HC HF).
Defined.
